(** * pilot/helpers/cli.py : the supervised shell-command executor

    A shallow embedding of [enqueue_output], [run_command],
    [terminate_process] and [execute_command], with [build_directory_tree]
    and the callers [execute_command_and_check_cli_response],
    [run_command_until_success] and [debug], followed by the properties
    the specification states about them and by further properties of the
    code.

    Python text is [string], Python [int] is [Z], a [queue.Queue] is the
    list of its elements with the oldest first, and the statements of the
    source run in a state-and-exception monad over the [machine] record
    below.  What the operating system, the user and the child process do is
    not decided by the source: it is supplied as a [script]. *)

From Stdlib Require Import ZArith List String Ascii Bool Lia.
From Stdlib Require Import DecimalString DecimalZ DecimalPos.
Import ListNotations.

Open Scope string_scope.
Open Scope Z_scope.

(** ** Python text *)

Module Py.

Definition nl : string := String (ascii_of_nat 10) EmptyString.
Definition cr : string := String (ascii_of_nat 13) EmptyString.
Definition fence : string := "```".

(** [len(s)] *)
Definition len (s : string) : Z := Z.of_nat (String.length s).

Fixpoint drop (n : nat) (s : string) : string :=
  match n, s with
  | O, _ => s
  | S _, EmptyString => EmptyString
  | S n', String _ s' => drop n' s'
  end.

(** [s[i:]] : a negative index counts from the end, and an index outside
    the text is clipped to it. *)
Definition slice_from (i : Z) (s : string) : string :=
  let start := if i <? 0 then Z.max (len s + i) 0 else Z.min i (len s) in
  drop (Z.to_nat start) s.

(** [sub in s] for two texts *)
Fixpoint contains (sub s : string) : bool :=
  String.prefix sub s ||
  match s with
  | EmptyString => false
  | String _ s' => contains sub s'
  end.

(** [str(n)] and the [{n}] of an f-string, for an [int] *)
Definition str (n : Z) : string := NilZero.string_of_int (Z.to_int n).

(** The truth value of [line] in [if line:], where [line] is [None] or a
    text. *)
Definition truthy (line : option string) : bool :=
  match line with
  | None => false
  | Some s => negb (s =? "")%string
  end.

(** [''.join(lines)] *)
Definition join (lines : list string) : string :=
  fold_right String.append "" lines.

End Py.

(** ** Exceptions *)

Inductive exn : Type :=
| KeyboardInterrupt
| TimeoutError (msg : string)
| ProcessLookupError
| PermissionError
| FileNotFoundError
| CalledProcessError (returncode : Z)
| QueueEmpty
| TypeError
| OverflowError
| OSError (errno : Z).

(** The classes named in the [except] clauses of the source, as tests on an
    exception.  [TimeoutError], [ProcessLookupError], [PermissionError] and
    [FileNotFoundError] are subclasses of [OSError]; [OverflowError] is
    not. *)
Definition is_OSError (e : exn) : bool :=
  match e with
  | TimeoutError _ | ProcessLookupError | PermissionError | FileNotFoundError
  | OSError _ => true
  | _ => false
  end.

Definition is_CalledProcessError (e : exn) : bool :=
  match e with CalledProcessError _ => true | _ => false end.

Definition is_QueueEmpty (e : exn) : bool :=
  match e with QueueEmpty => true | _ => false end.

Definition is_KeyboardInterrupt (e : exn) : bool :=
  match e with KeyboardInterrupt => true | _ => false end.

Definition is_TimeoutError (e : exn) : bool :=
  match e with TimeoutError _ => true | _ => false end.

(** ** const/code_execution.py

    The module is imported by cli.py and is not among the sources read
    here, so its constants are the fields of a class and every property is
    stated for all of their values, under the assumptions it names. *)

Class code_execution : Type := {
  MAX_COMMAND_DEBUG_TRIES : Z;
  MIN_COMMAND_RUN_TIME : Z;
  MAX_COMMAND_RUN_TIME : Z;
  MAX_COMMAND_OUTPUT_LENGTH : Z
}.

(** ** The machine state *)

(** A row of the command-run history. *)
Record command_run : Type := {
  cr_id : Z;
  cr_app : Z;
  cr_command : string;
  cli_response : string
}.

(** The attributes of the [project] object that cli.py touches. *)
Record Project : Type := {
  app_id : Z;
  root_path : string;
  skip_steps : bool;
  command_runs_count : Z;
  checkpoints : list (string * command_run)
}.

(** What the program did to the outside, in order. *)
Inductive event : Type :=
| Printed (text : string)
| Prompted (question : string)
| Spawned (command cwd : string)
| Slept (ms : Z).

(** The two pipes of the child. *)
Inductive stream : Type := Stdout | Stderr.

(** The local variables of one activation of [execute_command], with the
    two reader threads that [run_command] starts for it. *)
Record frame : Type := {
  q : list string;
  q_stderr : list string;
  stdout_open : bool;
  stderr_open : bool;
  pid_container : option Z;
  output : string;
  stderr_output : string;
  local_interrupted : bool
}.

(** The process table, as far as [killpg] and [taskkill] see it.  An
    entry of [process_groups] is the pid of a child that leads a group the
    caller may signal, and stands for that child with its descendants: its
    process group for [killpg], its tree for [taskkill /T].  An entry of
    [foreign_groups] is a group the caller may not signal. *)
Record OS : Type := {
  platform_system : string;
  process_groups : list Z;
  foreign_groups : list Z
}.

Record machine : Type := {
  interrupted : bool;
  project : Project;
  command_runs : list command_run;
  os : OS;
  console : list event;
  locals : frame
}.

(** Points of one iteration of the control loop at which Ctrl+C can
    arrive; it counts only if the iteration gets there.  They are the top
    of the iteration, the sleep of the exit branch, and the points after
    each [get_nowait] and after the first print, where a line is off its
    queue, or in its buffer, and the block goes on.  Ctrl+C between an
    append and its print (lines 168-169, 178-179) or inside the drain
    (lines 150-153) is not among them: what is stated about the console
    beside the buffers is stated for calls without Ctrl+C. *)
Inductive point : Type :=
| AtLoopTop
| AfterStdoutGet
| AfterStdoutAppend
| AfterStderrGet
| WhileSleeping.

(** What one iteration of the control loop meets.  [reads_out] and
    [reads_err] are the values [out.readline()] returned to the two reader
    threads since the previous iteration, the empty text being end of file;
    [sleep_out] and [sleep_err] are those returned during the
    [time.sleep(0.1)] of the exit branch. *)
Record tick : Type := {
  reads_out : list string;
  reads_err : list string;
  elapsed_ms : Z;
  polled_exit : bool;
  sleep_out : list string;
  sleep_err : list string;
  ctrl_c : option point
}.

(** [pid_t] of the C library. *)
Definition fits_pid_t (n : Z) : bool := (- 2 ^ 31 <=? n) && (n <? 2 ^ 31).

(** The pid of a child process: it fits [pid_t], and it is neither 0 nor
    1, the pid of init. *)
Definition child_pid (n : Z) : bool := (1 <? n) && (n <? 2 ^ 31).

(** What the surroundings do during one call of [execute_command].  [pid]
    is the pid [Popen] gives the child when it succeeds, so it is the pid
    of a child process. *)
Record script : Type := {
  answer : string;
  popen_error : option exn;
  pid : Z;
  ticks : list tick;
  pid_ok : child_pid pid = true
}.

(** ** The monad *)

(** How a statement ends: it returns a value, it raises, or it does not
    come back (the loop is still turning when the observed ticks end, or
    the interpreter itself was killed). *)
Inductive res (A : Type) : Type :=
| Ok (a : A)
| Raise (e : exn)
| Hang.

Arguments Ok {A} a.
Arguments Raise {A} e.
Arguments Hang {A}.

Definition Exec (A : Type) : Type := machine -> res A * machine.

Definition ret {A : Type} (a : A) : Exec A := fun m => (Ok a, m).

Definition bind {A B : Type} (c : Exec A) (k : A -> Exec B) : Exec B :=
  fun m =>
    match c m with
    | (Ok a, m') => k a m'
    | (Raise e, m') => (Raise e, m')
    | (Hang, m') => (Hang, m')
    end.

Definition raise {A : Type} (e : exn) : Exec A := fun m => (Raise e, m).

(** The loop is still turning when the observed ticks end. *)
Definition hang {A : Type} : Exec A := fun m => (Hang, m).

(** [try: c  except <classes>: handler] *)
Definition try_except {A : Type} (c : Exec A) (classes : exn -> bool)
    (handler : exn -> Exec A) : Exec A :=
  fun m =>
    match c m with
    | (Raise e, m') => if classes e then handler e m' else (Raise e, m')
    | other => other
    end.

Definition gets {A : Type} (f : machine -> A) : Exec A := fun m => (Ok (f m), m).

Definition modify (f : machine -> machine) : Exec unit := fun m => (Ok tt, f m).

Declare Scope exec_scope.
Delimit Scope exec_scope with exec.
Bind Scope exec_scope with Exec.

Notation "x <- c ;; k" := (bind c (fun x => k))
  (at level 61, c at next level, right associativity) : exec_scope.
Notation "c ;; k" := (bind c (fun _ => k))
  (at level 61, right associativity) : exec_scope.

Open Scope exec_scope.

(** ** Assignments *)

Definition with_locals (f : frame -> frame) (m : machine) : machine :=
  {| interrupted := interrupted m; project := project m;
     command_runs := command_runs m; os := os m; console := console m;
     locals := f (locals m) |}.

Definition with_project (f : Project -> Project) (m : machine) : machine :=
  {| interrupted := interrupted m; project := f (project m);
     command_runs := command_runs m; os := os m; console := console m;
     locals := locals m |}.

Definition with_command_runs (f : list command_run -> list command_run)
    (m : machine) : machine :=
  {| interrupted := interrupted m; project := project m;
     command_runs := f (command_runs m); os := os m; console := console m;
     locals := locals m |}.

Definition with_os (f : OS -> OS) (m : machine) : machine :=
  {| interrupted := interrupted m; project := project m;
     command_runs := command_runs m; os := f (os m); console := console m;
     locals := locals m |}.

Definition with_console (f : list event -> list event) (m : machine) : machine :=
  {| interrupted := interrupted m; project := project m;
     command_runs := command_runs m; os := os m; console := f (console m);
     locals := locals m |}.

Definition set_q (v : list string) (f : frame) : frame :=
  {| q := v; q_stderr := q_stderr f; stdout_open := stdout_open f;
     stderr_open := stderr_open f; pid_container := pid_container f;
     output := output f; stderr_output := stderr_output f;
     local_interrupted := local_interrupted f |}.

Definition set_q_stderr (v : list string) (f : frame) : frame :=
  {| q := q f; q_stderr := v; stdout_open := stdout_open f;
     stderr_open := stderr_open f; pid_container := pid_container f;
     output := output f; stderr_output := stderr_output f;
     local_interrupted := local_interrupted f |}.

Definition set_stdout_open (v : bool) (f : frame) : frame :=
  {| q := q f; q_stderr := q_stderr f; stdout_open := v;
     stderr_open := stderr_open f; pid_container := pid_container f;
     output := output f; stderr_output := stderr_output f;
     local_interrupted := local_interrupted f |}.

Definition set_stderr_open (v : bool) (f : frame) : frame :=
  {| q := q f; q_stderr := q_stderr f; stdout_open := stdout_open f;
     stderr_open := v; pid_container := pid_container f;
     output := output f; stderr_output := stderr_output f;
     local_interrupted := local_interrupted f |}.

Definition set_pid_container (v : option Z) (f : frame) : frame :=
  {| q := q f; q_stderr := q_stderr f; stdout_open := stdout_open f;
     stderr_open := stderr_open f; pid_container := v;
     output := output f; stderr_output := stderr_output f;
     local_interrupted := local_interrupted f |}.

Definition set_output (v : string) (f : frame) : frame :=
  {| q := q f; q_stderr := q_stderr f; stdout_open := stdout_open f;
     stderr_open := stderr_open f; pid_container := pid_container f;
     output := v; stderr_output := stderr_output f;
     local_interrupted := local_interrupted f |}.

Definition set_stderr_output (v : string) (f : frame) : frame :=
  {| q := q f; q_stderr := q_stderr f; stdout_open := stdout_open f;
     stderr_open := stderr_open f; pid_container := pid_container f;
     output := output f; stderr_output := v;
     local_interrupted := local_interrupted f |}.

Definition set_local_interrupted (v : bool) (f : frame) : frame :=
  {| q := q f; q_stderr := q_stderr f; stdout_open := stdout_open f;
     stderr_open := stderr_open f; pid_container := pid_container f;
     output := output f; stderr_output := stderr_output f;
     local_interrupted := v |}.

Definition set_process_groups (v : list Z) (o : OS) : OS :=
  {| platform_system := platform_system o; process_groups := v;
     foreign_groups := foreign_groups o |}.

Definition set_command_runs_count (v : Z) (p : Project) : Project :=
  {| app_id := app_id p; root_path := root_path p; skip_steps := skip_steps p;
     command_runs_count := v; checkpoints := checkpoints p |}.

Definition set_checkpoints (v : list (string * command_run)) (p : Project) : Project :=
  {| app_id := app_id p; root_path := root_path p; skip_steps := skip_steps p;
     command_runs_count := command_runs_count p; checkpoints := v |}.

(** ** The surroundings *)

Definition log (e : event) : Exec unit :=
  modify (with_console (fun c => (c ++ [e])%list)).

(** [colored(text, ...)] of termcolor: the escape sequences it adds are
    left out of the console text. *)
Definition colored (text : string) : string := text.

(** [print(text, end=end_)] *)
Definition print_end (text end_ : string) : Exec unit :=
  log (Printed (text ++ end_)).

(** [print(text)] *)
Definition print (text : string) : Exec unit := print_end text Py.nl.

(** [styled_text(project, question)] of utils.questionary: shows the
    question, blocks, and returns what the user typed. *)
Definition styled_text (env : script) (question : string) : Exec string :=
  log (Prompted question) ;; ret (answer env).

Definition same_run (app : Z) (command : string) (r : command_run) : bool :=
  (cr_app r =? app) && (cr_command r =? command)%string.

(** Modelled from the spec: [get_command_run_from_hash_id] of
    database/database.py is not among the sources.  The history is
    consulted with the project scope and the command text as key. *)
Definition get_command_run_from_hash_id (command : string)
    : Exec (option command_run) :=
  gets (fun m => find (same_run (app_id (project m)) command) (command_runs m)).

(** Modelled from the spec: [save_command_run] of database/database.py is
    not among the sources.  The command text and the result text are
    persisted for the project, the newest row first. *)
Definition save_command_run (command response : string) : Exec command_run :=
  fun m =>
    let row := {| cr_id := 1 + Z.of_nat (List.length (command_runs m));
                  cr_app := app_id (project m);
                  cr_command := command;
                  cli_response := response |} in
    (Ok row, with_command_runs (cons row) m).

Definition mem (x : Z) (l : list Z) : bool := existsb (Z.eqb x) l.

Inductive signal : Type := SIGKILL.

(** [os.killpg(pgid, sig)] with [SIGKILL], as CPython and the C library
    of Linux have it.  An integer that does not fit [pid_t] is
    [OverflowError] before anything is signalled; a negative one is
    [EINVAL].  [killpg(0)] signals the group of the caller: the interpreter
    is killed and nothing comes back.  [killpg(1)] is [kill(-1)]: every
    process the caller may signal is killed, the caller excepted.  For any
    other [pgid] every member of the group is killed; a group that does not
    exist is [ProcessLookupError], one that the caller may not signal is
    [PermissionError]. *)
Definition os_killpg (pgid : Z) (sig : signal) : Exec unit :=
  fun m =>
    if negb (fits_pid_t pgid) then (Raise OverflowError, m)
    else if pgid <? 0 then (Raise (OSError 22), m)
    else if pgid =? 0 then (Hang, m)
    else if pgid =? 1 then
      match process_groups (os m) with
      | [] => (Raise ProcessLookupError, m)
      | _ => (Ok tt, with_os (set_process_groups []) m)
      end
    else if mem pgid (process_groups (os m)) then
      (Ok tt, with_os (set_process_groups
                         (remove Z.eq_dec pgid (process_groups (os m)))) m)
    else if mem pgid (foreign_groups (os m)) then (Raise PermissionError, m)
    else (Raise ProcessLookupError, m).

Definition parse_int (s : string) : option Z :=
  option_map Z.of_int (NilZero.int_of_string s).

(** What running a program does and the status it exits with.  The one
    program cli.py runs is [taskkill /F /T /PID n].  It is taken to be on
    the PATH, where Windows has it: a machine without it, on which
    [subprocess.run] would raise [FileNotFoundError] past the
    [except CalledProcessError] of line 73, is not modelled.  It kills the
    process [n] with its tree of descendants, which is one entry of the
    process table, and exits with 0, or exits with 128 when there is no
    such process.  Any other program is not installed. *)
Definition run_program (args : list string) : Exec Z :=
  match args with
  | ["taskkill"; "/F"; "/T"; "/PID"; p] =>
      match parse_int p with
      | Some n =>
          fun m =>
            if mem n (process_groups (os m)) then
              (Ok 0, with_os (set_process_groups
                                (remove Z.eq_dec n (process_groups (os m)))) m)
            else (Ok 128, m)
      | None => ret 1
      end
  | _ => raise FileNotFoundError
  end.

(** [subprocess.run(args, check=check)]: the exit status is turned into
    [CalledProcessError] only when [check] is set. *)
Definition subprocess_run (args : list string) (check : bool) : Exec Z :=
  returncode <- run_program args ;;
  if check && negb (returncode =? 0) then raise (CalledProcessError returncode)
  else ret returncode.

(** [subprocess.Popen(command, shell=True, stdout=PIPE, stderr=PIPE,
    text=True, cwd=cwd)], with [preexec_fn=os.setsid] when [setsid] is set:
    the child leads a group named by its own pid. *)
Definition subprocess_Popen (env : script) (command cwd : string)
    (setsid : bool) : Exec Z :=
  match popen_error env with
  | Some e => raise e
  | None =>
      log (Spawned command cwd) ;;
      modify (with_os (fun o => set_process_groups (pid env :: process_groups o) o)) ;;
      ret (pid env)
  end.

(** [process.poll() is not None], as the tick says; a child seen to have
    exited is reaped and its group is gone. *)
Definition process_poll (t : tick) (process : Z) : Exec bool :=
  if polled_exit t then
    modify (with_os (fun o =>
      set_process_groups (remove Z.eq_dec process (process_groups o)) o)) ;;
    ret true
  else ret false.

Definition point_eqb (a b : point) : bool :=
  match a, b with
  | AtLoopTop, AtLoopTop
  | AfterStdoutGet, AfterStdoutGet
  | AfterStdoutAppend, AfterStdoutAppend
  | AfterStderrGet, AfterStderrGet
  | WhileSleeping, WhileSleeping => true
  | _, _ => false
  end.

(** Ctrl+C arriving at point [p] of the iteration raises
    [KeyboardInterrupt] there. *)
Definition interrupt_point (t : tick) (p : point) : Exec unit :=
  match ctrl_c t with
  | Some p' => if point_eqb p p' then raise KeyboardInterrupt else ret tt
  | None => ret tt
  end.

(** ** Queues *)

Definition queue_of (s : stream) (f : frame) : list string :=
  match s with Stdout => q f | Stderr => q_stderr f end.

Definition set_queue (s : stream) (v : list string) : frame -> frame :=
  match s with Stdout => set_q v | Stderr => set_q_stderr v end.

(** [q.put(line)] *)
Definition put (s : stream) (line : string) : Exec unit :=
  modify (with_locals (fun f => set_queue s (queue_of s f ++ [line])%list f)).

(** [q.empty()] *)
Definition empty (s : stream) : Exec bool :=
  gets (fun m => match queue_of s (locals m) with [] => true | _ => false end).

(** [q.get_nowait()] *)
Definition get_nowait (s : stream) : Exec string :=
  fun m =>
    match queue_of s (locals m) with
    | [] => (Raise QueueEmpty, m)
    | line :: rest => (Ok line, with_locals (set_queue s rest) m)
    end.

(** [out.close()] : the reader thread of the stream is over. *)
Definition close (out : stream) : Exec unit :=
  modify (with_locals
    match out with Stdout => set_stdout_open false | Stderr => set_stderr_open false end).

Definition is_open (out : stream) : Exec bool :=
  gets (fun m => match out with
                 | Stdout => stdout_open (locals m)
                 | Stderr => stderr_open (locals m)
                 end).

(** ** cli.py *)

(** [enqueue_output(out, q)], lines 19-24, on the values [out.readline()]
    returns during one slice of time.  The flag it tests is the
    module-level [interrupted].  When the values run out the thread is
    blocked in [readline] and goes on with the next slice. *)
Fixpoint enqueue_output (out : stream) (reads : list string) : Exec unit :=
  match reads with
  | [] => ret tt
  | line :: reads' =>
      if (line =? "")%string then close out
      else
        flag <- gets interrupted ;;
        if flag then close out
        else put out line ;; enqueue_output out reads'
  end.

(** One slice of a reader thread: nothing once its stream is closed. *)
Definition reader_thread (out : stream) (reads : list string) : Exec unit :=
  running <- is_open out ;;
  if running then enqueue_output out reads else ret tt.

(** [run_command], lines 26-67.  The two branches differ in
    [preexec_fn=os.setsid] only. *)
Definition run_command (env : script) (command root : string) : Exec Z :=
  system <- gets (fun m => platform_system (os m)) ;;
  process <- (if (system =? "Windows")%string
              then subprocess_Popen env command root false
              else subprocess_Popen env command root true) ;;
  modify (with_locals (set_pid_container (Some process))) ;;
  modify (with_locals (set_stdout_open true)) ;;
  modify (with_locals (set_stderr_open true)) ;;
  ret process.

(** [terminate_process], lines 69-81. *)
Definition terminate_process (pid : Z) : Exec unit :=
  system <- gets (fun m => platform_system (os m)) ;;
  if (system =? "Windows")%string then
    try_except
      (subprocess_run ["taskkill"; "/F"; "/T"; "/PID"; Py.str pid] false ;; ret tt)
      is_CalledProcessError
      (fun _ => ret tt)
  else
    try_except
      (os_killpg pid SIGKILL)
      is_OSError
      (fun _ => ret tt).

(** The clamp of lines 96-99: a value under 1000 is taken to be in seconds. *)
Definition clamp_timeout `{code_execution} (timeout : option Z) : option Z :=
  match timeout with
  | None => None
  | Some t =>
      let t := if t <? 1000 then t * 1000 else t in
      Some (Z.min (Z.max t MIN_COMMAND_RUN_TIME) MAX_COMMAND_RUN_TIME)
  end.

(** The [{timeout}] of line 106. *)
Definition show_timeout (timeout : option Z) : string :=
  match timeout with
  | None => "None"
  | Some t => Py.str t
  end.

(** The rewriting of lines 116-117. *)
Definition shell_command (command : string) : string :=
  if Py.contains "cd " command || Py.contains "source " command
  then "bash -c '" ++ command ++ "'"
  else command.

(** [while not q.empty(): ...], lines 149-153.  Nothing is put on the
    queue while the loop runs, so the length of the queue at its entry is
    fuel enough. *)
Fixpoint drain_remaining (fuel : nat) : Exec unit :=
  match fuel with
  | O => ret tt
  | S fuel' =>
      is_empty <- empty Stdout ;;
      if is_empty then ret tt
      else
        output_line <- get_nowait Stdout ;;
        seen <- gets (fun m => output (locals m)) ;;
        (if negb (Py.contains output_line seen) then
           print_end (colored "CLI OUTPUT:" ++ output_line) "" ;;
           modify (with_locals (set_output (seen ++ output_line)))
         else ret tt) ;;
        drain_remaining fuel'
  end.

(** [elapsed_time * 1000 > timeout], with [timeout is not None]. *)
Definition timed_out (timeout : option Z) (t : tick) : bool :=
  match timeout with
  | None => false
  | Some limit => limit <? elapsed_ms t
  end.

(** [try: line = q.get_nowait()  except queue.Empty: line = None] *)
Definition poll_queue (s : stream) : Exec (option string) :=
  try_except (line <- get_nowait s ;; ret (Some line))
             is_QueueEmpty
             (fun _ => ret None).

(** How an iteration of a [while] loop ends. *)
Inductive flow : Type := Continue | Break.

(** The body of the [while return_value is None] loop, lines 141-179, on
    one tick. *)
Definition loop_body (process : Z) (timeout : option Z) (t : tick) : Exec flow :=
  reader_thread Stdout (reads_out t) ;;
  reader_thread Stderr (reads_err t) ;;
  interrupt_point t AtLoopTop ;;
  (match timeout with
   | Some _ =>
       print_end (colored ("" ++ Py.cr ++ "t: " ++ Py.str (elapsed_ms t) ++ "ms : ")) ""
   | None => ret tt
   end) ;;
  exited <- process_poll t process ;;
  if exited then
    log (Slept 100) ;;
    interrupt_point t WhileSleeping ;;
    reader_thread Stdout (sleep_out t) ;;
    reader_thread Stderr (sleep_err t) ;;
    pending <- gets (fun m => q (locals m)) ;;
    drain_remaining (List.length pending) ;;
    ret Break
  else if timed_out timeout t then
    raise (TimeoutError "Command exceeded the specified timeout.")
  else
    line <- poll_queue Stdout ;;
    interrupt_point t AfterStdoutGet ;;
    (match line with
     | Some text =>
         if Py.truthy line then
           out <- gets (fun m => output (locals m)) ;;
           modify (with_locals (set_output (out ++ text))) ;;
           print_end (colored "CLI OUTPUT:" ++ text) ""
         else ret tt
     | None => ret tt
     end) ;;
    interrupt_point t AfterStdoutAppend ;;
    stderr_line <- poll_queue Stderr ;;
    interrupt_point t AfterStderrGet ;;
    (match stderr_line with
     | Some text =>
         if Py.truthy stderr_line then
           err <- gets (fun m => stderr_output (locals m)) ;;
           modify (with_locals (set_stderr_output (err ++ text))) ;;
           print_end (colored "CLI ERROR:" ++ text) ""
         else ret tt
     | None => ret tt
     end) ;;
    ret Continue.

(** The [while return_value is None] loop of lines 140-179, one iteration
    for each tick.  [return_value] stays [None] until line 194, so the loop
    is left by [break] or by an exception only. *)
Fixpoint control_loop (process : Z) (timeout : option Z) (ts : list tick)
    : Exec unit :=
  match ts with
  | [] => hang
  | t :: ts' =>
      next <- loop_body process timeout t ;;
      match next with
      | Break => ret tt
      | Continue => control_loop process timeout ts'
      end
  end.

(** The handler of lines 181-188.  Its first statement assigns a variable
    of [execute_command]: the function has no [global] declaration. *)
Definition on_interrupt (e : exn) : Exec unit :=
  modify (with_locals (set_local_interrupted true)) ;;
  (if is_KeyboardInterrupt e
   then print ("" ++ Py.nl ++ "CTRL+C detected. Stopping command execution...")
   else print ("" ++ Py.nl ++ "Timeout detected. Stopping command execution...")) ;;
  container <- gets (fun m => pid_container (locals m)) ;;
  match container with
  | Some process => terminate_process process
  | None => raise TypeError
  end.

Definition catches_interrupt (e : exn) : bool :=
  is_KeyboardInterrupt e || is_TimeoutError e.

(** Lines 194-198. *)
Definition result_text `{code_execution} (stderr_output output : string) : string :=
  let return_value := "" in
  let return_value :=
    if negb (stderr_output =? "")%string
    then "stderr:" ++ Py.nl ++ Py.fence ++ Py.nl
         ++ Py.slice_from (- MAX_COMMAND_OUTPUT_LENGTH) stderr_output
         ++ Py.nl ++ Py.fence ++ Py.nl
    else return_value in
  return_value ++ "stdout:" ++ Py.nl ++ Py.fence ++ Py.nl
    ++ Py.slice_from (- MAX_COMMAND_OUTPUT_LENGTH) output
    ++ Py.nl ++ Py.fence.

(** The frame of lines 128-137 before [run_command] fills it. *)
Definition fresh_frame : frame :=
  {| q := []; q_stderr := []; stdout_open := false; stderr_open := false;
     pid_container := None; output := ""; stderr_output := "";
     local_interrupted := false |}.

(** Lines 128-202: spawn, supervise, build the result, save it. *)
Definition supervise `{code_execution} (env : script) (command : string)
    (timeout : option Z) : Exec string :=
  modify (with_locals (fun _ => fresh_frame)) ;;
  root <- gets (fun m => root_path (project m)) ;;
  process <- run_command env command root ;;
  modify (with_locals (set_output "")) ;;
  modify (with_locals (set_stderr_output "")) ;;
  modify (with_locals (set_local_interrupted false)) ;;
  try_except (control_loop process timeout (ticks env))
             catches_interrupt
             on_interrupt ;;
  err <- gets (fun m => stderr_output (locals m)) ;;
  out <- gets (fun m => output (locals m)) ;;
  let return_value := result_text err out in
  save_command_run command return_value ;;
  ret return_value.

(** [project.checkpoints['last_command_run'] = command_run] *)
Definition set_checkpoint (key : string) (v : command_run) (p : Project) : Project :=
  set_checkpoints
    ((key, v) :: filter (fun kv => negb (fst kv =? key)%string) (checkpoints p)) p.

(** [execute_command(project, command, timeout, force)], lines 83-202. *)
Definition execute_command `{code_execution} (env : script) (command : string)
    (timeout : option Z) (force : bool) : Exec string :=
  let timeout := clamp_timeout timeout in
  (if negb force then
     print (colored ("" ++ Py.nl ++ "--------- EXECUTE COMMAND ----------")) ;;
     print (colored "Can i execute the command: `" ++ colored command
            ++ colored ("` with " ++ show_timeout timeout ++ "ms timeout?")) ;;
     reply <- styled_text env "If yes, just press ENTER" ;;
     ret tt
   else ret tt) ;;
  let command := shell_command command in
  modify (with_project (fun p => set_command_runs_count (command_runs_count p + 1) p)) ;;
  command_run <- get_command_run_from_hash_id command ;;
  skip <- gets (fun m => skip_steps (project m)) ;;
  match command_run with
  | Some found =>
      if skip then
        modify (with_project (set_checkpoint "last_command_run" found)) ;;
        print (colored ("Restoring command run response id " ++ Py.str (cr_id found)
                        ++ ":" ++ Py.nl ++ Py.fence ++ Py.nl
                        ++ cli_response found ++ Py.fence)) ;;
        ret (cli_response found)
      else supervise env command timeout
  | None => supervise env command timeout
  end.

(** ** Reading a script

    What a script makes of a run, without running it: how the loop ends,
    and which lines the reader threads put on the queues. *)

Inductive ending : Type := Completed | TimedOut | Interrupted | StillRunning.

(** The result of one iteration, read off the tick: Ctrl+C counts at the
    points the iteration passes. *)
Definition body_result (timeout : option Z) (t : tick) : res flow :=
  match ctrl_c t with
  | Some AtLoopTop => Raise KeyboardInterrupt
  | at_point =>
      if polled_exit t then
        match at_point with
        | Some WhileSleeping => Raise KeyboardInterrupt
        | _ => Ok Break
        end
      else if timed_out timeout t then
        Raise (TimeoutError "Command exceeded the specified timeout.")
      else
        match at_point with
        | Some AfterStdoutGet | Some AfterStdoutAppend | Some AfterStderrGet =>
            Raise KeyboardInterrupt
        | _ => Ok Continue
        end
  end.

Fixpoint loop_outcome (timeout : option Z) (ts : list tick) : ending :=
  match ts with
  | [] => StillRunning
  | t :: ts' =>
      match body_result timeout t with
      | Ok Break => Completed
      | Ok Continue => loop_outcome timeout ts'
      | Raise (TimeoutError _) => TimedOut
      | Raise _ => Interrupted
      | Hang => StillRunning
      end
  end.

Definition aborted (e : ending) : bool :=
  match e with TimedOut | Interrupted => true | _ => false end.

(** The values [readline] returns on a stream up to the iteration that sees
    the child gone, its sleep included. *)
Fixpoint reads_of (reads sleep : tick -> list string) (ts : list tick)
    : list string :=
  match ts with
  | [] => []
  | t :: ts' =>
      if polled_exit t then (reads t ++ sleep t)%list
      else (reads t ++ reads_of reads sleep ts')%list
  end.

(** The lines among them: what comes before the first empty text. *)
Fixpoint lines_before_eof (reads : list string) : list string :=
  match reads with
  | [] => []
  | line :: reads' =>
      if (line =? "")%string then [] else line :: lines_before_eof reads'
  end.

Definition stdout_lines (env : script) : list string :=
  lines_before_eof (reads_of reads_out sleep_out (ticks env)).


(** The buffer after the lines are offered one by one and a line is taken
    only if its text does not occur in the buffer yet. *)
Fixpoint keep_new (lines : list string) (buffer : string) : string :=
  match lines with
  | [] => buffer
  | line :: lines' =>
      if Py.contains line buffer then keep_new lines' buffer
      else keep_new lines' (buffer ++ line)
  end.


(** The call takes the replay branch of lines 122-126. *)
Definition replays (command : string) (m : machine) : option command_run :=
  if skip_steps (project m)
  then find (same_run (app_id (project m)) (shell_command command)) (command_runs m)
  else None.


(** ** Relations between the machine before and after *)

(** A computation keeps [R] when every run of it relates the machine it
    starts from to the one it leaves, however it ends. *)
Definition keeps (R : machine -> machine -> Prop) {A : Type} (c : Exec A) : Prop :=
  forall m, R m (snd (c m)).

(** Events of the control loop itself. *)
Definition quiet (e : event) : Prop :=
  match e with
  | Printed _ | Slept _ => True
  | _ => False
  end.

(** The console grew by events that satisfy [P]. *)
Definition console_grows (P : event -> Prop) (m m' : machine) : Prop :=
  exists evs, console m' = (console m ++ evs)%list /\ Forall P evs.

(** What the control loop and the reader threads may change: the queues,
    the two buffers, the open streams, the console by quiet events, and
    the process table by losing groups. *)
Definition supervising (m m' : machine) : Prop :=
  interrupted m' = interrupted m
  /\ project m' = project m
  /\ command_runs m' = command_runs m
  /\ platform_system (os m') = platform_system (os m)
  /\ foreign_groups (os m') = foreign_groups (os m)
  /\ incl (process_groups (os m')) (process_groups (os m))
  /\ pid_container (locals m') = pid_container (locals m)
  /\ local_interrupted (locals m') = local_interrupted (locals m)
  /\ console_grows quiet m m'.

(** The result of the loop for each ending. *)
Definition loop_result (e : ending) : res unit :=
  match e with
  | Completed => Ok tt
  | TimedOut => Raise (TimeoutError "Command exceeded the specified timeout.")
  | Interrupted => Raise KeyboardInterrupt
  | StillRunning => Hang
  end.

(** A computation that ends normally from every machine. *)
Definition returns {A : Type} (c : Exec A) : Prop :=
  forall m, exists a m', c m = (Ok a, m').

(** The machine once the group of [pid] is killed, if there is one. *)
Definition kill_group (pid : Z) (m : machine) : machine :=
  if mem pid (process_groups (os m))
  then with_os (set_process_groups (remove Z.eq_dec pid (process_groups (os m)))) m
  else m.

(** The machine at line 139, when [run_command] has spawned the child. *)
Definition started (env : script) (command : string) (m : machine) : machine :=
  {| interrupted := interrupted m;
     project := project m;
     command_runs := command_runs m;
     os := set_process_groups (pid env :: process_groups (os m)) (os m);
     console := (console m ++ [Spawned command (root_path (project m))])%list;
     locals := {| q := []; q_stderr := []; stdout_open := true; stderr_open := true;
                  pid_container := Some (pid env); output := ""; stderr_output := "";
                  local_interrupted := false |} |}.

(** Lines 194-202 on the outcome of the supervised loop. *)
Definition finish `{code_execution} (command : string) (run : res unit * machine)
    : res string * machine :=
  match run with
  | (Ok _, m) =>
      let return_value := result_text (stderr_output (locals m)) (output (locals m)) in
      (Ok return_value, snd (save_command_run command return_value m))
  | (Raise e, m) => (Raise e, m)
  | (Hang, m) => (Hang, m)
  end.

(** The machine after the handler of lines 181-188 ran on [m]. *)
Definition stopped (by_user : bool) (process : Z) (m : machine) : machine :=
  kill_group process
    (with_console
       (fun c => (c ++ [Printed (("" ++ Py.nl ++
                   (if by_user then "CTRL+C detected. Stopping command execution..."
                    else "Timeout detected. Stopping command execution...")) ++ Py.nl)])%list)
       (with_locals (set_local_interrupted true) m)).

(** The supervised loop with its handler, lines 139-188, for each ending. *)
Definition handled (e : ending) (process : Z) (m : machine) : res unit * machine :=
  match e with
  | Completed => (Ok tt, m)
  | TimedOut => (Ok tt, stopped false process m)
  | Interrupted => (Ok tt, stopped true process m)
  | StillRunning => (Hang, m)
  end.

(** The machine after the confirmation of lines 101-112. *)
Definition asked (command : string) (timeout : option Z) (m : machine) : machine :=
  with_console (fun c => (c ++ [Prompted "If yes, just press ENTER"])%list)
    (with_console
       (fun c => (c ++ [Printed ((colored "Can i execute the command: `" ++ colored command
                          ++ colored ("` with " ++ show_timeout timeout ++ "ms timeout?"))
                          ++ Py.nl)])%list)
       (with_console
          (fun c => (c ++ [Printed (colored ("" ++ Py.nl ++ "--------- EXECUTE COMMAND ----------")
                                    ++ Py.nl)])%list)
          m)).

(** The machine at line 121: confirmed unless forced, and counted. *)
Definition entered `{code_execution} (force : bool) (command : string)
    (timeout : option Z) (m : machine) : machine :=
  with_project (fun p => set_command_runs_count (command_runs_count p + 1) p)
    (if force then m else asked command (clamp_timeout timeout) m).

(** The machine after the replay of lines 124-125. *)
Definition restored (found : command_run) (m : machine) : machine :=
  with_console
    (fun c => (c ++ [Printed (colored ("Restoring command run response id "
                              ++ Py.str (cr_id found) ++ ":" ++ Py.nl ++ Py.fence ++ Py.nl
                              ++ cli_response found ++ Py.fence) ++ Py.nl)])%list)
    (with_project (set_checkpoint "last_command_run" found) m).

(** The machine when the control loop stops, for a call that spawns. *)
Definition loop_end `{code_execution} (env : script) (command : string)
    (timeout : option Z) (force : bool) (m : machine) : machine :=
  snd (control_loop (pid env) (clamp_timeout timeout) (ticks env)
         (started env (shell_command command) (entered force command timeout m))).

(** Events a call for [command] may add to the console. *)
Definition allowed (force : bool) (spawned root : string) (e : event) : Prop :=
  match e with
  | Spawned c cwd => c = spawned /\ cwd = root
  | Prompted _ => force = false
  | Printed _ | Slept _ => True
  end.

(** ** The loop on the frame alone

    What the reader threads and the control loop do to the local
    variables when the module-level flag is clear, as functions on the
    frame. *)

Definition opened (out : stream) (f : frame) : bool :=
  match out with Stdout => stdout_open f | Stderr => stderr_open f end.

Definition set_opened (out : stream) (v : bool) : frame -> frame :=
  match out with Stdout => set_stdout_open v | Stderr => set_stderr_open v end.

Definition buffer_of (s : stream) (f : frame) : string :=
  match s with Stdout => output f | Stderr => stderr_output f end.

Definition set_buffer (s : stream) (v : string) : frame -> frame :=
  match s with Stdout => set_output v | Stderr => set_stderr_output v end.

Definition reads (s : stream) : tick -> list string :=
  match s with Stdout => reads_out | Stderr => reads_err end.

Definition sleep_reads (s : stream) : tick -> list string :=
  match s with Stdout => sleep_out | Stderr => sleep_err end.

(** A reader thread on the values of one slice. *)
Fixpoint absorb (out : stream) (values : list string) (f : frame) : frame :=
  match values with
  | [] => f
  | line :: values' =>
      if (line =? "")%string then set_opened out false f
      else absorb out values' (set_queue out (queue_of out f ++ [line])%list f)
  end.

Definition read_slice (out : stream) (values : list string) (f : frame) : frame :=
  if opened out f then absorb out values f else f.

(** Lines 162-169 and 172-179: at most one line goes from the queue to
    the buffer. *)
Definition take (s : stream) (f : frame) : frame :=
  match queue_of s f with
  | [] => f
  | line :: rest =>
      if (line =? "")%string then set_queue s rest f
      else set_buffer s (buffer_of s f ++ line) (set_queue s rest f)
  end.

(** Lines 149-153: the stdout queue is emptied into the buffer, new texts
    only. *)
Definition drain (f : frame) : frame :=
  set_output (keep_new (q f) (output f)) (set_q [] f).

(** One iteration that goes on, and one that sees the child gone. *)
Definition body_continue (t : tick) (f : frame) : frame :=
  take Stderr (take Stdout
    (read_slice Stderr (reads_err t) (read_slice Stdout (reads_out t) f))).

Definition body_break (t : tick) (f : frame) : frame :=
  drain (read_slice Stderr (sleep_err t) (read_slice Stdout (sleep_out t)
    (read_slice Stderr (reads_err t) (read_slice Stdout (reads_out t) f)))).

(** No end of file among the values. *)
Definition no_eof (values : list string) : bool :=
  forallb (fun line => negb (line =? "")%string) values.

(** The lines of a stream that are queued or still to be read when the
    loop is about to run the ticks [ts]. *)
Definition pending (s : stream) (ts : list tick) (f : frame) : list string :=
  (queue_of s f ++
   (if opened s f then lines_before_eof (reads_of (reads s) (sleep_reads s) ts) else []))%list.

(** A stream whose queue, open flag and buffer are the same in two
    frames. *)
Definition untouched (s : stream) (f f' : frame) : Prop :=
  queue_of s f' = queue_of s f
  /\ opened s f' = opened s f
  /\ buffer_of s f' = buffer_of s f.

(** The machine after lines 150-153 took [line] off the stdout queue, of
    which [rest] remains. *)
Definition offered (line : string) (rest : list string) (m : machine) : machine :=
  if Py.contains line (output (locals m))
  then with_locals (set_queue Stdout rest) m
  else with_locals (set_output (output (locals m) ++ line))
         (with_console
            (fun c => (c ++ [Printed ((colored "CLI OUTPUT:" ++ line) ++ "")])%list)
            (with_locals (set_queue Stdout rest) m)).






(** The lines the drain appends. *)
Fixpoint new_lines (lines : list string) (buffer : string) : list string :=
  match lines with
  | [] => []
  | line :: lines' =>
      if Py.contains line buffer then new_lines lines' buffer
      else line :: new_lines lines' (buffer ++ line)
  end.

(** ** Sample surroundings *)

(** Values of the constants for the closed examples. *)
Definition sample_constants : code_execution :=
  {| MAX_COMMAND_DEBUG_TRIES := 3;
     MIN_COMMAND_RUN_TIME := 2000;
     MAX_COMMAND_RUN_TIME := 30000;
     MAX_COMMAND_OUTPUT_LENGTH := 2000 |}.

Definition sample_project : Project :=
  {| app_id := 1; root_path := "/work"; skip_steps := false;
     command_runs_count := 0; checkpoints := [] |}.

Definition boot (system : string) : machine :=
  {| interrupted := false;
     project := sample_project;
     command_runs := [];
     os := {| platform_system := system; process_groups := []; foreign_groups := [612] |};
     console := [];
     locals := fresh_frame |}.

Definition quiet_tick : tick :=
  {| reads_out := []; reads_err := []; elapsed_ms := 0; polled_exit := false;
     sleep_out := []; sleep_err := []; ctrl_c := None |}.

(** [echo hello]: the line is read, then the child is seen to have
    exited. *)
Definition echo_hello : script :=
  {| answer := ""; popen_error := None; pid := 4242;
     ticks :=
       [ {| reads_out := ["hello" ++ Py.nl; ""]; reads_err := [""]; elapsed_ms := 3;
            polled_exit := false; sleep_out := []; sleep_err := []; ctrl_c := None |};
         {| reads_out := []; reads_err := []; elapsed_ms := 5;
            polled_exit := true; sleep_out := []; sleep_err := []; ctrl_c := None |} ];
     pid_ok := eq_refl |}.

(** A child that writes a line and then outlives a timeout of 2000 ms. *)
Definition sleeps_too_long : script :=
  {| answer := ""; popen_error := None; pid := 4243;
     ticks :=
       [ {| reads_out := ["starting" ++ Py.nl]; reads_err := []; elapsed_ms := 10;
            polled_exit := false; sleep_out := []; sleep_err := []; ctrl_c := None |};
         {| reads_out := []; reads_err := []; elapsed_ms := 2600;
            polled_exit := false; sleep_out := []; sleep_err := []; ctrl_c := None |} ];
     pid_ok := eq_refl |}.


(** The working directory does not exist. *)
Definition cannot_spawn : script :=
  {| answer := ""; popen_error := Some FileNotFoundError; pid := 4248; ticks := [];
     pid_ok := eq_refl |}.

(** A project that replays its history, with one recorded run. *)
Definition replaying : machine :=
  {| interrupted := false;
     project := {| app_id := 1; root_path := "/work"; skip_steps := true;
                   command_runs_count := 3; checkpoints := [] |};
     command_runs := [ {| cr_id := 1; cr_app := 1; cr_command := "echo hello";
                          cli_response := "recorded" |} ];
     os := {| platform_system := "Linux"; process_groups := []; foreign_groups := [] |};
     console := [];
     locals := fresh_frame |}.




(** A child that writes to both pipes and then outlives a timeout of
    2000 ms. *)
Definition noisy_then_stuck : script :=
  {| answer := ""; popen_error := None; pid := 4250;
     ticks :=
       [ {| reads_out := ["out 1" ++ Py.nl];
            reads_err := ["err 1" ++ Py.nl; "err 2" ++ Py.nl];
            elapsed_ms := 10; polled_exit := false;
            sleep_out := []; sleep_err := []; ctrl_c := None |};
         {| reads_out := []; reads_err := []; elapsed_ms := 2600; polled_exit := false;
            sleep_out := []; sleep_err := []; ctrl_c := None |} ];
     pid_ok := eq_refl |}.

(** [echo 10; echo 0]: both lines are written and the child is gone
    before the loop looks for the first time. *)
Definition ten_then_zero : script :=
  {| answer := ""; popen_error := None; pid := 4251;
     ticks :=
       [ {| reads_out := ["10" ++ Py.nl; "0" ++ Py.nl; ""]; reads_err := [""];
            elapsed_ms := 4; polled_exit := true;
            sleep_out := []; sleep_err := []; ctrl_c := None |} ];
     pid_ok := eq_refl |}.

(** ** What the console shows of the buffers *)

(** The text an event shows under a label such as [CLI OUTPUT:]. *)
Definition shown (label : string) (e : event) : string :=
  match e with
  | Printed text =>
      if String.prefix label text then Py.drop (String.length label) text else ""
  | _ => ""
  end.

Definition shown_all (label : string) (evs : list event) : string :=
  Py.join (map (shown label) evs).

(** The console grew, and each buffer grew by what the console shows under
    its label. *)
Definition echoing (m m' : machine) : Prop :=
  exists evs,
    console m' = (console m ++ evs)%list
    /\ output (locals m') = output (locals m) ++ shown_all "CLI OUTPUT:" evs
    /\ stderr_output (locals m') = stderr_output (locals m) ++ shown_all "CLI ERROR:" evs.

(** [d.get(key)] on the pairs of a dict. *)
Definition dict_get {V : Type} (key : string) (d : list (string * V)) : option V :=
  option_map snd (find (fun kv => (fst kv =? key)%string) d).

(** The same tick at another time. *)
Definition at_time (ms : Z) (t : tick) : tick :=
  {| reads_out := reads_out t; reads_err := reads_err t; elapsed_ms := ms;
     polled_exit := polled_exit t; sleep_out := sleep_out t; sleep_err := sleep_err t;
     ctrl_c := ctrl_c t |}.

(** The same script with other ticks. *)
Definition with_ticks (ts : list tick) (env : script) : script :=
  {| answer := answer env; popen_error := popen_error env; pid := pid env; ticks := ts;
     pid_ok := pid_ok env |}.

(** The child is found gone long after the timeout has passed. *)
Definition late_exit : script :=
  {| answer := ""; popen_error := None; pid := 4247;
     ticks :=
       [ {| reads_out := ["done" ++ Py.nl; ""]; reads_err := [""]; elapsed_ms := 1500;
            polled_exit := false; sleep_out := []; sleep_err := []; ctrl_c := None |};
         {| reads_out := []; reads_err := []; elapsed_ms := 99999;
            polled_exit := true; sleep_out := []; sleep_err := []; ctrl_c := None |} ];
     pid_ok := eq_refl |}.

(** Constants with a cap of four characters. *)
Definition tight_constants : code_execution :=
  {| MAX_COMMAND_DEBUG_TRIES := 2;
     MIN_COMMAND_RUN_TIME := 2000;
     MAX_COMMAND_RUN_TIME := 30000;
     MAX_COMMAND_OUTPUT_LENGTH := 4 |}.

(** A project that reuses its history and has none yet. *)
Definition reusing : machine :=
  with_project
    (fun p => {| app_id := app_id p; root_path := root_path p; skip_steps := true;
                 command_runs_count := command_runs_count p;
                 checkpoints := checkpoints p |})
    (boot "Linux").

(** ** build_directory_tree

    The directory tree under a path stands for what [os.path.isdir],
    [os.listdir] and [os.path.join] answer: a path is the entry it leads
    to, [os.path.basename] its name, and [items] are the entries of a
    directory in the order [os.listdir] gives them.  [files] is the dict
    from names to objects with a [description], as the pairs of names and
    descriptions; [None] and the empty dict are both the empty list, and
    so is [ignore=None]. *)

Unset Elimination Schemes.

Inductive entry : Type :=
| File (name : string)
| Dir (name : string) (items : list entry).

Set Elimination Schemes.

Definition basename (path : entry) : string :=
  match path with File name | Dir name _ => name end.

(** [name in names] for a list of texts *)
Definition name_in (name : string) (names : list string) : bool :=
  existsb (String.eqb name) names.

(** The conditional expression of lines 229-235 and 249-255. *)
Definition describe (files : list (string * string)) (name : string)
    (add_descriptions : bool) : string :=
  match files with
  | [] => ""
  | _ :: _ =>
      match dict_get name files with
      | Some description =>
          if add_descriptions then " - " ++ description ++ " " else ""
      | None => ""
      end
  end.

Definition is_nil {A : Type} (l : list A) : bool :=
  match l with [] => true | _ :: _ => false end.

(** The loop of lines 241-243: [render item last] is the recursive call,
    [last] being [index == len(items) - 1]. *)
Fixpoint render_items (render : entry -> bool -> string) (items : list entry)
    (output : string) : string :=
  match items with
  | [] => output
  | item :: rest => render_items render rest (output ++ render item (is_nil rest))
  end.

(** [build_directory_tree], lines 204-259. *)
Fixpoint build_directory_tree (path : entry) (prefix : string) (ignore : list string)
    (is_last : bool) (files : list (string * string)) (add_descriptions : bool)
    : string :=
  if name_in (basename path) ignore then ""
  else
    let output := "" in
    let indent := if negb is_last then "|   " else "    " in
    match path with
    | Dir name items =>
        let output :=
          output ++ (prefix ++ "|-- " ++ name
                     ++ describe files name add_descriptions ++ "/" ++ Py.nl) in
        render_items
          (fun item last =>
             build_directory_tree item (prefix ++ indent) ignore last files add_descriptions)
          items output
    | File name =>
        output ++ (prefix ++ "|-- " ++ name
                   ++ describe files name add_descriptions ++ Py.nl)
    end.

(** The newlines of a text. *)
Fixpoint newlines (s : string) : nat :=
  match s with
  | EmptyString => 0
  | String c s' => ((if Ascii.eqb c (ascii_of_nat 10) then 1 else 0) + newlines s')%nat
  end.

(** The names under an entry, its own first. *)
Fixpoint names (e : entry) : list string :=
  basename e ::
  match e with
  | File _ => []
  | Dir _ items => flat_map names items
  end.

(** The entries that are drawn: those not ignored, under directories that
    are drawn. *)
Fixpoint drawn (ignore : list string) (e : entry) : nat :=
  if name_in (basename e) ignore then O
  else match e with
       | File _ => 1%nat
       | Dir _ items => S (list_sum (map (drawn ignore) items))
       end.

(** The items that are not ignored, each changed by [f]. *)
Fixpoint keep_shown (ignore : list string) (f : entry -> entry) (items : list entry)
    : list entry :=
  match items with
  | [] => []
  | item :: rest =>
      if name_in (basename item) ignore then keep_shown ignore f rest
      else f item :: keep_shown ignore f rest
  end.

(** The tree without its ignored entries. *)
Fixpoint prune (ignore : list string) (e : entry) : entry :=
  match e with
  | File name => File name
  | Dir name items => Dir name (keep_shown ignore (prune ignore) items)
  end.

(** No ignored item is the last of its list, and [f] holds of the others. *)
Fixpoint all_ended (ignore : list string) (f : entry -> bool) (items : list entry)
    : bool :=
  match items with
  | [] => true
  | item :: rest =>
      (if name_in (basename item) ignore then negb (is_nil rest) else f item)
      && all_ended ignore f rest
  end.

(** No directory that is drawn lists an ignored entry last. *)
Fixpoint ends_shown (ignore : list string) (e : entry) : bool :=
  match e with
  | File _ => true
  | Dir _ items => all_ended ignore (ends_shown ignore) items
  end.

(** A directory whose last entry is ignored, after a directory that is
    not. *)
Definition ignored_last : entry :=
  Dir "app" [ Dir "src" [ File "main.py" ]; File ".DS_Store" ].

(** A project with a [.git] directory listed last. *)
Definition sample_tree : entry :=
  Dir "app" [ Dir "src" [ File "main.py"; File "util.py" ];
              File "README.md";
              Dir ".git" [ File "HEAD" ] ].


(** ** The conversation

    [AgentConvo], the developer agent, the human and [uuid] are
    collaborators outside cli.py.  What they keep for themselves (the
    messages of the conversation, its branches, the developer's work) is
    a store of a type [C] that cli.py never looks into.  A call of a
    collaborator is any step on that store and on the machine: it may
    return, raise, or not finish, and it may run commands of its own. *)

(** The values cli.py passes to and receives from the conversation. *)
Inductive pyval : Type :=
| VNone
| VStr (s : string)
| VObj (id : nat).

Definition opt_str (o : option string) : pyval :=
  match o with Some s => VStr s | None => VNone end.

(** [v == s] for a string literal [s] *)
Definition is_str (v : pyval) (s : string) : bool :=
  match v with
  | VStr t => (t =? s)%string
  | _ => false
  end.

(** The dict [{'command': command, 'timeout': timeout}] of line 298. *)
Record command_dict : Type := {
  dict_command : string;
  dict_timeout : option Z
}.

(** The function-call schemas of const.function_calls that cli.py uses. *)
Inductive function_calls : Type :=
| DEBUG_STEPS_BREAKDOWN.

(** A call of a collaborator that gives an [A]. *)
Definition Step (C A : Type) : Type := C -> machine -> res A * (C * machine).

(** The collaborators cli.py calls: [uuid.uuid4] (as a string),
    [convo.save_branch], [convo.load_branch], [convo.send_message],
    [convo.agent.project.developer.execute_task] (with [convo] and the two
    [False] flags left out; its result is the [bool] that the docstring
    of [debug] says it returns) and
    [convo.agent.project.ask_for_human_intervention]. *)
Record crew (C : Type) : Type := {
  uuid4 : Step C string;
  save_branch : string -> Step C unit;
  load_branch : string -> Step C unit;
  send_message : string -> list (string * pyval) -> option function_calls -> Step C pyval;
  execute_task : pyval -> option command_dict -> Step C bool;
  ask_for_human_intervention : string -> option command_dict -> Step C pyval
}.

Arguments uuid4 {C} _.
Arguments save_branch {C} _ _.
Arguments load_branch {C} _ _.
Arguments send_message {C} _ _ _ _.
Arguments execute_task {C} _ _ _.
Arguments ask_for_human_intervention {C} _ _ _.

(** The calls of the collaborators that returned, with what they
    returned. *)
Inductive said : Type :=
| BranchSaved (id : string)
| BranchLoaded (id : string)
| MessageSent (prompt : string) (data : list (string * pyval))
    (schema : option function_calls) (reply : pyval)
| TaskExecuted (plan : pyval) (command : option command_dict) (success : bool)
| HumanAsked (message : string) (command : option command_dict) (reply : pyval).

Record session (C : Type) : Type := {
  world : machine;
  backstage : C;
  transcript : list said
}.

Arguments world {C} _.
Arguments backstage {C} _.
Arguments transcript {C} _.

Definition Talk (C A : Type) : Type := session C -> res A * session C.

Definition tret {C A : Type} (a : A) : Talk C A := fun s => (Ok a, s).

Definition tbind {C A B : Type} (c : Talk C A) (k : A -> Talk C B) : Talk C B :=
  fun s =>
    match c s with
    | (Ok a, s') => k a s'
    | (Raise e, s') => (Raise e, s')
    | (Hang, s') => (Hang, s')
    end.

Declare Scope talk_scope.
Delimit Scope talk_scope with talk.

Notation "x <- c ;; k" := (tbind c (fun x => k))
  (at level 61, c at next level, right associativity) : talk_scope.
Notation "c ;; k" := (tbind c (fun _ => k))
  (at level 61, right associativity) : talk_scope.

(** A statement of cli.py itself, run on the machine of the session. *)
Definition lift {C A : Type} (c : Exec A) : Talk C A :=
  fun s =>
    let (r, m') := c (world s) in
    (r, {| world := m'; backstage := backstage s; transcript := transcript s |}).

(** A call of a collaborator; it enters the transcript when it returns. *)
Definition call {C A : Type} (step : Step C A) (record : A -> list said) : Talk C A :=
  fun s =>
    let '(r, (c', m')) := step (backstage s) (world s) in
    (r, {| world := m'; backstage := c';
           transcript := match r with
                         | Ok a => (transcript s ++ record a)%list
                         | _ => transcript s
                         end |}).

Definition is_message (e : said) : bool :=
  match e with MessageSent _ _ _ _ => true | _ => false end.

Definition is_task (e : said) : bool :=
  match e with TaskExecuted _ _ _ => true | _ => false end.

Definition is_ask (e : said) : bool :=
  match e with HumanAsked _ _ _ => true | _ => false end.

Definition count_said (p : said -> bool) (l : list said) : nat :=
  List.length (filter p l).

(** [{issue_description}] in an f-string *)
Definition show_opt (o : option string) : string :=
  match o with Some s => s | None => "None" end.

(** The dict of line 326. *)
Definition debug_data (command : option command_dict)
    (user_input issue_description : option string) : list (string * pyval) :=
  [ ("command", match command with
                | Some d => VStr (dict_command d)
                | None => VNone
                end);
    ("user_input", opt_str user_input);
    ("issue_description", opt_str issue_description) ].

(** The [for _ in range(MAX_COMMAND_DEBUG_TRIES)] loop of lines 319-335,
    with [tries] iterations left. *)
Fixpoint debug_tries {C : Type} (tries : nat) (c : crew C) (function_uuid : string)
    (command : option command_dict) (user_input issue_description : option string)
    (success : bool) : Talk C bool :=
  match tries with
  | O => tret success
  | S tries' =>
      if success then tret success
      else
        (call (load_branch c function_uuid) (fun _ => [BranchLoaded function_uuid]) ;;
         debugging_plan <-
           (let data := debug_data command user_input issue_description in
            call (send_message c "dev_ops/debug.prompt" data (Some DEBUG_STEPS_BREAKDOWN))
              (fun reply =>
                 [MessageSent "dev_ops/debug.prompt" data (Some DEBUG_STEPS_BREAKDOWN)
                    reply])) ;;
         success <-
           call (execute_task c debugging_plan command)
             (fun success => [TaskExecuted debugging_plan command success]) ;;
         debug_tries tries' c function_uuid command user_input issue_description
           success)%talk
  end.

(** The message of line 342 to the human. *)
Definition plea (user_input issue_description : option string) : string :=
  match user_input with
  | None =>
      "It seems like I cannot debug this problem by myself. Can you please help me and try debugging it yourself?"
  | Some _ =>
      "Can you check this again:" ++ Py.nl ++ show_opt issue_description ++ "?"
  end.

(** [debug(convo, command, user_input, issue_description)], lines
    302-349. *)
Definition debug `{code_execution} {C : Type} (c : crew C)
    (command : option command_dict) (user_input issue_description : option string)
    : Talk C bool :=
  (function_uuid <- call (uuid4 c) (fun _ => []) ;;
   call (save_branch c function_uuid) (fun _ => [BranchSaved function_uuid]) ;;
   success <- debug_tries (Z.to_nat MAX_COMMAND_DEBUG_TRIES) c function_uuid command
                user_input issue_description false ;;
   if negb success then
     user_input' <-
       (let message := plea user_input issue_description in
        call (ask_for_human_intervention c message command)
          (fun reply => [HumanAsked message command reply])) ;;
     if is_str user_input' "continue" then tret true else tret success
   else tret success)%talk.

(** The dict of line 275, and the one of line 291 with an additional
    message. *)
Definition ran_command_data (cli_response command : string)
    (additional_message : option (option string)) : list (string * pyval) :=
  ([ ("cli_response", VStr cli_response); ("command", VStr command) ]
   ++ match additional_message with
      | Some a => [ ("additional_message", opt_str a) ]
      | None => []
      end)%list.

(** [execute_command_and_check_cli_response(command, timeout, convo)],
    lines 261-276. *)
Definition execute_command_and_check_cli_response `{code_execution} {C : Type}
    (c : crew C) (env : script) (command : string) (timeout : option Z)
    : Talk C (string * pyval) :=
  (cli_response <- lift (execute_command env command timeout false) ;;
   response <-
     (let data := ran_command_data cli_response command None in
      call (send_message c "dev_ops/ran_command.prompt" data None)
        (fun reply => [MessageSent "dev_ops/ran_command.prompt" data None reply])) ;;
   tret (cli_response, response))%talk.

(** [run_command_until_success(command, timeout, convo,
    additional_message, force)], lines 278-298. *)
Definition run_command_until_success `{code_execution} {C : Type} (c : crew C)
    (env : script) (command : string) (timeout : option Z)
    (additional_message : option string) (force : bool) : Talk C unit :=
  (cli_response <- lift (execute_command env command timeout force) ;;
   response <-
     (let data := ran_command_data cli_response command (Some additional_message) in
      call (send_message c "dev_ops/ran_command.prompt" data None)
        (fun reply => [MessageSent "dev_ops/ran_command.prompt" data None reply])) ;;
   if negb (is_str response "DONE") then
     lift (print (colored "Got incorrect CLI response:")) ;;
     lift (print cli_response) ;;
     lift (print (colored "-------------------")) ;;
     debug c (Some {| dict_command := command; dict_timeout := timeout |}) None None ;;
     tret tt
   else tret tt)%talk.

(** ** Reading a transcript *)

(** One round of the loop of [debug] that ran to its end. *)
Definition round (function_uuid : string) (command : option command_dict)
    (user_input issue_description : option string) (plan : pyval) (success : bool)
    : list said :=
  [ BranchLoaded function_uuid;
    MessageSent "dev_ops/debug.prompt" (debug_data command user_input issue_description)
      (Some DEBUG_STEPS_BREAKDOWN) plan;
    TaskExecuted plan command success ].

(** Rounds that failed, one for each plan of [lost], then at most one
    that succeeded. *)
Definition rounds (function_uuid : string) (command : option command_dict)
    (user_input issue_description : option string) (lost : list pyval)
    (won : option pyval) : list said :=
  (flat_map (fun plan => round function_uuid command user_input issue_description plan false)
     lost
   ++ match won with
      | Some plan => round function_uuid command user_input issue_description plan true
      | None => []
      end)%list.

Definition succeeded (won : option pyval) : bool :=
  match won with Some _ => true | None => false end.

Definition tried (lost : list pyval) (won : option pyval) : nat :=
  (List.length lost + match won with Some _ => 1 | None => 0 end)%nat.

(** A round that a collaborator cut short by raising or by not
    returning. *)
Definition cut_short (function_uuid : string) (command : option command_dict)
    (user_input issue_description : option string) (rest : list said) : Prop :=
  rest = []
  \/ rest = [BranchLoaded function_uuid]
  \/ exists plan,
       rest = [ BranchLoaded function_uuid;
                MessageSent "dev_ops/debug.prompt"
                  (debug_data command user_input issue_description)
                  (Some DEBUG_STEPS_BREAKDOWN) plan ].

Definition opening {C : Type} (k : C) (m : machine) : session C :=
  {| world := m; backstage := k; transcript := [] |}.

(** ** Sample crews

    Their store is the number of tasks run so far. *)

(** A crew whose [n]-th task is the first to succeed, and whose human
    types [typed]. *)
Definition patient (n : nat) (first_reply typed : string) : crew nat :=
  {| uuid4 := fun k m => (Ok "0f8fad5b", (k, m));
     save_branch := fun _ k m => (Ok tt, (k, m));
     load_branch := fun _ k m => (Ok tt, (k, m));
     send_message := fun prompt _ _ k m =>
       (Ok (VStr (if (prompt =? "dev_ops/ran_command.prompt")%string
                  then first_reply else "plan " ++ Py.str (Z.of_nat k))), (k, m));
     execute_task := fun _ _ k m => (Ok (Nat.eqb (S k) n), (S k, m));
     ask_for_human_intervention := fun _ _ k m => (Ok (VStr typed), (k, m)) |}.

(** A crew whose developer raises on the second task. *)
Definition brittle : crew nat :=
  {| uuid4 := fun k m => (Ok "7c9e6679", (k, m));
     save_branch := fun _ k m => (Ok tt, (k, m));
     load_branch := fun _ k m => (Ok tt, (k, m));
     send_message := fun _ _ _ k m => (Ok (VObj k), (k, m));
     execute_task := fun _ _ k m =>
       (match k with 1%nat => Raise KeyboardInterrupt | _ => Ok false end, (S k, m));
     ask_for_human_intervention := fun _ _ k m => (Ok VNone, (k, m)) |}.

(** * Properties *)

(** ** Text *)

Lemma append_empty_r (s : string) : s ++ "" = s.
Proof. induction s as [|c s IH]; simpl; [reflexivity | now rewrite IH]. Qed.

Lemma append_assoc (a b c : string) : (a ++ b) ++ c = a ++ b ++ c.
Proof. induction a as [|x a IH]; simpl; [reflexivity | now rewrite IH]. Qed.

Lemma len_append (a b : string) : Py.len (a ++ b) = Py.len a + Py.len b.
Proof.
  unfold Py.len. induction a as [|x a IH]; simpl String.length.
  - reflexivity.
  - rewrite !Nat2Z.inj_succ. lia.
Qed.

Lemma len_nonneg (s : string) : 0 <= Py.len s.
Proof. unfold Py.len. lia. Qed.

(** [drop n s] is what is left of [s] once a head of [min n (len s)]
    characters is cut off. *)
Lemma drop_split (n : nat) (s : string) :
  exists head, s = head ++ Py.drop n s
               /\ String.length head = Nat.min n (String.length s).
Proof.
  revert s. induction n as [|n IH]; intros s.
  - exists "". split; reflexivity.
  - destruct s as [|c s].
    + exists "". split; reflexivity.
    + destruct (IH s) as (head & Hs & Hl).
      exists (String c head). simpl. split.
      * now rewrite <- Hs.
      * now rewrite Hl.
Qed.

(** The slice [s[-n:]] for a positive [n] is the tail of [s] of
    [min (len s) n] characters. *)
Lemma tail_slice (n : Z) (s : string) :
  0 < n ->
  exists head, s = head ++ Py.slice_from (- n) s
               /\ Py.len (Py.slice_from (- n) s) = Z.min (Py.len s) n.
Proof.
  intros Hn. unfold Py.slice_from.
  assert (E : (- n <? 0) = true) by (apply Z.ltb_lt; lia).
  rewrite E.
  destruct (drop_split (Z.to_nat (Z.max (Py.len s + - n) 0)) s) as (head & Hs & Hl).
  exists head. split; [exact Hs|].
  assert (L : Py.len s = Py.len head + Py.len (Py.drop (Z.to_nat (Z.max (Py.len s + - n) 0)) s)).
  { rewrite <- len_append, <- Hs. reflexivity. }
  assert (Lh : Py.len head = Z.min (Z.max (Py.len s + - n) 0) (Py.len s)).
  { unfold Py.len at 1. rewrite Hl. unfold Py.len. lia. }
  pose proof (len_nonneg s). lia.
Qed.

(** A text no longer than the cap is kept whole. *)
Lemma tail_slice_short (n : Z) (s : string) :
  0 < n -> Py.len s <= n -> Py.slice_from (- n) s = s.
Proof.
  intros Hn Hs. unfold Py.slice_from.
  assert (E : (- n <? 0) = true) by (apply Z.ltb_lt; lia).
  rewrite E.
  replace (Z.to_nat (Z.max (Py.len s + - n) 0)) with O by lia.
  reflexivity.
Qed.

(** [s[-0:]] is [s[0:]], the whole text however long. *)
Lemma slice_minus_zero (s : string) : Py.slice_from (- 0) s = s.
Proof.
  unfold Py.slice_from. change (- 0 <? 0) with false. cbv iota.
  pose proof (len_nonneg s).
  replace (Z.to_nat (Z.min (- 0) (Py.len s))) with O by lia.
  reflexivity.
Qed.

Lemma join_app (a b : list string) :
  Py.join (a ++ b) = Py.join a ++ Py.join b.
Proof.
  induction a as [|x a IH]; simpl; [reflexivity|].
  now rewrite IH, append_assoc.
Qed.

(** [str] can be read back. *)
Lemma parse_str (n : Z) : parse_int (Py.str n) = Some n.
Proof.
  unfold parse_int, Py.str.
  rewrite NilZero.isi.
  - simpl. now rewrite DecimalZ.of_to.
  - destruct n as [|p|p]; simpl; try discriminate;
      intros E; injection E as E; now apply DecimalPos.Unsigned.to_uint_nonnil in E.
  - destruct n as [|p|p]; simpl; try discriminate;
      intros E; injection E as E; now apply DecimalPos.Unsigned.to_uint_nonnil in E.
Qed.

(** ** The monad *)

Lemma bind_ok {A B : Type} (c : Exec A) (k : A -> Exec B) (m m' : machine) (a : A) :
  c m = (Ok a, m') -> bind c k m = k a m'.
Proof. intros E. unfold bind. now rewrite E. Qed.

Lemma bind_raise {A B : Type} (c : Exec A) (k : A -> Exec B) (m m' : machine) (e : exn) :
  c m = (Raise e, m') -> bind c k m = (Raise e, m').
Proof. intros E. unfold bind. now rewrite E. Qed.

Section Keeping.

Variable R : machine -> machine -> Prop.
Hypothesis R_refl : forall m, R m m.
Hypothesis R_trans : forall a b c, R a b -> R b c -> R a c.

Lemma keeps_ret {A : Type} (a : A) : keeps R (ret a).
Proof. intros m. apply R_refl. Qed.

Lemma keeps_raise {A : Type} (e : exn) : keeps R (@raise A e).
Proof. intros m. apply R_refl. Qed.

Lemma keeps_hang {A : Type} : keeps R (@hang A).
Proof. intros m. apply R_refl. Qed.

Lemma keeps_gets {A : Type} (f : machine -> A) : keeps R (gets f).
Proof. intros m. apply R_refl. Qed.

Lemma keeps_bind {A B : Type} (c : Exec A) (k : A -> Exec B) :
  keeps R c -> (forall a, keeps R (k a)) -> keeps R (bind c k).
Proof.
  intros Hc Hk m. unfold bind. specialize (Hc m).
  destruct (c m) as [[a|e|] m1]; simpl in *; try assumption.
  eapply R_trans; [exact Hc | apply Hk].
Qed.

Lemma keeps_try_except {A : Type} (c : Exec A) (classes : exn -> bool)
    (handler : exn -> Exec A) :
  keeps R c -> (forall e, keeps R (handler e)) ->
  keeps R (try_except c classes handler).
Proof.
  intros Hc Hh m. unfold try_except. specialize (Hc m).
  destruct (c m) as [[a|e|] m1]; simpl in *; try assumption.
  destruct (classes e); simpl; [|assumption].
  eapply R_trans; [exact Hc | apply Hh].
Qed.

End Keeping.

Lemma console_grows_refl (P : event -> Prop) (m : machine) : console_grows P m m.
Proof. exists []. split; [now rewrite app_nil_r | constructor]. Qed.

Lemma console_grows_same (P : event -> Prop) (m m' : machine) :
  console m' = console m -> console_grows P m m'.
Proof. intros E. exists []. split; [now rewrite app_nil_r | constructor]. Qed.

Lemma console_grows_trans (P : event -> Prop) (a b c : machine) :
  console_grows P a b -> console_grows P b c -> console_grows P a c.
Proof.
  intros (e1 & H1 & F1) (e2 & H2 & F2). exists (e1 ++ e2)%list. split.
  - now rewrite H2, H1, app_assoc.
  - apply Forall_app. now split.
Qed.

Lemma supervising_refl (m : machine) : supervising m m.
Proof.
  unfold supervising. repeat apply conj; try reflexivity.
  - apply incl_refl.
  - apply console_grows_refl.
Qed.

Lemma supervising_trans (a b c : machine) :
  supervising a b -> supervising b c -> supervising a c.
Proof.
  unfold supervising.
  intros (A1 & A2 & A3 & A4 & A5 & A6 & A7 & A8 & A9)
         (B1 & B2 & B3 & B4 & B5 & B6 & B7 & B8 & B9).
  repeat apply conj; try congruence.
  - eapply incl_tran; eassumption.
  - eapply console_grows_trans; eassumption.
Qed.

(** ** What the control loop leaves alone *)

Lemma console_grows_one (P : event -> Prop) (e : event) (m : machine) :
  P e -> console_grows P m (with_console (fun c => (c ++ [e])%list) m).
Proof. intros H. exists [e]. split; [reflexivity | now constructor]. Qed.

Ltac supervising_here :=
  unfold supervising; simpl; repeat apply conj;
  try reflexivity; try apply incl_refl;
  try (apply console_grows_same; reflexivity).

Create HintDb supervise.

Lemma sup_locals (f : frame -> frame) :
  (forall l, pid_container (f l) = pid_container l) ->
  (forall l, local_interrupted (f l) = local_interrupted l) ->
  keeps supervising (modify (with_locals f)).
Proof. intros H1 H2 m. supervising_here; [apply H1 | apply H2]. Qed.

Lemma sup_log (e : event) : quiet e -> keeps supervising (log e).
Proof.
  intros H m. unfold log, modify. supervising_here.
  now apply console_grows_one.
Qed.

Lemma sup_print_end (text end_ : string) : keeps supervising (print_end text end_).
Proof. apply sup_log. exact I. Qed.

Lemma sup_put (s : stream) (line : string) : keeps supervising (put s line).
Proof. apply sup_locals; intros l; destruct s; reflexivity. Qed.

Lemma sup_close (s : stream) : keeps supervising (close s).
Proof. apply sup_locals; intros l; destruct s; reflexivity. Qed.

Lemma sup_get_nowait (s : stream) : keeps supervising (get_nowait s).
Proof.
  intros m. unfold get_nowait.
  destruct (queue_of s (locals m)); simpl.
  - apply supervising_refl.
  - destruct s; supervising_here.
Qed.

Lemma sup_interrupt_point (t : tick) (p : point) : keeps supervising (interrupt_point t p).
Proof.
  intros m. unfold interrupt_point.
  destruct (ctrl_c t) as [p'|]; [destruct (point_eqb p p')|]; apply supervising_refl.
Qed.

Lemma sup_process_poll (t : tick) (process : Z) : keeps supervising (process_poll t process).
Proof.
  intros m. unfold process_poll.
  destruct (polled_exit t); [|apply supervising_refl].
  supervising_here.
  intros x Hx. now apply in_remove in Hx.
Qed.

#[local] Hint Resolve supervising_refl supervising_trans : supervise.
#[local] Hint Resolve sup_print_end sup_put sup_close sup_get_nowait
  sup_interrupt_point sup_process_poll : supervise.

Ltac keeps_supervising :=
  repeat first
    [ solve [auto with supervise]
    | apply keeps_bind; [exact supervising_trans | | intros ?]
    | apply keeps_try_except; [exact supervising_trans | | intros ?]
    | apply keeps_ret; exact supervising_refl
    | apply keeps_raise; exact supervising_refl
    | apply keeps_hang; exact supervising_refl
    | apply keeps_gets; exact supervising_refl
    | apply sup_log; exact I
    | apply sup_locals; intros ?; reflexivity ].

Lemma sup_enqueue_output (out : stream) (reads : list string) :
  keeps supervising (enqueue_output out reads).
Proof.
  induction reads as [|line reads IH]; simpl.
  - keeps_supervising.
  - destruct (line =? "")%string; keeps_supervising.
    match goal with |- keeps _ (if ?b then _ else _) => destruct b end;
      keeps_supervising.
Qed.

Lemma sup_reader_thread (out : stream) (reads : list string) :
  keeps supervising (reader_thread out reads).
Proof.
  unfold reader_thread, is_open. keeps_supervising.
  match goal with |- keeps _ (if ?b then _ else _) => destruct b end;
    keeps_supervising. apply sup_enqueue_output.
Qed.

Lemma sup_poll_queue (s : stream) : keeps supervising (poll_queue s).
Proof. unfold poll_queue. keeps_supervising. Qed.

Lemma sup_drain_remaining (fuel : nat) : keeps supervising (drain_remaining fuel).
Proof.
  induction fuel as [|fuel IH]; simpl.
  - keeps_supervising.
  - unfold empty. keeps_supervising.
    match goal with |- keeps _ (if ?b then _ else _) => destruct b end;
      keeps_supervising.
    + match goal with |- keeps _ (if ?b then _ else _) => destruct b end;
        keeps_supervising.
Qed.

#[local] Hint Resolve sup_reader_thread sup_poll_queue sup_drain_remaining : supervise.

Lemma sup_loop_body (process : Z) (timeout : option Z) (t : tick) :
  keeps supervising (loop_body process timeout t).
Proof.
  unfold loop_body. keeps_supervising.
  - destruct timeout; keeps_supervising.
  - match goal with |- keeps _ (if ?b then _ else _) => destruct b end;
      keeps_supervising.
    destruct (timed_out timeout t); keeps_supervising.
    + match goal with |- keeps _ (match ?x with _ => _ end) => destruct x end;
        keeps_supervising.
      match goal with |- keeps _ (if ?b then _ else _) => destruct b end;
        keeps_supervising.
    + match goal with |- keeps _ (match ?x with _ => _ end) => destruct x end;
        keeps_supervising.
      match goal with |- keeps _ (if ?b then _ else _) => destruct b end;
        keeps_supervising.
Qed.

Lemma sup_control_loop (process : Z) (timeout : option Z) (ts : list tick) :
  keeps supervising (control_loop process timeout ts).
Proof.
  induction ts as [|t ts IH]; cbn [control_loop].
  - keeps_supervising.
  - apply keeps_bind;
      [exact supervising_trans | apply sup_loop_body | intros [|]];
      keeps_supervising.
Qed.

(** ** How the control loop ends *)

Lemma returns_ret {A : Type} (a : A) : returns (ret a).
Proof. intros m. now exists a, m. Qed.

Lemma returns_gets {A : Type} (f : machine -> A) : returns (gets f).
Proof. intros m. now exists (f m), m. Qed.

Lemma returns_modify (f : machine -> machine) : returns (modify f).
Proof. intros m. now exists tt, (f m). Qed.

Lemma returns_bind {A B : Type} (c : Exec A) (k : A -> Exec B) :
  returns c -> (forall a, returns (k a)) -> returns (bind c k).
Proof.
  intros Hc Hk m. destruct (Hc m) as (a & m1 & E).
  rewrite (bind_ok _ _ _ _ _ E). apply Hk.
Qed.

Lemma returns_if {A : Type} (b : bool) (c d : Exec A) :
  returns c -> returns d -> returns (if b then c else d).
Proof. now destruct b. Qed.

Create HintDb returning.
#[local] Hint Resolve returns_ret returns_gets returns_modify returns_if : returning.

Lemma returns_log (e : event) : returns (log e).
Proof. apply returns_modify. Qed.

Lemma returns_print_end (text end_ : string) : returns (print_end text end_).
Proof. apply returns_modify. Qed.

Lemma returns_put (s : stream) (line : string) : returns (put s line).
Proof. apply returns_modify. Qed.

Lemma returns_close (s : stream) : returns (close s).
Proof. apply returns_modify. Qed.

#[local] Hint Resolve returns_log returns_print_end returns_put returns_close : returning.

Ltac returning :=
  repeat first
    [ solve [auto with returning]
    | apply returns_bind; [| intros ?]
    | apply returns_if
    | match goal with |- returns (match ?x with _ => _ end) => destruct x end ].

Lemma returns_enqueue_output (out : stream) (reads : list string) :
  returns (enqueue_output out reads).
Proof.
  induction reads as [|line reads IH]; simpl; returning.
Qed.

Lemma returns_reader_thread (out : stream) (reads : list string) :
  returns (reader_thread out reads).
Proof.
  unfold reader_thread, is_open. returning. apply returns_enqueue_output.
Qed.

Lemma returns_poll_queue (s : stream) : returns (poll_queue s).
Proof.
  intros m. unfold poll_queue, try_except, bind, get_nowait.
  destruct (queue_of s (locals m)) as [|line rest]; simpl;
    do 2 eexists; reflexivity.
Qed.

Lemma returns_drain_remaining (fuel : nat) : returns (drain_remaining fuel).
Proof.
  induction fuel as [|fuel IH]; simpl; [returning|].
  intros m. unfold bind at 1. unfold empty at 1, gets at 1.
  destruct (queue_of Stdout (locals m)) as [|line rest] eqn:E; [now exists tt, m|].
  unfold bind at 1, get_nowait at 1. rewrite E.
  revert m E. generalize (with_locals (set_queue Stdout rest)).
  intros f m _. generalize (f m). clear m. intros m.
  apply returns_bind; [returning | intros seen].
  apply returns_bind; [returning | intros _; exact IH].
Qed.

Lemma returns_process_poll (t : tick) (process : Z) (m : machine) :
  exists m', process_poll t process m = (Ok (polled_exit t), m').
Proof.
  unfold process_poll. destruct (polled_exit t); [|now exists m].
  eexists. reflexivity.
Qed.

#[local] Hint Resolve returns_reader_thread returns_poll_queue
  returns_drain_remaining : returning.

Ltac step :=
  match goal with
  | |- context [bind ?c ?k ?m] =>
      let H := fresh in
      assert (H : returns c) by returning;
      let a := fresh "a" in
      let m' := fresh "m" in
      let E := fresh "E" in
      destruct (H m) as (a & m' & E); rewrite (bind_ok c k m m' a E); clear H E
  end.

Ltac point_passes Ec :=
  match goal with
  | |- context [bind (interrupt_point ?t ?p) ?k ?m] =>
      rewrite (bind_ok (interrupt_point t p) k m m tt)
        by (unfold interrupt_point; rewrite Ec; reflexivity)
  end.

Ltac point_raises Ec :=
  match goal with
  | |- context [bind (interrupt_point ?t ?p) ?k ?m] =>
      rewrite (bind_raise (interrupt_point t p) k m m KeyboardInterrupt)
        by (unfold interrupt_point; rewrite Ec; reflexivity)
  end.

Ltac pass_poll_exit :=
  match goal with
  | |- context [bind (process_poll ?t ?p) ?k ?m] =>
      let m' := fresh "m" in
      let E := fresh "E" in
      destruct (returns_process_poll t p m) as (m' & E);
      rewrite (bind_ok _ k _ _ _ E); clear E
  end.

Lemma loop_body_result (process : Z) (timeout : option Z) (t : tick) (m : machine) :
  fst (loop_body process timeout t m) = body_result timeout t.
Proof.
  unfold loop_body, body_result.
  do 2 step.
  destruct (ctrl_c t) as [[| | | |]|] eqn:Ec;
    [ now point_raises Ec | | | | | ];
    point_passes Ec; step; pass_poll_exit;
    (destruct (polled_exit t);
     [ step; try (now point_raises Ec); point_passes Ec; repeat step; reflexivity
     | destruct (timed_out timeout t); [reflexivity|];
       step; try (now point_raises Ec); point_passes Ec;
       step; try (now point_raises Ec); point_passes Ec;
       step; try (now point_raises Ec); point_passes Ec;
       step; reflexivity ]).
Qed.

Lemma control_loop_result (process : Z) (timeout : option Z) (ts : list tick) (m : machine) :
  fst (control_loop process timeout ts m) = loop_result (loop_outcome timeout ts).
Proof.
  revert m. induction ts as [|t ts IH]; intros m; [reflexivity|].
  cbn [control_loop loop_outcome]. unfold bind.
  pose proof (loop_body_result process timeout t m) as Hb.
  assert (Hkind : forall e, body_result timeout t = Raise e ->
            e = KeyboardInterrupt
            \/ e = TimeoutError "Command exceeded the specified timeout.").
  { intros e. unfold body_result.
    destruct (ctrl_c t) as [[| | | |]|], (polled_exit t), (timed_out timeout t);
      intros E; try discriminate E; injection E as <-; auto. }
  destruct (loop_body process timeout t m) as [[[|]|e|] m1]; cbn [fst] in Hb;
    rewrite <- Hb.
  - apply IH.
  - reflexivity.
  - symmetry in Hb. destruct (Hkind e Hb) as [->| ->]; reflexivity.
  - reflexivity.
Qed.

(** ** Killing the process group *)

Lemma mem_remove (pid : Z) (l : list Z) : mem pid (remove Z.eq_dec pid l) = false.
Proof.
  unfold mem. destruct (existsb (Z.eqb pid) (remove Z.eq_dec pid l)) eqn:E; [|reflexivity].
  apply existsb_exists in E. destruct E as (x & Hin & Hx).
  apply Z.eqb_eq in Hx. subst x. now apply remove_In in Hin.
Qed.


Lemma kill_group_dead (pid : Z) (m : machine) :
  mem pid (process_groups (os (kill_group pid m))) = false.
Proof.
  unfold kill_group. destruct (mem pid (process_groups (os m))) eqn:E; simpl.
  - apply mem_remove.
  - exact E.
Qed.


Lemma child_pid_cases (pid : Z) :
  child_pid pid = true ->
  fits_pid_t pid = true /\ (pid <? 0) = false /\ (pid =? 0) = false /\ (pid =? 1) = false.
Proof.
  unfold child_pid, fits_pid_t. intros H. apply andb_prop in H. destruct H as (H1 & H2).
  apply Z.ltb_lt in H1, H2. repeat split.
  - apply andb_true_intro. split; [apply Z.leb_le | apply Z.ltb_lt]; lia.
  - apply Z.ltb_ge. lia.
  - apply Z.eqb_neq. lia.
  - apply Z.eqb_neq. lia.
Qed.

(** For the pid of a child, and on the [taskkill] branch for any integer,
    [terminate_process] returns, and what it leaves is the machine without
    the group. *)
Lemma terminate_process_eq (pid : Z) (m : machine) :
  child_pid pid = true \/ platform_system (os m) = "Windows" ->
  terminate_process pid m = (Ok tt, kill_group pid m).
Proof.
  intros Hpid. unfold terminate_process, kill_group, bind at 1, gets.
  destruct (platform_system (os m) =? "Windows")%string eqn:Ew.
  - unfold try_except, bind, subprocess_run, bind, run_program.
    rewrite parse_str.
    destruct (mem pid (process_groups (os m))); reflexivity.
  - destruct Hpid as [Hpid|Hw]; [|rewrite Hw in Ew; discriminate Ew].
    destruct (child_pid_cases pid Hpid) as (H1 & H2 & H3 & H4).
    unfold try_except, os_killpg. rewrite H1, H2, H3, H4. cbn [negb].
    destruct (mem pid (process_groups (os m))); [reflexivity|].
    destruct (mem pid (foreign_groups (os m))); reflexivity.
Qed.

(** ** The call, step by step *)

Lemma supervise_spawn_fails `{code_execution} (env : script) (command : string)
    (timeout : option Z) (m : machine) (e : exn) :
  popen_error env = Some e ->
  supervise env command timeout m = (Raise e, with_locals (fun _ => fresh_frame) m).
Proof.
  intros E.
  unfold supervise, run_command, subprocess_Popen.
  rewrite E. unfold bind, modify, gets, raise. cbv beta iota.
  destruct (platform_system _ =? "Windows")%string; reflexivity.
Qed.

Lemma supervise_eq `{code_execution} (env : script) (command : string)
    (timeout : option Z) (m : machine) :
  popen_error env = None ->
  supervise env command timeout m =
  finish command
    (try_except (control_loop (pid env) timeout (ticks env))
       catches_interrupt on_interrupt (started env command m)).
Proof.
  intros E.
  unfold supervise, run_command, subprocess_Popen, log.
  rewrite E. unfold bind, modify, gets, ret. cbv beta iota.
  assert (Same : forall (b : bool) (x : Exec Z), (if b then x else x) = x)
    by (intros []; reflexivity).
  rewrite Same. cbv beta iota.
  match goal with
  | |- context [try_except ?c ?cl ?h ?m0] =>
      change m0 with (started env command m)
  end.
  destruct (try_except (control_loop (pid env) timeout (ticks env))
              catches_interrupt on_interrupt (started env command m))
    as [[[]|e|] m1]; reflexivity.
Qed.

Lemma on_interrupt_eq (e : exn) (process : Z) (m : machine) :
  child_pid process = true ->
  pid_container (locals m) = Some process ->
  on_interrupt e m = (Ok tt, stopped (is_KeyboardInterrupt e) process m).
Proof.
  intros Hpid E. unfold on_interrupt, stopped, print, print_end, log.
  unfold bind at 1, modify at 1. cbv beta iota.
  destruct (is_KeyboardInterrupt e);
    unfold bind at 1, modify at 1; cbv beta iota;
    unfold bind at 1, gets at 1; cbv beta iota;
    cbn [pid_container locals with_console with_locals set_local_interrupted];
    rewrite E; apply terminate_process_eq; now left.
Qed.

Lemma handled_loop (process : Z) (timeout : option Z) (ts : list tick) (m : machine) :
  child_pid process = true ->
  pid_container (locals m) = Some process ->
  try_except (control_loop process timeout ts) catches_interrupt on_interrupt m =
  handled (loop_outcome timeout ts) process (snd (control_loop process timeout ts m)).
Proof.
  intros Hpid E.
  pose proof (control_loop_result process timeout ts m) as Hr.
  pose proof (sup_control_loop process timeout ts m) as Hs.
  unfold try_except.
  destruct (control_loop process timeout ts m) as [r m1]. simpl in Hr, Hs |- *.
  assert (E1 : pid_container (locals m1) = Some process).
  { destruct Hs as (_ & _ & _ & _ & _ & _ & Hp & _). now rewrite Hp. }
  subst r. destruct (loop_outcome timeout ts); simpl; try reflexivity.
  - now rewrite (on_interrupt_eq _ process m1 Hpid E1).
  - now rewrite (on_interrupt_eq _ process m1 Hpid E1).
Qed.

Lemma execute_command_eq `{code_execution} (env : script) (command : string)
    (timeout : option Z) (force : bool) (m : machine) :
  execute_command env command timeout force m =
  match replays command m with
  | Some found =>
      (Ok (cli_response found), restored found (entered force command timeout m))
  | None =>
      supervise env (shell_command command) (clamp_timeout timeout)
        (entered force command timeout m)
  end.
Proof.
  unfold execute_command, replays, entered, restored, asked,
    get_command_run_from_hash_id, styled_text, print, print_end, log.
  destruct force; cbn [negb];
    unfold bind, modify, gets, ret; cbv beta iota;
    cbn [project command_runs with_project with_console app_id skip_steps
         set_command_runs_count];
    destruct (find _ (command_runs m)) as [found|];
    destruct (skip_steps (project m)); reflexivity.
Qed.

Lemma execute_command_runs `{code_execution} (env : script) (command : string)
    (timeout : option Z) (force : bool) (m : machine) :
  replays command m = None ->
  popen_error env = None ->
  execute_command env command timeout force m =
  finish (shell_command command)
    (handled (loop_outcome (clamp_timeout timeout) (ticks env)) (pid env)
       (loop_end env command timeout force m)).
Proof.
  intros Hr Hp. rewrite execute_command_eq, Hr, (supervise_eq _ _ _ _ Hp).
  now rewrite handled_loop by (try reflexivity; apply pid_ok).
Qed.

Lemma loop_end_supervising `{code_execution} (env : script) (command : string)
    (timeout : option Z) (force : bool) (m : machine) :
  supervising (started env (shell_command command) (entered force command timeout m))
              (loop_end env command timeout force m).
Proof. apply sup_control_loop. Qed.

Lemma entered_same `{code_execution} (force : bool) (command : string)
    (timeout : option Z) (m : machine) :
  interrupted (entered force command timeout m) = interrupted m
  /\ root_path (project (entered force command timeout m)) = root_path (project m)
  /\ app_id (project (entered force command timeout m)) = app_id (project m)
  /\ command_runs (entered force command timeout m) = command_runs m
  /\ os (entered force command timeout m) = os m.
Proof. unfold entered. destruct force; repeat split. Qed.

Lemma quiet_allowed (force : bool) (spawned root : string) (e : event) :
  quiet e -> allowed force spawned root e.
Proof. destruct e; simpl; tauto. Qed.

(** The console and the module-level flag after a call, whatever its
    course. *)
Lemma execute_command_effects `{code_execution} (env : script) (command : string)
    (timeout : option Z) (force : bool) (m : machine) :
  let m' := snd (execute_command env command timeout force m) in
  interrupted m' = interrupted m
  /\ exists evs,
       console m' = (console m ++ evs)%list
       /\ Forall (allowed force (shell_command command) (root_path (project m))) evs
       /\ (replays command m = None -> popen_error env = None ->
           In (Spawned (shell_command command) (root_path (project m))) evs).
Proof.
  cbv zeta.
  assert (Hin : exists pre,
    console (entered force command timeout m) = (console m ++ pre)%list
    /\ Forall (allowed force (shell_command command) (root_path (project m))) pre).
  { unfold entered, asked. destruct force; cbn [console with_project with_console].
    - exists []. split; [now rewrite app_nil_r | constructor].
    - eexists [_; _; _]. split.
      + rewrite <- !app_assoc. reflexivity.
      + repeat constructor. }
  destruct Hin as (pre & Hpre & Fpre).
  rewrite execute_command_eq.
  destruct (replays command m) as [found|] eqn:Hr.
  - split; [apply entered_same|]. cbn [snd]. unfold restored. cbn [console with_console with_project].
    eexists (pre ++ [_])%list. split; [now rewrite Hpre, app_assoc|].
    split; [|discriminate].
    apply Forall_app. split; [exact Fpre | repeat constructor].
  - destruct (popen_error env) as [e|] eqn:Hp.
    + rewrite (supervise_spawn_fails _ _ _ _ _ Hp). split; [apply entered_same|].
      cbn [snd console with_locals]. exists pre. repeat split; try assumption. discriminate.
    + rewrite (supervise_eq _ _ _ _ Hp), handled_loop by (try reflexivity; apply pid_ok).
      fold (loop_end env command timeout force m).
      destruct (loop_end_supervising env command timeout force m)
        as (Hi & _ & _ & _ & _ & _ & _ & _ & (mid & Hmid & Fmid)).
      cbn [console started interrupted] in Hmid, Hi.
      assert (Fin : forall r, fst r = Ok tt \/ fst r = Hang ->
        interrupted (snd r) = interrupted m ->
        (exists post, console (snd r) =
          (console (loop_end env command timeout force m) ++ post)%list
          /\ Forall quiet post) ->
        interrupted (snd (finish (shell_command command) r)) = interrupted m /\
        exists evs,
          console (snd (finish (shell_command command) r)) = (console m ++ evs)%list
          /\ Forall (allowed force (shell_command command) (root_path (project m))) evs
          /\ In (Spawned (shell_command command) (root_path (project m))) evs).
      { intros [r m2] Hk Hint (post & Hpost & Fpost). cbn [fst snd] in *.
        assert (E : console (snd (finish (shell_command command) (r, m2))) = console m2
                    /\ interrupted (snd (finish (shell_command command) (r, m2))) = interrupted m2).
        { destruct r as [[]|e|]; split; reflexivity. }
        destruct E as (Ec & Ei). rewrite Ec, Ei. split; [exact Hint|].
        exists (pre ++ [Spawned (shell_command command) (root_path (project m))] ++ mid ++ post)%list.
        split; [|split].
        - rewrite Hpost, Hmid, Hpre.
          replace (root_path (project (entered force command timeout m)))
            with (root_path (project m)) by (symmetry; apply entered_same).
          now rewrite <- !app_assoc.
        - apply Forall_app. split; [exact Fpre|].
          constructor; [now split|].
          apply Forall_app. split;
            (eapply Forall_impl; [apply quiet_allowed | eassumption]).
        - apply in_or_app. right. now left. }
      match goal with
      | |- interrupted (snd (finish _ ?r)) = _ /\ _ =>
          destruct (Fin r) as (Fi & evs & Fc & Fa & Fs);
            [| | | split; [exact Fi | exists evs;
                      split; [exact Fc | split; [exact Fa | intros _ _; exact Fs]]]]
      end.
      * destruct (loop_outcome (clamp_timeout timeout) (ticks env)); simpl; auto.
      * replace (interrupted m)
          with (interrupted (loop_end env command timeout force m))
          by (rewrite Hi; apply entered_same).
        destruct (loop_outcome (clamp_timeout timeout) (ticks env)); simpl;
          unfold stopped, kill_group; simpl;
          repeat match goal with |- context [if ?b then _ else _] => destruct b end;
          reflexivity.
      * destruct (loop_outcome (clamp_timeout timeout) (ticks env)); simpl;
          unfold stopped, kill_group;
          try (exists []; split; [now rewrite app_nil_r | constructor]);
          match goal with |- context [if ?b then _ else _] => destruct b end;
          cbn [console with_os with_console with_locals];
          (eexists [_]; split; [reflexivity | repeat constructor]).
Qed.

(** * The claims *)

(** C3.  For a timeout given in milliseconds, the timeout the control loop
    runs with lies between [MIN_COMMAND_RUN_TIME] and
    [MAX_COMMAND_RUN_TIME], and is the given one when that lies between
    them already.  The two constants are assumed to be in order and the
    lower one to be at least 1000, the bound under which line 97 takes a
    value to be in seconds. *)
Theorem timeout_is_clamped `{code_execution} (t : Z) :
  MIN_COMMAND_RUN_TIME <= MAX_COMMAND_RUN_TIME ->
  1000 <= MIN_COMMAND_RUN_TIME ->
  exists effective,
    clamp_timeout (Some t) = Some effective
    /\ MIN_COMMAND_RUN_TIME <= effective <= MAX_COMMAND_RUN_TIME
    /\ (MIN_COMMAND_RUN_TIME <= t <= MAX_COMMAND_RUN_TIME -> effective = t)
    /\ forall env command force m,
         replays command m = None ->
         popen_error env = None ->
         execute_command env command (Some t) force m =
         finish (shell_command command)
           (handled (loop_outcome (Some effective) (ticks env)) (pid env)
              (snd (control_loop (pid env) (Some effective) (ticks env)
                      (started env (shell_command command)
                         (entered force command (Some t) m))))).
Proof.
  intros Horder Hmin.
  exists (Z.min (Z.max (if t <? 1000 then t * 1000 else t) MIN_COMMAND_RUN_TIME)
                MAX_COMMAND_RUN_TIME).
  split; [reflexivity|]. split; [lia|]. split.
  - intros Ht. assert (E : (t <? 1000) = false) by (apply Z.ltb_ge; lia).
    rewrite E. lia.
  - intros env command force m Hr Hp.
    now rewrite (execute_command_runs _ _ _ _ _ Hr Hp).
Qed.

Lemma timeout_is_clamped_witness :
  @MIN_COMMAND_RUN_TIME sample_constants <= @MAX_COMMAND_RUN_TIME sample_constants
  /\ 1000 <= @MIN_COMMAND_RUN_TIME sample_constants
  /\ @clamp_timeout sample_constants (Some 5000) = Some 5000.
Proof.
  split; [simpl; lia|]. split; [simpl; lia|].
  destruct (@timeout_is_clamped sample_constants 5000) as (e & He & _ & Hs & _);
    [simpl; lia | simpl; lia |].
  rewrite He. f_equal. apply Hs. simpl. lia.
Defined.

(** A lower bound under 1000 would itself be taken to be in seconds. *)
Example clamp_reads_seconds :
  @clamp_timeout {| MAX_COMMAND_DEBUG_TRIES := 3; MIN_COMMAND_RUN_TIME := 500;
                    MAX_COMMAND_RUN_TIME := 30000; MAX_COMMAND_OUTPUT_LENGTH := 2000 |}
    (Some 500) = Some 30000.
Proof. reflexivity. Qed.

Lemma result_text_eq `{code_execution} (err out : string) :
  result_text err out =
  (if (err =? "")%string then ""
   else "stderr:" ++ Py.nl ++ Py.fence ++ Py.nl
        ++ Py.slice_from (- MAX_COMMAND_OUTPUT_LENGTH) err ++ Py.nl ++ Py.fence ++ Py.nl)
  ++ "stdout:" ++ Py.nl ++ Py.fence ++ Py.nl
  ++ Py.slice_from (- MAX_COMMAND_OUTPUT_LENGTH) out ++ Py.nl ++ Py.fence.
Proof. unfold result_text. now destruct (err =? "")%string. Qed.

Lemma finish_ok `{code_execution} (command : string) (run : res unit * machine)
    (r : string) (m' : machine) :
  finish command run = (Ok r, m') ->
  r = result_text (stderr_output (locals m')) (output (locals m'))
  /\ locals m' = locals (snd run)
  /\ os m' = os (snd run)
  /\ fst run = Ok tt
  /\ get_command_run_from_hash_id command m' =
     (Ok (Some {| cr_id := 1 + Z.of_nat (List.length (command_runs (snd run)));
                  cr_app := app_id (project m');
                  cr_command := command;
                  cli_response := r |}), m').
Proof.
  destruct run as [[[]|e|] m1]; unfold finish; try discriminate.
  unfold save_command_run. cbn [snd]. intros E. injection E as <- <-.
  cbn [locals os with_command_runs]. repeat split.
  unfold get_command_run_from_hash_id, gets.
  cbn [project command_runs with_command_runs find same_run cr_app cr_command].
  unfold same_run. cbn [cr_app cr_command].
  now rewrite Z.eqb_refl, String.eqb_refl.
Qed.

(** C1.  When the result is built at lines 194-198, a non-empty stderr
    buffer gives the stderr section followed by the stdout section, an
    empty one the stdout section alone, and each section holds the tail of
    its buffer: the buffer without a head, as long as the buffer or
    [MAX_COMMAND_OUTPUT_LENGTH], whichever is less.  The constant is
    assumed positive; for [echo hello] it is assumed to leave room for the
    six characters of the line. *)
Theorem result_is_labelled_tails `{code_execution} :
  0 < MAX_COMMAND_OUTPUT_LENGTH ->
  (forall err out, exists head_err tail_err head_out tail_out,
      err = head_err ++ tail_err
      /\ Py.len tail_err = Z.min (Py.len err) MAX_COMMAND_OUTPUT_LENGTH
      /\ out = head_out ++ tail_out
      /\ Py.len tail_out = Z.min (Py.len out) MAX_COMMAND_OUTPUT_LENGTH
      /\ result_text err out =
         (if (err =? "")%string then ""
          else "stderr:" ++ Py.nl ++ "```" ++ Py.nl ++ tail_err ++ Py.nl ++ "```" ++ Py.nl)
         ++ "stdout:" ++ Py.nl ++ "```" ++ Py.nl ++ tail_out ++ Py.nl ++ "```")
  /\ (forall env command timeout force m r m',
        replays command m = None ->
        execute_command env command timeout force m = (Ok r, m') ->
        r = result_text (stderr_output (locals m')) (output (locals m')))
  /\ (6 <= MAX_COMMAND_OUTPUT_LENGTH ->
      forall force,
        fst (execute_command echo_hello "echo hello" None force (boot "Linux")) =
        Ok ("stdout:" ++ Py.nl ++ "```" ++ Py.nl ++ "hello" ++ Py.nl ++ Py.nl ++ "```")).
Proof.
  intros Hpos. split; [|split].
  - intros err out.
    destruct (tail_slice MAX_COMMAND_OUTPUT_LENGTH err Hpos) as (he & He & Le).
    destruct (tail_slice MAX_COMMAND_OUTPUT_LENGTH out Hpos) as (ho & Ho & Lo).
    exists he, (Py.slice_from (- MAX_COMMAND_OUTPUT_LENGTH) err),
           ho, (Py.slice_from (- MAX_COMMAND_OUTPUT_LENGTH) out).
    repeat split; try assumption. apply result_text_eq.
  - intros env command timeout force m r m' Hr E.
    rewrite execute_command_eq, Hr in E.
    destruct (popen_error env) as [e|] eqn:Hp.
    + rewrite (supervise_spawn_fails _ _ _ _ _ Hp) in E. discriminate.
    + rewrite (supervise_eq _ _ _ _ Hp) in E. now apply finish_ok in E.
  - intros Hroom force.
    rewrite execute_command_runs by reflexivity.
    assert (L : locals (loop_end echo_hello "echo hello" None force (boot "Linux")) =
                {| q := []; q_stderr := []; stdout_open := false; stderr_open := false;
                   pid_container := Some 4242; output := "hello" ++ Py.nl;
                   stderr_output := ""; local_interrupted := false |})
      by (destruct force; vm_compute; reflexivity).
    change (loop_outcome (clamp_timeout None) (ticks echo_hello)) with Completed.
    unfold handled, finish. cbn [fst]. rewrite L. cbn [stderr_output output].
    rewrite result_text_eq. cbn [String.eqb].
    rewrite tail_slice_short; [reflexivity | lia |].
    change (Py.len ("hello" ++ Py.nl)) with 6. exact Hroom.
Qed.

Lemma result_is_labelled_tails_witness :
  0 < @MAX_COMMAND_OUTPUT_LENGTH sample_constants
  /\ 6 <= @MAX_COMMAND_OUTPUT_LENGTH sample_constants
  /\ fst (@execute_command sample_constants echo_hello "echo hello" None true (boot "Linux")) =
     Ok ("stdout:" ++ Py.nl ++ "```" ++ Py.nl ++ "hello" ++ Py.nl ++ Py.nl ++ "```").
Proof.
  split; [simpl; lia|]. split; [simpl; lia|].
  apply (@result_is_labelled_tails sample_constants); simpl; lia.
Defined.

(** With a cap of zero the slice is [s[-0:]] and nothing is cut off. *)
Example zero_cap_keeps_everything :
  @result_text {| MAX_COMMAND_DEBUG_TRIES := 3; MIN_COMMAND_RUN_TIME := 2000;
                  MAX_COMMAND_RUN_TIME := 30000; MAX_COMMAND_OUTPUT_LENGTH := 0 |}
    "" "abc" = "stdout:" ++ Py.nl ++ "```" ++ Py.nl ++ "abc" ++ Py.nl ++ "```".
Proof. reflexivity. Qed.




Lemma kill_group_same (pid : Z) (m : machine) :
  interrupted (kill_group pid m) = interrupted m
  /\ project (kill_group pid m) = project m
  /\ command_runs (kill_group pid m) = command_runs m
  /\ console (kill_group pid m) = console m
  /\ locals (kill_group pid m) = locals m.
Proof. unfold kill_group. destruct (mem pid (process_groups (os m))); repeat split. Qed.

Lemma stopped_same (by_user : bool) (pid : Z) (m : machine) :
  interrupted (stopped by_user pid m) = interrupted m
  /\ output (locals (stopped by_user pid m)) = output (locals m)
  /\ stderr_output (locals (stopped by_user pid m)) = stderr_output (locals m)
  /\ local_interrupted (locals (stopped by_user pid m)) = true
  /\ mem pid (process_groups (os (stopped by_user pid m))) = false.
Proof.
  unfold stopped. repeat split; try apply kill_group_dead;
    match goal with
    | |- context [kill_group pid ?x] =>
        destruct (kill_group_same pid x) as (Hi & _ & _ & _ & Hl); rewrite ?Hi, ?Hl
    end; reflexivity.
Qed.

(** A call that spawns returns unless the ticks run out. *)
Lemma execute_command_returns `{code_execution} (env : script) (command : string)
    (timeout : option Z) (force : bool) (m : machine) :
  replays command m = None ->
  popen_error env = None ->
  loop_outcome (clamp_timeout timeout) (ticks env) <> StillRunning ->
  exists r m', execute_command env command timeout force m = (Ok r, m').
Proof.
  intros Hr Hp Hrun. rewrite (execute_command_runs _ _ _ _ _ Hr Hp).
  destruct (loop_outcome (clamp_timeout timeout) (ticks env));
    try contradiction; unfold handled, finish; do 2 eexists; reflexivity.
Qed.

Lemma enqueue_output_goes_on (out : stream) (line : string) (reads : list string)
    (m : machine) :
  interrupted m = false ->
  line <> "" ->
  enqueue_output out (line :: reads) m = (put out line ;; enqueue_output out reads) m.
Proof.
  intros Hflag Hline. cbn [enqueue_output].
  apply String.eqb_neq in Hline. rewrite Hline.
  unfold bind at 1, gets at 1. now rewrite Hflag.
Qed.

(** C6.  On the timeout and Ctrl+C path the handler sets the variable
    [interrupted] of [execute_command]; the module-level [interrupted]
    that [enqueue_output] tests is as it was, so a reader thread goes on
    putting the lines it reads. *)
Theorem interrupted_flag_stays_local `{code_execution} (env : script) (command : string)
    (timeout : option Z) (force : bool) (m : machine) :
  interrupted m = false ->
  replays command m = None ->
  popen_error env = None ->
  aborted (loop_outcome (clamp_timeout timeout) (ticks env)) = true ->
  exists r m',
    execute_command env command timeout force m = (Ok r, m')
    /\ local_interrupted (locals m') = true
    /\ interrupted m' = false
    /\ forall out line reads,
         line <> "" ->
         enqueue_output out (line :: reads) m' =
         (put out line ;; enqueue_output out reads) m'.
Proof.
  intros Hflag Hr Hp0 Ha.
  destruct (execute_command_returns env command timeout force m Hr Hp0) as (r & m' & E).
  { intros Hs. rewrite Hs in Ha. discriminate Ha. }
  exists r, m'. split; [exact E|].
  assert (Hi : interrupted m' = false).
  { pose proof (execute_command_effects env command timeout force m) as (Hi & _).
    rewrite E in Hi. cbn [snd] in Hi. now rewrite Hi. }
  split; [|split; [exact Hi|]].
  - destruct (popen_error env) as [e|] eqn:Hp.
    + rewrite execute_command_eq, Hr, (supervise_spawn_fails _ _ _ _ _ Hp) in E.
      discriminate E.
    + rewrite (execute_command_runs _ _ _ _ _ Hr Hp) in E.
      apply finish_ok in E. destruct E as (_ & Hl & _). rewrite Hl.
      destruct (loop_outcome (clamp_timeout timeout) (ticks env)); try discriminate Ha;
        cbn [handled snd]; apply stopped_same.
  - intros out line reads Hline. now apply enqueue_output_goes_on.
Qed.

Lemma interrupted_flag_stays_local_witness :
  let m' := snd (@execute_command sample_constants sleeps_too_long "sleep 5"
                   (Some 2000) true (boot "Linux")) in
  local_interrupted (locals m') = true
  /\ interrupted m' = false
  /\ stdout_open (locals m') = true
  /\ q (locals (snd (reader_thread Stdout ["late" ++ Py.nl] m'))) = ["late" ++ Py.nl].
Proof.
  cbv zeta.
  destruct (@execute_command sample_constants sleeps_too_long "sleep 5"
              (Some 2000) true (boot "Linux")) as [[r|e|] m'] eqn:E;
    try (vm_compute in E; discriminate E).
  destruct (@interrupted_flag_stays_local sample_constants sleeps_too_long "sleep 5"
              (Some 2000) true (boot "Linux")) as (r' & m'' & E' & Hl & Hi & Hgo);
    [reflexivity | reflexivity | reflexivity | reflexivity |].
  rewrite E in E'. injection E' as <- <-.
  cbn [snd]. split; [exact Hl|]. split; [exact Hi|].
  assert (Ho : stdout_open (locals m') = true /\ q (locals m') = []).
  { vm_compute in E. injection E as _ <-. split; reflexivity. }
  destruct Ho as (Ho & Hq). split; [exact Ho|].
  unfold reader_thread, is_open, bind at 1, gets at 1. rewrite Ho.
  rewrite Hgo by discriminate.
  unfold bind, put, modify, enqueue_output, ret. cbn. now rewrite Hq.
Defined.

(** C7.  When the history holds a run of the command text the call looks
    up and the project reuses history, the recorded response is returned
    and nothing is spawned; a call that runs the command leaves its text
    and its result in the history when it returns.  The text looked up and
    saved is the one that is spawned, after lines 116-117. *)
Theorem history_is_replayed_and_saved `{code_execution} (env : script) (command : string)
    (timeout : option Z) (force : bool) (m : machine) :
  (forall found,
      skip_steps (project m) = true ->
      fst (get_command_run_from_hash_id (shell_command command) m) = Ok (Some found) ->
      exists m',
        execute_command env command timeout force m = (Ok (cli_response found), m')
        /\ os m' = os m
        /\ forall c cwd, In (Spawned c cwd) (console m') -> In (Spawned c cwd) (console m))
  /\ (forall r m',
        replays command m = None ->
        execute_command env command timeout force m = (Ok r, m') ->
        In (Spawned (shell_command command) (root_path (project m))) (console m')
        /\ exists row,
             get_command_run_from_hash_id (shell_command command) m' = (Ok (Some row), m')
             /\ cr_command row = shell_command command
             /\ cli_response row = r).
Proof.
  split.
  - intros found Hskip Hfound.
    unfold get_command_run_from_hash_id, gets in Hfound. cbn [fst] in Hfound.
    injection Hfound as Hfound.
    assert (Hr : replays command m = Some found)
      by (unfold replays; now rewrite Hskip).
    rewrite execute_command_eq, Hr. eexists. split; [reflexivity|]. split.
    + unfold restored. cbn [os with_console with_project]. apply entered_same.
    + intros c cwd. unfold restored, entered, asked.
      destruct force; cbn [console with_console with_project]; intros Hin;
        repeat (apply in_app_or in Hin; destruct Hin as [Hin|Hin];
                [| destruct Hin as [Hin|[]]; discriminate Hin]);
        exact Hin.
  - intros r m' Hr E.
    destruct (popen_error env) as [e|] eqn:Hp.
    + rewrite execute_command_eq, Hr, (supervise_spawn_fails _ _ _ _ _ Hp) in E.
      discriminate E.
    + split.
      * pose proof (execute_command_effects env command timeout force m)
          as (_ & evs & Hc & _ & Hs).
        rewrite E in Hc. cbn [snd] in Hc. rewrite Hc.
        apply in_or_app. right. now apply Hs.
      * rewrite (execute_command_runs _ _ _ _ _ Hr Hp) in E.
        apply finish_ok in E. destruct E as (_ & _ & _ & _ & Hg).
        eexists. split; [exact Hg|]. split; reflexivity.
Qed.

Lemma history_is_replayed_and_saved_witness :
  fst (@execute_command sample_constants echo_hello "echo hello" None true replaying)
    = Ok "recorded"
  /\ console (snd (@execute_command sample_constants echo_hello "echo hello" None true
                     (boot "Linux")))
     = [Spawned "echo hello" "/work"; Printed ("CLI OUTPUT:hello" ++ Py.nl); Slept 100]
  /\ option_map cli_response
       (find (same_run 1 "echo hello")
          (command_runs (snd (@execute_command sample_constants echo_hello "echo hello"
                                None true (boot "Linux")))))
     = Some ("stdout:" ++ Py.nl ++ "```" ++ Py.nl ++ "hello" ++ Py.nl ++ Py.nl ++ "```").
Proof.
  destruct (@history_is_replayed_and_saved sample_constants echo_hello "echo hello"
              None true replaying) as (Hreplay & _).
  destruct (@history_is_replayed_and_saved sample_constants echo_hello "echo hello"
              None true (boot "Linux")) as (_ & Hsave).
  split; [|split].
  - destruct (Hreplay {| cr_id := 1; cr_app := 1; cr_command := "echo hello";
                         cli_response := "recorded" |}) as (m' & E & _);
      [reflexivity | reflexivity |].
    now rewrite E.
  - vm_compute. reflexivity.
  - destruct (@execute_command sample_constants echo_hello "echo hello" None true
                (boot "Linux")) as [[r|e|] m'] eqn:E;
      try (vm_compute in E; discriminate E).
    destruct (Hsave r m' eq_refl eq_refl) as (_ & row & Hg & _ & Hrow).
    assert (Er : r = "stdout:" ++ Py.nl ++ "```" ++ Py.nl ++ "hello" ++ Py.nl ++ Py.nl ++ "```").
    { vm_compute in E. now injection E as <- _. }
    assert (Ea : app_id (project m') = 1).
    { vm_compute in E. now injection E as _ <-. }
    unfold get_command_run_from_hash_id, gets in Hg. injection Hg as Hg.
    cbn [snd]. change (shell_command "echo hello") with "echo hello" in Hg.
    rewrite Ea in Hg. rewrite Hg. cbn [option_map]. now rewrite Hrow, Er.
Defined.

(** C9.  The command that is spawned is the given one inside
    [bash -c '...'] when it contains [cd ] or [source ], and the given one
    otherwise; it is spawned whenever the call does not replay and [Popen]
    does not fail. *)
Theorem spawned_command_is_wrapped `{code_execution} (env : script) (command : string)
    (timeout : option Z) (force : bool) (m : machine) :
  exists evs,
    console (snd (execute_command env command timeout force m)) = (console m ++ evs)%list
    /\ (forall c cwd,
          In (Spawned c cwd) evs ->
          c = if Py.contains "cd " command || Py.contains "source " command
              then "bash -c '" ++ command ++ "'"
              else command)
    /\ (replays command m = None ->
        popen_error env = None ->
        In (Spawned (if Py.contains "cd " command || Py.contains "source " command
                     then "bash -c '" ++ command ++ "'"
                     else command)
                    (root_path (project m))) evs).
Proof.
  destruct (execute_command_effects env command timeout force m)
    as (_ & evs & Hc & Ha & Hs).
  exists evs. split; [exact Hc|]. split; [|exact Hs].
  intros c cwd Hin.
  rewrite Forall_forall in Ha. now destruct (Ha _ Hin) as (-> & _).
Qed.

Lemma spawned_command_is_wrapped_witness :
  In (Spawned "bash -c 'cd src && make'" "/work")
     (console (snd (@execute_command sample_constants echo_hello "cd src && make"
                      None true (boot "Linux"))))
  /\ In (Spawned "echo hello" "/work")
        (console (snd (@execute_command sample_constants echo_hello "echo hello"
                         None true (boot "Linux")))).
Proof.
  split.
  - destruct (@spawned_command_is_wrapped sample_constants echo_hello "cd src && make"
                None true (boot "Linux")) as (evs & Hc & _ & Hs).
    rewrite Hc. apply in_or_app. right. now apply Hs.
  - destruct (@spawned_command_is_wrapped sample_constants echo_hello "echo hello"
                None true (boot "Linux")) as (evs & Hc & _ & Hs).
    rewrite Hc. apply in_or_app. right. now apply Hs.
Defined.



(** ** The loop and the frame *)

Lemma enqueue_output_frame (out : stream) (values : list string) (m : machine) :
  interrupted m = false ->
  exists m1, enqueue_output out values m = (Ok tt, m1)
             /\ locals m1 = absorb out values (locals m)
             /\ interrupted m1 = false.
Proof.
  revert m. induction values as [|line values IH]; intros m Hflag.
  - now exists m.
  - cbn [enqueue_output absorb]. destruct (line =? "")%string.
    + eexists. split; [reflexivity|]. split; [|exact Hflag].
      destruct out; reflexivity.
    + unfold bind at 1, gets at 1. rewrite Hflag.
      unfold bind at 1, put at 1, modify at 1.
      destruct (IH (with_locals
                      (fun f => set_queue out (queue_of out f ++ [line])%list f) m) Hflag)
        as (m1 & E & L & F).
      exists m1. split; [exact E|]. split; [exact L | exact F].
Qed.

Lemma reader_thread_frame (out : stream) (values : list string) (m : machine) :
  interrupted m = false ->
  exists m1, reader_thread out values m = (Ok tt, m1)
             /\ locals m1 = read_slice out values (locals m)
             /\ interrupted m1 = false.
Proof.
  intros Hflag. unfold reader_thread, read_slice, bind at 1, is_open, gets.
  replace (match out with
           | Stdout => stdout_open (locals m)
           | Stderr => stderr_open (locals m)
           end) with (opened out (locals m)) by (destruct out; reflexivity).
  destruct (opened out (locals m)).
  - now apply enqueue_output_frame.
  - now exists m.
Qed.

Lemma interrupt_point_cases (t : tick) (p : point) (m : machine) :
  interrupt_point t p m = (Ok tt, m)
  \/ interrupt_point t p m = (Raise KeyboardInterrupt, m).
Proof.
  unfold interrupt_point. destruct (ctrl_c t) as [p'|]; [|now left].
  destruct (point_eqb p p'); [now right | now left].
Qed.

Lemma poll_queue_frame (s : stream) (m : machine) :
  exists m1, poll_queue s m = (Ok (hd_error (queue_of s (locals m))), m1)
             /\ locals m1 = set_queue s (tl (queue_of s (locals m))) (locals m)
             /\ interrupted m1 = interrupted m.
Proof.
  unfold poll_queue, try_except, bind, get_nowait.
  destruct (queue_of s (locals m)) as [|line rest] eqn:E; cbn [hd_error tl is_QueueEmpty].
  - exists m. split; [reflexivity|]. split; [|reflexivity].
    destruct s, (locals m); cbn in E |- *; now subst.
  - eexists. split; [reflexivity|]. split; reflexivity.
Qed.

Lemma drain_remaining_frame (lines : list string) (m : machine) :
  q (locals m) = lines ->
  exists m1, drain_remaining (List.length lines) m = (Ok tt, m1)
             /\ locals m1 = drain (locals m)
             /\ interrupted m1 = interrupted m.
Proof.
  revert m. induction lines as [|line rest IH]; intros m Hq.
  - exists m. split; [reflexivity|]. split; [|reflexivity].
    unfold drain. rewrite Hq. destruct (locals m); cbn in Hq |- *; now subst.
  - cbn [List.length drain_remaining].
    unfold bind at 1, empty at 1, gets at 1. cbn [queue_of]. rewrite Hq.
    unfold bind at 1, get_nowait at 1. cbn [queue_of]. rewrite Hq.
    unfold bind at 1, gets at 1.
    cbn [locals with_locals output set_queue set_q].
    unfold drain. rewrite Hq. cbn [keep_new].
    destruct (Py.contains line (output (locals m))); cbn [negb].
    + unfold bind at 1, ret at 1.
      destruct (IH (with_locals (set_queue Stdout rest) m) eq_refl) as (m1 & E & L & F).
      exists m1. split; [exact E|]. split; [|exact F].
      rewrite L. reflexivity.
    + unfold bind at 1. unfold bind at 1, print_end at 1, log at 1, modify at 1.
      unfold modify at 1.
      match goal with
      | |- exists m1, drain_remaining _ ?x = _ /\ _ =>
          destruct (IH x eq_refl) as (m1 & E & L & F)
      end.
      exists m1. split; [exact E|]. split; [|exact F].
      rewrite L. reflexivity.
Qed.

Ltac pass_point H :=
  match type of H with
  | bind (interrupt_point ?t ?p) ?k ?m = _ =>
      let E := fresh "E" in
      destruct (interrupt_point_cases t p m) as [E|E];
      [ rewrite (bind_ok _ _ _ _ _ E) in H; clear E
      | rewrite (bind_raise _ _ _ _ _ E) in H; discriminate H ]
  end.

Ltac pass_reader H Hflag m1 L F :=
  match type of H with
  | bind (reader_thread ?out ?values) ?k ?m = _ =>
      let E := fresh "E" in
      destruct (reader_thread_frame out values m Hflag) as (m1 & E & L & F);
      rewrite (bind_ok _ _ _ _ _ E) in H; clear E
  end.

Ltac pass_poll H m1 L F :=
  match type of H with
  | bind (poll_queue ?s) ?k ?m = _ =>
      let E := fresh "E" in
      destruct (poll_queue_frame s m) as (m1 & E & L & F);
      rewrite (bind_ok _ _ _ _ _ E) in H; clear E
  end.

Lemma take_frame (s : stream) (f : frame) :
  take s f =
  match hd_error (queue_of s f) with
  | Some text =>
      if Py.truthy (hd_error (queue_of s f))
      then set_buffer s (buffer_of s f ++ text) (set_queue s (tl (queue_of s f)) f)
      else set_queue s (tl (queue_of s f)) f
  | None => set_queue s (tl (queue_of s f)) f
  end.
Proof.
  unfold take. destruct (queue_of s f) as [|line rest] eqn:E; cbn [hd_error tl Py.truthy].
  - destruct s, f; cbn in E |- *; now subst.
  - now destruct (line =? "")%string.
Qed.

Lemma append_stdout_frame (line : option string) (m : machine) :
  exists m1,
    (match line with
     | Some text =>
         if Py.truthy line then
           out <- gets (fun m => output (locals m)) ;;
           modify (with_locals (set_output (out ++ text))) ;;
           print_end (colored "CLI OUTPUT:" ++ text) ""
         else ret tt
     | None => ret tt
     end) m = (Ok tt, m1)
    /\ locals m1 =
       match line with
       | Some text =>
           if Py.truthy line then set_output (output (locals m) ++ text) (locals m)
           else locals m
       | None => locals m
       end
    /\ interrupted m1 = interrupted m.
Proof.
  destruct line as [text|]; [destruct (Py.truthy (Some text))|];
    eexists; (split; [reflexivity|]); split; reflexivity.
Qed.

Lemma append_stderr_frame (line : option string) (m : machine) :
  exists m1,
    (match line with
     | Some text =>
         if Py.truthy line then
           err <- gets (fun m => stderr_output (locals m)) ;;
           modify (with_locals (set_stderr_output (err ++ text))) ;;
           print_end (colored "CLI ERROR:" ++ text) ""
         else ret tt
     | None => ret tt
     end) m = (Ok tt, m1)
    /\ locals m1 =
       match line with
       | Some text =>
           if Py.truthy line then set_stderr_output (stderr_output (locals m) ++ text) (locals m)
           else locals m
       | None => locals m
       end
    /\ interrupted m1 = interrupted m.
Proof.
  destruct line as [text|]; [destruct (Py.truthy (Some text))|];
    eexists; (split; [reflexivity|]); split; reflexivity.
Qed.

Lemma loop_body_frame (process : Z) (timeout : option Z) (t : tick)
    (m m' : machine) (next : flow) :
  interrupted m = false ->
  loop_body process timeout t m = (Ok next, m') ->
  interrupted m' = false
  /\ match next with
     | Continue => polled_exit t = false /\ locals m' = body_continue t (locals m)
     | Break => polled_exit t = true /\ locals m' = body_break t (locals m)
     end.
Proof.
  intros Hflag H. unfold loop_body in H.
  pass_reader H Hflag m1 L1 F1. pass_reader H F1 m2 L2 F2. pass_point H.
  assert (Hprint : exists m3,
    (match timeout with
     | Some _ =>
         print_end (colored ("" ++ Py.cr ++ "t: " ++ Py.str (elapsed_ms t) ++ "ms : ")) ""
     | None => ret tt
     end) m2 = (Ok tt, m3) /\ locals m3 = locals m2 /\ interrupted m3 = false).
  { destruct timeout; eexists; (split; [reflexivity|]); split; try reflexivity; exact F2. }
  destruct Hprint as (m3 & E3 & L3 & F3).
  rewrite (bind_ok _ _ _ _ _ E3) in H. clear E3.
  unfold process_poll in H.
  destruct (polled_exit t).
  - unfold bind at 1 in H. unfold bind at 1, modify at 1 in H. unfold ret at 1 in H.
    cbv beta iota in H.
    unfold bind at 1, log at 1, modify at 1 in H.
    pass_point H.
    match type of H with
    | bind _ _ ?x = _ =>
        remember x as mx eqn:Ex;
        assert (Fx : interrupted mx = false) by (subst mx; exact F3);
        assert (Lx : locals mx = locals m3) by (subst mx; reflexivity);
        clear Ex
    end.
    pass_reader H Fx m4 L4 F4. pass_reader H F4 m5 L5 F5.
    unfold bind at 1, gets at 1 in H.
    destruct (drain_remaining_frame (q (locals m5)) m5 eq_refl) as (m6 & E6 & L6 & F6).
    rewrite (bind_ok _ _ _ _ _ E6) in H. injection H as <- <-.
    split; [now rewrite F6|]. split; [reflexivity|].
    unfold body_break. rewrite L6, L5, L4, Lx, L3, L2, L1. reflexivity.
  - unfold bind at 1, ret at 1 in H.
    destruct (timed_out timeout t); [discriminate H|].
    pass_poll H m4 L4 F4. pass_point H.
    destruct (append_stdout_frame (hd_error (queue_of Stdout (locals m3))) m4)
      as (m5 & E5 & L5 & F5).
    rewrite (bind_ok _ _ _ _ _ E5) in H. clear E5.
    pass_point H. pass_poll H m6 L6 F6. pass_point H.
    destruct (append_stderr_frame (hd_error (queue_of Stderr (locals m5))) m6)
      as (m7 & E7 & L7 & F7).
    rewrite (bind_ok _ _ _ _ _ E7) in H. clear E7.
    injection H as <- <-.
    split; [congruence|]. split; [reflexivity|].
    assert (T5 : locals m5 = take Stdout (locals m3)).
    { rewrite take_frame, L5, L4.
      destruct (hd_error (queue_of Stdout (locals m3))); [|reflexivity].
      destruct (Py.truthy (Some s)); reflexivity. }
    assert (T7 : locals m7 = take Stderr (locals m5)).
    { rewrite take_frame, L7, L6.
      destruct (hd_error (queue_of Stderr (locals m5))); [|reflexivity].
      destruct (Py.truthy (Some s)); reflexivity. }
    unfold body_continue. now rewrite T7, T5, L3, L2, L1.
Qed.

Lemma bind_ret {A B : Type} (a : A) (k : A -> Exec B) (m : machine) :
  bind (ret a) k m = k a m.
Proof. reflexivity. Qed.

Lemma bind_raise_now {A B : Type} (e : exn) (k : A -> Exec B) (m : machine) :
  bind (raise e) k m = (Raise e, m).
Proof. reflexivity. Qed.

Ltac at_point H Ec :=
  unfold interrupt_point at 1 in H; rewrite Ec in H; cbn [point_eqb] in H;
  match type of H with
  | bind (ret _) _ _ = _ => rewrite bind_ret in H
  | bind (raise _) _ _ = _ => rewrite bind_raise_now in H
  end.


(** ** Lines on their way from the pipes to the buffers *)

Lemma lines_before_eof_app (a b : list string) :
  lines_before_eof (a ++ b) =
  (lines_before_eof a ++ (if no_eof a then lines_before_eof b else []))%list.
Proof.
  induction a as [|line a IH]; cbn [lines_before_eof no_eof forallb app].
  - reflexivity.
  - destruct (line =? "")%string; cbn [negb andb]; [reflexivity|].
    fold (no_eof a). now rewrite IH.
Qed.

Lemma untouched_refl (s : stream) (f : frame) : untouched s f f.
Proof. repeat split. Qed.

Lemma untouched_trans (s : stream) (f g h : frame) :
  untouched s f g -> untouched s g h -> untouched s f h.
Proof. intros (A & B & C) (A' & B' & C'). repeat split; congruence. Qed.


Lemma absorb_own (out : stream) (values : list string) (f : frame) :
  queue_of out (absorb out values f) = (queue_of out f ++ lines_before_eof values)%list
  /\ opened out (absorb out values f) = opened out f && no_eof values
  /\ buffer_of out (absorb out values f) = buffer_of out f.
Proof.
  revert f. induction values as [|line values IH]; intros f;
    cbn [absorb lines_before_eof no_eof forallb].
  - now rewrite app_nil_r, andb_true_r.
  - destruct (line =? "")%string; cbn [negb andb].
    + rewrite app_nil_r, andb_false_r. destruct out; repeat split.
    + fold (no_eof values).
      destruct (IH (set_queue out (queue_of out f ++ [line])%list f)) as (A & B & C).
      rewrite A, B, C. destruct out; cbn; rewrite <- app_assoc; repeat split.
Qed.

Lemma absorb_other (out s : stream) (values : list string) (f : frame) :
  out <> s -> untouched s f (absorb out values f).
Proof.
  intros Hne. revert f. induction values as [|line values IH]; intros f; cbn [absorb].
  - apply untouched_refl.
  - destruct (line =? "")%string.
    + destruct out, s; try contradiction; repeat split.
    + eapply untouched_trans; [|apply IH].
      destruct out, s; try contradiction; repeat split.
Qed.

Lemma read_slice_own (out : stream) (values : list string) (ts : list tick) (f : frame) :
  queue_of out (read_slice out values f) =
    (queue_of out f ++ (if opened out f then lines_before_eof values else []))%list
  /\ opened out (read_slice out values f) = opened out f && no_eof values
  /\ buffer_of out (read_slice out values f) = buffer_of out f.
Proof.
  unfold read_slice. destruct (opened out f) eqn:E.
  - destruct (absorb_own out values f) as (A & B & C). now rewrite A, B, C, E.
  - now rewrite app_nil_r, E.
Qed.

Lemma read_slice_other (out s : stream) (values : list string) (f : frame) :
  out <> s -> untouched s f (read_slice out values f).
Proof.
  intros Hne. unfold read_slice. destruct (opened out f).
  - now apply absorb_other.
  - apply untouched_refl.
Qed.



Lemma stream_neq : Stdout <> Stderr /\ Stderr <> Stdout.
Proof. split; discriminate. Qed.


(** The iteration that sees the child gone empties the stdout queue, with
    every line that was pending, and leaves the stderr buffer as it is. *)
Lemma body_break_buffers (t : tick) (ts : list tick) (f : frame) :
  polled_exit t = true ->
  output (body_break t f) = keep_new (pending Stdout (t :: ts) f) (output f)
  /\ stderr_output (body_break t f) = stderr_output f.
Proof.
  intros Hexit. destruct stream_neq as (N1 & N2).
  unfold body_break, drain. cbn [output stderr_output set_output set_q].
  set (f1 := read_slice Stdout (reads_out t) f).
  set (f2 := read_slice Stderr (reads_err t) f1).
  set (f3 := read_slice Stdout (sleep_out t) f2).
  set (f4 := read_slice Stderr (sleep_err t) f3).
  destruct (read_slice_own Stdout (reads_out t) ts f) as (A1 & B1 & C1).
  destruct (read_slice_other Stderr Stdout (reads_err t) f1 N2) as (A2 & B2 & C2).
  destruct (read_slice_own Stdout (sleep_out t) ts f2) as (A3 & B3 & C3).
  destruct (read_slice_other Stderr Stdout (sleep_err t) f3 N2) as (A4 & B4 & C4).
  destruct (read_slice_other Stdout Stderr (reads_out t) f N1) as (_ & _ & D1).
  destruct (read_slice_own Stderr (reads_err t) ts f1) as (_ & _ & D2).
  destruct (read_slice_other Stdout Stderr (sleep_out t) f2 N1) as (_ & _ & D3).
  destruct (read_slice_own Stderr (sleep_err t) ts f3) as (_ & _ & D4).
  fold f1 in A1, B1, C1, D1. fold f2 in A2, B2, C2, D2, A3, B3, C3, D3.
  fold f3 in A3, B3, C3, D3, A4, B4, C4, D4. fold f4 in A4, B4, C4, D4.
  cbn [queue_of opened buffer_of] in *.
  split; [|congruence].
  rewrite C4, C3, C2, C1. f_equal.
  rewrite A4, A3, A2, B2, B1, A1.
  unfold pending. cbn [reads_of queue_of opened reads sleep_reads]. rewrite Hexit.
  rewrite lines_before_eof_app, <- app_assoc.
  destruct (stdout_open f); reflexivity.
Qed.




Lemma drain_remaining_empty (fuel : nat) (m : machine) :
  q (locals m) = [] -> drain_remaining fuel m = (Ok tt, m).
Proof.
  intros Hq. destruct fuel; [reflexivity|].
  cbn [drain_remaining]. unfold bind at 1, empty at 1, gets at 1.
  cbn [queue_of]. now rewrite Hq.
Qed.

Lemma drain_remaining_cons (fuel : nat) (line : string) (rest : list string)
    (m : machine) :
  q (locals m) = line :: rest ->
  drain_remaining (S fuel) m = drain_remaining fuel (offered line rest m).
Proof.
  intros Hq. cbn [drain_remaining].
  unfold bind at 1, empty at 1, gets at 1. cbn [queue_of]. rewrite Hq.
  unfold bind at 1, get_nowait at 1. cbn [queue_of]. rewrite Hq.
  unfold bind at 1, gets at 1.
  cbn [locals with_locals output set_queue set_q]. unfold offered.
  destruct (Py.contains line (output (locals m))); cbn [negb].
  - reflexivity.
  - unfold bind at 1. unfold bind at 1, print_end at 1, log at 1, modify at 1.
    unfold modify at 1. reflexivity.
Qed.









Lemma body_break_queues (t : tick) (ts : list tick) (f : frame) :
  polled_exit t = true ->
  q (body_break t f) = []
  /\ q_stderr (body_break t f) = pending Stderr (t :: ts) f.
Proof.
  intros Hexit. destruct stream_neq as (N1 & N2).
  unfold body_break, drain. cbn [q q_stderr set_output set_q].
  split; [reflexivity|].
  set (f1 := read_slice Stdout (reads_out t) f).
  set (f2 := read_slice Stderr (reads_err t) f1).
  set (f3 := read_slice Stdout (sleep_out t) f2).
  destruct (read_slice_other Stdout Stderr (reads_out t) f N1) as (A1 & B1 & _).
  destruct (read_slice_own Stderr (reads_err t) ts f1) as (A2 & B2 & _).
  destruct (read_slice_other Stdout Stderr (sleep_out t) f2 N1) as (A3 & B3 & _).
  destruct (read_slice_own Stderr (sleep_err t) ts f3) as (A4 & _ & _).
  fold f1 in A1, B1. fold f2 in A2, B2, A3, B3. fold f3 in A3, B3, A4.
  cbn [queue_of opened] in *.
  rewrite A4, A3, B3, A2, B2, A1, B1.
  unfold pending. cbn [reads_of queue_of opened reads sleep_reads]. rewrite Hexit.
  rewrite lines_before_eof_app, <- app_assoc.
  destruct (stderr_open f); reflexivity.
Qed.


Lemma keep_new_new_lines (lines : list string) (buffer : string) :
  keep_new lines buffer = buffer ++ Py.join (new_lines lines buffer).
Proof.
  revert buffer. induction lines as [|line lines IH]; intros buffer;
    cbn [keep_new new_lines Py.join fold_right].
  - now rewrite append_empty_r.
  - destruct (Py.contains line buffer); [apply IH|].
    cbn [Py.join fold_right]. fold (Py.join (new_lines lines (buffer ++ line))).
    now rewrite IH, append_assoc.
Qed.

Lemma new_lines_app (a b : list string) (buffer : string) :
  new_lines (a ++ b) buffer = (new_lines a buffer ++ new_lines b (keep_new a buffer))%list.
Proof.
  revert buffer. induction a as [|line a IH]; intros buffer; cbn [app keep_new new_lines].
  - reflexivity.
  - destruct (Py.contains line buffer); [apply IH|].
    cbn [app]. now rewrite IH.
Qed.

(** C8, as the code has it.  The iteration that sees the child gone takes
    every line off the stdout queue, in the order of the queue, and
    appends a line exactly when its text does not occur in the buffer as
    it is at that moment: the lines before it that were appended
    included.  The queue is empty afterwards. *)
Theorem final_drain_keeps_unseen_lines (process : Z) (timeout : option Z) (t : tick)
    (m : machine) :
  interrupted m = false ->
  polled_exit t = true ->
  ctrl_c t = None ->
  let waiting := pending Stdout [t] (locals m) in
  let buffer := output (locals m) in
  exists m',
    loop_body process timeout t m = (Ok Break, m')
    /\ q (locals m') = []
    /\ output (locals m') = buffer ++ Py.join (new_lines waiting buffer)
    /\ forall before line after,
         waiting = (before ++ line :: after)%list ->
         let seen := buffer ++ Py.join (new_lines before buffer) in
         new_lines waiting buffer
         = (new_lines before buffer
            ++ (if Py.contains line seen then [] else [line])
            ++ new_lines after (if Py.contains line seen then seen else seen ++ line))%list.
Proof.
  intros Hflag Hexit Hc. cbv zeta.
  destruct (loop_body process timeout t m) as [r m'] eqn:E.
  pose proof (loop_body_result process timeout t m) as Hb.
  rewrite E in Hb. cbn [fst] in Hb. unfold body_result in Hb. rewrite Hc, Hexit in Hb.
  subst r. exists m'. split; [reflexivity|].
  apply (loop_body_frame _ _ _ _ _ _ Hflag) in E. destruct E as (_ & _ & L).
  destruct (body_break_queues t [] (locals m) Hexit) as (Q & _).
  destruct (body_break_buffers t [] (locals m) Hexit) as (O & _).
  rewrite L. split; [exact Q|]. split.
  - now rewrite O, keep_new_new_lines.
  - intros before line after ->.
    rewrite new_lines_app. cbn [new_lines]. rewrite <- keep_new_new_lines.
    destruct (Py.contains line (keep_new before (output (locals m)))); reflexivity.
Qed.

Lemma final_drain_keeps_unseen_lines_witness :
  let t := {| reads_out := ["b" ++ Py.nl; "c" ++ Py.nl; "c" ++ Py.nl; ""]; reads_err := [];
              elapsed_ms := 7; polled_exit := true;
              sleep_out := []; sleep_err := []; ctrl_c := None |} in
  let m := with_locals (fun f => set_stdout_open true (set_output ("ab" ++ Py.nl) f))
             (boot "Linux") in
  pending Stdout [t] (locals m) = ["b" ++ Py.nl; "c" ++ Py.nl; "c" ++ Py.nl]
  /\ exists m',
       loop_body 4242 None t m = (Ok Break, m')
       /\ q (locals m') = []
       /\ output (locals m') = "ab" ++ Py.nl ++ "c" ++ Py.nl.
Proof.
  intros t m. split; [reflexivity|].
  destruct (final_drain_keeps_unseen_lines 4242 None t m eq_refl eq_refl eq_refl)
    as (m' & E & Q & O & _).
  exists m'. split; [exact E|]. split; [exact Q|]. rewrite O. reflexivity.
Defined.

(** C8 as it is stated fails: the child wrote the lines [10] and [0] and
    was gone; the second line is not among the lines before it, and it is
    dropped, because its text occurs in the buffer. *)
Lemma new_line_is_dropped :
  let m' := snd (@execute_command sample_constants ten_then_zero "echo 10; echo 0" None true
                   (boot "Linux")) in
  loop_outcome (@clamp_timeout sample_constants None) (ticks ten_then_zero) = Completed
  /\ stdout_lines ten_then_zero = ["10" ++ Py.nl; "0" ++ Py.nl]
  /\ ~ In ("0" ++ Py.nl) ["10" ++ Py.nl]
  /\ Py.contains ("0" ++ Py.nl) ("10" ++ Py.nl) = true
  /\ output (locals m') = "10" ++ Py.nl
  /\ q (locals m') = [].
Proof.
  cbv zeta. split; [reflexivity|]. split; [reflexivity|].
  split; [intros [F|[]]; discriminate F|].
  split; [reflexivity|]. split; vm_compute; reflexivity.
Qed.









(** * Further properties of the executor *)

(** ** The project after a call *)

Lemma stopped_project (by_user : bool) (process : Z) (m : machine) :
  project (stopped by_user process m) = project m
  /\ command_runs (stopped by_user process m) = command_runs m.
Proof.
  unfold stopped.
  match goal with
  | |- context [kill_group process ?x] =>
      destruct (kill_group_same process x) as (_ & Hp & Hc & _); rewrite Hp, Hc
  end.
  split; reflexivity.
Qed.

Lemma handled_project (e : ending) (process : Z) (m : machine) :
  project (snd (handled e process m)) = project m
  /\ command_runs (snd (handled e process m)) = command_runs m.
Proof. destruct e; cbn [handled snd]; try (split; reflexivity); apply stopped_project. Qed.

Lemma finish_project `{code_execution} (command : string) (run : res unit * machine) :
  project (snd (finish command run)) = project (snd run).
Proof. destruct run as [[[]|e|] m]; reflexivity. Qed.

(** The project after a call that does not replay: only the count moved. *)
Lemma execute_command_project `{code_execution} (env : script) (command : string)
    (timeout : option Z) (force : bool) (m : machine) :
  replays command m = None ->
  project (snd (execute_command env command timeout force m)) =
  set_command_runs_count (command_runs_count (project m) + 1) (project m).
Proof.
  intros Hr. rewrite execute_command_eq, Hr.
  assert (He : project (entered force command timeout m) =
               set_command_runs_count (command_runs_count (project m) + 1) (project m))
    by (unfold entered; destruct force; reflexivity).
  destruct (popen_error env) as [e|] eqn:Hp.
  - rewrite (supervise_spawn_fails _ _ _ _ _ Hp). exact He.
  - rewrite (supervise_eq _ _ _ _ Hp), handled_loop by (try reflexivity; apply pid_ok).
    rewrite finish_project.
    destruct (handled_project (loop_outcome (clamp_timeout timeout) (ticks env)) (pid env)
                (snd (control_loop (pid env) (clamp_timeout timeout) (ticks env)
                        (started env (shell_command command)
                           (entered force command timeout m))))) as (Hp1 & _).
    rewrite Hp1.
    destruct (sup_control_loop (pid env) (clamp_timeout timeout) (ticks env)
                (started env (shell_command command) (entered force command timeout m)))
      as (_ & Hp2 & _).
    rewrite Hp2. exact He.
Qed.

(** X1.  Every call counts: whether it replays, fails to spawn, completes,
    is stopped or is still running when the ticks end,
    [project.command_runs_count] is one more than before, and the other
    settings of the project read by the call are as before. *)
Theorem every_call_is_counted `{code_execution} (env : script) (command : string)
    (timeout : option Z) (force : bool) (m : machine) :
  let p' := project (snd (execute_command env command timeout force m)) in
  command_runs_count p' = command_runs_count (project m) + 1
  /\ skip_steps p' = skip_steps (project m)
  /\ root_path p' = root_path (project m)
  /\ app_id p' = app_id (project m).
Proof.
  cbv zeta. destruct (replays command m) as [found|] eqn:Hr.
  - rewrite execute_command_eq, Hr. unfold restored, entered.
    destruct force; repeat split.
  - rewrite (execute_command_project _ _ _ _ _ Hr). repeat split.
Qed.

Lemma spawned_only_if_before (c cwd : string) (l pre : list event) :
  Forall (fun e => match e with Spawned _ _ => False | _ => True end) pre ->
  In (Spawned c cwd) (l ++ pre) -> In (Spawned c cwd) l.
Proof.
  intros F Hin. apply in_app_or in Hin. destruct Hin as [Hin|Hin]; [exact Hin|].
  rewrite Forall_forall in F. now apply F in Hin.
Qed.

Lemma entered_console `{code_execution} (force : bool) (command : string)
    (timeout : option Z) (m : machine) :
  exists pre,
    console (entered force command timeout m) = (console m ++ pre)%list
    /\ Forall (fun e => match e with Spawned _ _ => False | _ => True end) pre.
Proof.
  unfold entered, asked. destruct force; cbn [console with_project with_console].
  - exists []. split; [now rewrite app_nil_r | constructor].
  - eexists [_; _; _]. split; [rewrite <- !app_assoc; reflexivity | repeat constructor].
Qed.

(** X2.  When [Popen] raises, the exception leaves the call as it is, and
    the call leaves no trace but the count and the confirmation: nothing
    is spawned, nothing is saved to the history, the process table is as
    before. *)
Theorem spawn_failure_leaves_no_trace `{code_execution} (env : script) (command : string)
    (timeout : option Z) (force : bool) (m : machine) (e : exn) :
  replays command m = None ->
  popen_error env = Some e ->
  exists m',
    execute_command env command timeout force m = (Raise e, m')
    /\ command_runs m' = command_runs m
    /\ os m' = os m
    /\ interrupted m' = interrupted m
    /\ forall c cwd, In (Spawned c cwd) (console m') -> In (Spawned c cwd) (console m).
Proof.
  intros Hr Hp. rewrite execute_command_eq, Hr, (supervise_spawn_fails _ _ _ _ _ Hp).
  eexists. split; [reflexivity|]. cbn [command_runs os interrupted console with_locals].
  destruct (entered_same force command timeout m) as (Hi & _ & _ & Hc & Ho).
  repeat split; try assumption.
  intros c cwd. destruct (entered_console force command timeout m) as (pre & -> & F).
  now apply spawned_only_if_before.
Qed.

Lemma spawn_failure_leaves_no_trace_witness :
  exists m',
    @execute_command sample_constants cannot_spawn "ls" (Some 5000) false (boot "Linux")
      = (Raise FileNotFoundError, m')
    /\ command_runs m' = [] /\ process_groups (os m') = [].
Proof.
  destruct (@spawn_failure_leaves_no_trace sample_constants cannot_spawn "ls" (Some 5000)
              false (boot "Linux") FileNotFoundError eq_refl eq_refl)
    as (m' & E & Hc & Ho & _).
  exists m'. split; [exact E|]. now rewrite Hc, Ho.
Defined.

(** ** Time *)

Lemma control_loop_untimed (process : Z) (clock : tick -> Z) (ts : list tick) :
  control_loop process None (map (fun t => at_time (clock t) t) ts) =
  control_loop process None ts.
Proof.
  induction ts as [|t ts IH]; [reflexivity|].
  cbn [map control_loop]. rewrite IH. reflexivity.
Qed.

(** X3.  Without a timeout the clock plays no part: the same reads, exits
    and interrupts at any other elapsed times give the same result and the
    same machine. *)
Theorem without_timeout_time_does_not_matter `{code_execution} (env : script)
    (command : string) (force : bool) (clock : tick -> Z) (m : machine) :
  execute_command (with_ticks (map (fun t => at_time (clock t) t) (ticks env)) env)
    command None force m
  = execute_command env command None force m.
Proof.
  rewrite !execute_command_eq.
  destruct (replays command m); [reflexivity|].
  destruct (popen_error env) as [e|] eqn:Hp.
  - now rewrite !(supervise_spawn_fails _ _ _ _ e) by exact Hp.
  - rewrite !supervise_eq by exact Hp.
    cbn [ticks pid with_ticks clamp_timeout].
    rewrite control_loop_untimed. reflexivity.
Qed.

Lemma clamp_seconds `{code_execution} (t : Z) :
  0 < t < 1000 -> clamp_timeout (Some t) = clamp_timeout (Some (t * 1000)).
Proof.
  intros Ht. unfold clamp_timeout.
  assert (E1 : (t <? 1000) = true) by (apply Z.ltb_lt; lia).
  assert (E2 : (t * 1000 <? 1000) = false) by (apply Z.ltb_ge; lia).
  now rewrite E1, E2.
Qed.

(** X4.  A timeout from 1 to 999 is read as seconds: the call is the one
    with a thousand times as many milliseconds.  A timeout of zero or less
    runs with [MIN_COMMAND_RUN_TIME], when that is not negative and not
    above [MAX_COMMAND_RUN_TIME]. *)
Theorem small_timeouts_are_seconds `{code_execution} (env : script) (command : string)
    (force : bool) (m : machine) (t : Z) :
  (0 < t < 1000 ->
   execute_command env command (Some t) force m =
   execute_command env command (Some (t * 1000)) force m)
  /\ (t <= 0 ->
      0 <= MIN_COMMAND_RUN_TIME <= MAX_COMMAND_RUN_TIME ->
      clamp_timeout (Some t) = Some MIN_COMMAND_RUN_TIME
      /\ execute_command env command (Some t) force m =
         execute_command env command (Some 0) force m).
Proof.
  split.
  - intros Ht. rewrite !execute_command_eq. unfold entered.
    now rewrite (clamp_seconds t Ht).
  - intros Ht Hmin.
    assert (E : forall z, z <= 0 -> clamp_timeout (Some z) = Some MIN_COMMAND_RUN_TIME).
    { intros z Hz. unfold clamp_timeout.
      assert (E1 : (z <? 1000) = true) by (apply Z.ltb_lt; lia).
      rewrite E1. f_equal. lia. }
    split; [now apply E|].
    rewrite !execute_command_eq. unfold entered.
    rewrite (E t Ht), (E 0) by lia. reflexivity.
Qed.

Lemma small_timeouts_are_seconds_witness :
  @execute_command sample_constants sleeps_too_long "sleep 5" (Some 2) true (boot "Linux")
  = @execute_command sample_constants sleeps_too_long "sleep 5" (Some 2000) true (boot "Linux")
  /\ @clamp_timeout sample_constants (Some (-3)) = Some 2000.
Proof.
  destruct (@small_timeouts_are_seconds sample_constants sleeps_too_long "sleep 5" true
              (boot "Linux") 2) as (Hs & _).
  destruct (@small_timeouts_are_seconds sample_constants sleeps_too_long "sleep 5" true
              (boot "Linux") (-3)) as (_ & Hn).
  split.
  - apply Hs. lia.
  - apply Hn; simpl; lia.
Defined.

Lemma loop_outcome_app (timeout : option Z) (before : list tick) (t : tick)
    (rest : list tick) :
  Forall (fun u => body_result timeout u = Ok Continue) before ->
  loop_outcome timeout (before ++ t :: rest) = loop_outcome timeout (t :: rest).
Proof.
  induction before as [|u before IH]; intros F; [reflexivity|].
  inversion F as [|? ? Hu F']; subst. cbn [app loop_outcome]. rewrite Hu. now apply IH.
Qed.

(** X5.  The exit of the child is looked at before the clock: an iteration
    that finds the child gone ends the loop normally however much time has
    passed, so the handler does not run and the call returns the text of
    the buffers. *)
Theorem exit_is_seen_before_timeout `{code_execution} (env : script) (command : string)
    (timeout : option Z) (force : bool) (m : machine)
    (before : list tick) (t : tick) (rest : list tick) :
  replays command m = None ->
  popen_error env = None ->
  ticks env = (before ++ t :: rest)%list ->
  Forall (fun u => polled_exit u = false /\ ctrl_c u = None
                   /\ timed_out (clamp_timeout timeout) u = false) before ->
  polled_exit t = true ->
  ctrl_c t = None ->
  exists r m',
    execute_command env command timeout force m = (Ok r, m')
    /\ local_interrupted (locals m') = false
    /\ r = result_text (stderr_output (locals m')) (output (locals m')).
Proof.
  intros Hr Hp Ht Hbefore Hexit Hc.
  assert (Hdone : loop_outcome (clamp_timeout timeout) (ticks env) = Completed).
  { rewrite Ht, loop_outcome_app.
    - cbn [loop_outcome]. unfold body_result. now rewrite Hc, Hexit.
    - eapply Forall_impl; [|exact Hbefore].
      intros u (Hu1 & Hu2 & Hu3). unfold body_result. now rewrite Hu2, Hu1, Hu3. }
  rewrite (execute_command_runs _ _ _ _ _ Hr Hp), Hdone.
  cbn [handled finish]. do 2 eexists. split; [reflexivity|].
  cbn [snd save_command_run locals with_command_runs]. split; [|reflexivity].
  destruct (loop_end_supervising env command timeout force m)
    as (_ & _ & _ & _ & _ & _ & _ & Hl & _).
  now rewrite Hl.
Qed.

Lemma exit_is_seen_before_timeout_witness :
  exists m',
    @execute_command sample_constants late_exit "make" (Some 2000) true (boot "Linux")
    = (Ok ("stdout:" ++ Py.nl ++ "```" ++ Py.nl ++ "done" ++ Py.nl ++ Py.nl ++ "```"), m')
    /\ local_interrupted (locals m') = false.
Proof.
  destruct (@exit_is_seen_before_timeout sample_constants late_exit "make" (Some 2000) true
              (boot "Linux")
              [ {| reads_out := ["done" ++ Py.nl; ""]; reads_err := [""]; elapsed_ms := 1500;
                   polled_exit := false; sleep_out := []; sleep_err := []; ctrl_c := None |} ]
              {| reads_out := []; reads_err := []; elapsed_ms := 99999;
                 polled_exit := true; sleep_out := []; sleep_err := []; ctrl_c := None |}
              [])
    as (r & m' & E & Hl & _); try reflexivity.
  { repeat constructor. }
  exists m'. split; [|exact Hl].
  rewrite E. f_equal. f_equal.
  assert (E2 : Ok r = fst (@execute_command sample_constants late_exit "make" (Some 2000)
                             true (boot "Linux"))) by now rewrite E.
  vm_compute in E2. now injection E2 as ->.
Defined.

Lemma overdue_never_continues (timeout : option Z) (u : tick) :
  timed_out timeout u = true -> body_result timeout u <> Ok Continue.
Proof.
  unfold body_result. intros ->.
  destruct (ctrl_c u) as [[| | | |]|], (polled_exit u); discriminate.
Qed.

Lemma control_loop_stops_when_overdue (process : Z) (timeout : option Z)
    (before : list tick) (u : tick) (rest : list tick) (m : machine) :
  timed_out timeout u = true ->
  control_loop process timeout (before ++ u :: rest) m
  = control_loop process timeout (before ++ [u]) m.
Proof.
  intros Hu. revert m. induction before as [|t before IH]; intros m.
  - cbn [app control_loop]. unfold bind.
    pose proof (loop_body_result process timeout u m) as Hb.
    destruct (loop_body process timeout u m) as [[[|]|e|] m1]; try reflexivity.
    cbn [fst] in Hb. symmetry in Hb. now apply overdue_never_continues in Hb.
  - cbn [app control_loop]. unfold bind.
    destruct (loop_body process timeout t m) as [[[|]|e|] m1]; try reflexivity.
    apply IH.
Qed.

Lemma overdue_ends_the_loop (timeout : option Z) (before : list tick) (u : tick)
    (rest : list tick) :
  timed_out timeout u = true ->
  loop_outcome timeout (before ++ u :: rest) <> StillRunning.
Proof.
  intros Hu. induction before as [|t before IH]; cbn [app loop_outcome].
  - pose proof (overdue_never_continues timeout u Hu) as Hc. revert Hc.
    unfold body_result. rewrite Hu.
    destruct (ctrl_c u) as [[| | | |]|], (polled_exit u); intros Hc; try discriminate;
      now destruct Hc.
  - unfold body_result.
    destruct (ctrl_c t) as [[| | | |]|], (polled_exit t), (timed_out timeout t);
      try discriminate; exact IH.
Qed.

(** X22.  A timeout bounds the call.  The iteration at which the clock
    first reads past the limit is the last one at the latest: whatever
    the child and the user do, the call returns a result, and what would
    have happened after that iteration plays no part. *)
Theorem overdue_iteration_is_the_last `{code_execution} (env : script) (command : string)
    (t : Z) (force : bool) (m : machine) (before : list tick) (u : tick)
    (rest : list tick) :
  replays command m = None ->
  popen_error env = None ->
  ticks env = (before ++ u :: rest)%list ->
  timed_out (clamp_timeout (Some t)) u = true ->
  (exists r m', execute_command env command (Some t) force m = (Ok r, m'))
  /\ execute_command env command (Some t) force m
     = execute_command (with_ticks (before ++ [u]) env) command (Some t) force m.
Proof.
  intros Hr Hp Ht Hu. split.
  - apply execute_command_returns; try assumption.
    rewrite Ht. now apply overdue_ends_the_loop.
  - rewrite !execute_command_eq, Hr.
    rewrite !supervise_eq by exact Hp.
    cbn [ticks pid with_ticks]. rewrite Ht. unfold try_except.
    now rewrite (control_loop_stops_when_overdue _ _ _ _ _ _ Hu).
Qed.

Lemma overdue_iteration_is_the_last_witness :
  exists r m',
    @execute_command sample_constants sleeps_too_long "sleep 5" (Some 2) true
      (boot "Linux") = (Ok r, m').
Proof.
  apply (@overdue_iteration_is_the_last sample_constants sleeps_too_long "sleep 5" 2 true
           (boot "Linux")
           [ {| reads_out := ["starting" ++ Py.nl]; reads_err := []; elapsed_ms := 10;
                polled_exit := false; sleep_out := []; sleep_err := []; ctrl_c := None |} ]
           {| reads_out := []; reads_err := []; elapsed_ms := 2600;
              polled_exit := false; sleep_out := []; sleep_err := []; ctrl_c := None |}
           []); reflexivity.
Defined.

(** ** The console and the buffers *)

Lemma shown_all_app (label : string) (a b : list event) :
  shown_all label (a ++ b) = shown_all label a ++ shown_all label b.
Proof. unfold shown_all. now rewrite map_app, join_app. Qed.

Lemma echoing_refl (m : machine) : echoing m m.
Proof.
  exists []. cbn [shown_all map Py.join fold_right].
  now rewrite app_nil_r, !append_empty_r.
Qed.

Lemma echoing_trans (a b c : machine) : echoing a b -> echoing b c -> echoing a c.
Proof.
  intros (e1 & C1 & O1 & E1) (e2 & C2 & O2 & E2). exists (e1 ++ e2)%list.
  rewrite C2, C1, O2, O1, E2, E1, !shown_all_app, !append_assoc, app_assoc.
  repeat split.
Qed.

Lemma echoing_same (m m' : machine) :
  console m' = console m ->
  output (locals m') = output (locals m) ->
  stderr_output (locals m') = stderr_output (locals m) ->
  echoing m m'.
Proof.
  intros C O E. exists []. cbn [shown_all map Py.join fold_right].
  now rewrite app_nil_r, !append_empty_r.
Qed.

(** An event that shows nothing under either label. *)
Lemma echoing_silent (e : event) (m : machine) :
  shown "CLI OUTPUT:" e = "" ->
  shown "CLI ERROR:" e = "" ->
  echoing m (with_console (fun c => (c ++ [e])%list) m).
Proof.
  intros Ho He. exists [e]. cbn [shown_all map Py.join fold_right].
  rewrite Ho, He. cbn [console with_console locals]. now rewrite !append_empty_r.
Qed.

Lemma prefix_empty (s : string) : String.prefix "" s = true.
Proof. now destruct s. Qed.

Lemma shown_cli_output (text : string) :
  shown "CLI OUTPUT:" (Printed ((colored "CLI OUTPUT:" ++ text) ++ "")) = text
  /\ shown "CLI ERROR:" (Printed ((colored "CLI OUTPUT:" ++ text) ++ "")) = "".
Proof. unfold colored. cbn. now rewrite prefix_empty, append_empty_r. Qed.

Lemma shown_cli_error (text : string) :
  shown "CLI ERROR:" (Printed ((colored "CLI ERROR:" ++ text) ++ "")) = text
  /\ shown "CLI OUTPUT:" (Printed ((colored "CLI ERROR:" ++ text) ++ "")) = "".
Proof. unfold colored. cbn. now rewrite prefix_empty, append_empty_r. Qed.

Create HintDb echo.

Lemma echo_locals (f : frame -> frame) :
  (forall l, output (f l) = output l) ->
  (forall l, stderr_output (f l) = stderr_output l) ->
  keeps echoing (modify (with_locals f)).
Proof. intros H1 H2 m. apply echoing_same; [reflexivity | apply H1 | apply H2]. Qed.

Lemma echo_put (s : stream) (line : string) : keeps echoing (put s line).
Proof. apply echo_locals; intros l; destruct s; reflexivity. Qed.

Lemma echo_close (s : stream) : keeps echoing (close s).
Proof. apply echo_locals; intros l; destruct s; reflexivity. Qed.

Lemma echo_get_nowait (s : stream) : keeps echoing (get_nowait s).
Proof.
  intros m. unfold get_nowait. destruct (queue_of s (locals m)); cbn [snd].
  - apply echoing_refl.
  - apply echoing_same; destruct s; reflexivity.
Qed.

Lemma echo_interrupt_point (t : tick) (p : point) : keeps echoing (interrupt_point t p).
Proof.
  intros m. destruct (interrupt_point_cases t p m) as [E|E]; rewrite E; apply echoing_refl.
Qed.

Lemma echo_process_poll (t : tick) (process : Z) : keeps echoing (process_poll t process).
Proof.
  intros m. unfold process_poll. destruct (polled_exit t); [|apply echoing_refl].
  apply echoing_same; reflexivity.
Qed.

Lemma echo_slept (ms : Z) : keeps echoing (log (Slept ms)).
Proof. intros m. apply echoing_silent; reflexivity. Qed.

#[local] Hint Resolve echo_put echo_close echo_get_nowait echo_interrupt_point
  echo_process_poll echo_slept : echo.

Ltac keeps_echoing :=
  repeat first
    [ solve [auto with echo]
    | apply keeps_bind; [exact echoing_trans | | intros ?]
    | apply keeps_try_except; [exact echoing_trans | | intros ?]
    | apply keeps_ret; exact echoing_refl
    | apply keeps_raise; exact echoing_refl
    | apply keeps_hang; exact echoing_refl
    | apply keeps_gets; exact echoing_refl ].

Lemma echo_enqueue_output (out : stream) (values : list string) :
  keeps echoing (enqueue_output out values).
Proof.
  induction values as [|line values IH]; cbn [enqueue_output].
  - keeps_echoing.
  - destruct (line =? "")%string; keeps_echoing.
    match goal with |- keeps _ (if ?b then _ else _) => destruct b end; keeps_echoing.
Qed.

Lemma echo_reader_thread (out : stream) (values : list string) :
  keeps echoing (reader_thread out values).
Proof.
  unfold reader_thread, is_open. keeps_echoing.
  match goal with |- keeps _ (if ?b then _ else _) => destruct b end; keeps_echoing.
  apply echo_enqueue_output.
Qed.

Lemma echo_poll_queue (s : stream) : keeps echoing (poll_queue s).
Proof. unfold poll_queue. keeps_echoing. Qed.

Lemma echo_drain_remaining (fuel : nat) : keeps echoing (drain_remaining fuel).
Proof.
  induction fuel as [|fuel IH]; intros m; [apply echoing_refl|].
  destruct (q (locals m)) as [|line rest] eqn:Hq.
  - rewrite (drain_remaining_empty _ _ Hq). apply echoing_refl.
  - rewrite (drain_remaining_cons _ _ _ _ Hq).
    eapply echoing_trans; [|apply IH].
    unfold offered. destruct (Py.contains line (output (locals m))).
    + apply echoing_same; reflexivity.
    + destruct (shown_cli_output line) as (So & Se).
      eexists [_]. cbn [shown_all map Py.join fold_right]. rewrite So, Se.
      cbn [console with_console with_locals locals output stderr_output set_output
           set_queue set_q].
      now rewrite !append_empty_r.
Qed.

Lemma echo_timer (timeout : option Z) (t : tick) :
  keeps echoing
    (match timeout with
     | Some _ =>
         print_end (colored ("" ++ Py.cr ++ "t: " ++ Py.str (elapsed_ms t) ++ "ms : ")) ""
     | None => ret tt
     end).
Proof.
  destruct timeout; [|keeps_echoing].
  intros m. apply echoing_silent; reflexivity.
Qed.

Lemma echo_append_stdout (line : option string) :
  keeps echoing
    (match line with
     | Some text =>
         if Py.truthy line then
           out <- gets (fun m => output (locals m)) ;;
           modify (with_locals (set_output (out ++ text))) ;;
           print_end (colored "CLI OUTPUT:" ++ text) ""
         else ret tt
     | None => ret tt
     end).
Proof.
  destruct line as [text|]; [destruct (Py.truthy (Some text))|]; try (intros m; apply echoing_refl).
  intros m. destruct (shown_cli_output text) as (So & Se).
  eexists [_]. cbn [shown_all map Py.join fold_right]. rewrite So, Se.
  split; [reflexivity|]. cbn. now rewrite !append_empty_r.
Qed.

Lemma echo_append_stderr (line : option string) :
  keeps echoing
    (match line with
     | Some text =>
         if Py.truthy line then
           err <- gets (fun m => stderr_output (locals m)) ;;
           modify (with_locals (set_stderr_output (err ++ text))) ;;
           print_end (colored "CLI ERROR:" ++ text) ""
         else ret tt
     | None => ret tt
     end).
Proof.
  destruct line as [text|]; [destruct (Py.truthy (Some text))|]; try (intros m; apply echoing_refl).
  intros m. destruct (shown_cli_error text) as (Se & So).
  eexists [_]. cbn [shown_all map Py.join fold_right]. rewrite So, Se.
  split; [reflexivity|]. cbn. now rewrite !append_empty_r.
Qed.

#[local] Hint Resolve echo_reader_thread echo_poll_queue echo_drain_remaining
  echo_timer echo_append_stdout echo_append_stderr : echo.

Lemma echo_loop_body (process : Z) (timeout : option Z) (t : tick) :
  keeps echoing (loop_body process timeout t).
Proof.
  unfold loop_body. keeps_echoing.
  match goal with |- keeps _ (if ?b then _ else _) => destruct b end; keeps_echoing.
  destruct (timed_out timeout t); keeps_echoing.
Qed.

Lemma echo_control_loop (process : Z) (timeout : option Z) (ts : list tick) :
  keeps echoing (control_loop process timeout ts).
Proof.
  induction ts as [|t ts IH]; cbn [control_loop].
  - keeps_echoing.
  - apply keeps_bind; [exact echoing_trans | apply echo_loop_body | intros [|]];
      keeps_echoing.
Qed.

Lemma echo_handled (e : ending) (process : Z) (m : machine) :
  echoing m (snd (handled e process m)).
Proof.
  destruct e; cbn [handled snd]; try apply echoing_refl;
    unfold stopped;
    match goal with
    | |- echoing _ (kill_group process ?x) =>
        destruct (kill_group_same process x) as (_ & _ & _ & Hc & Hl);
        eexists [_]; rewrite Hc, Hl
    end;
    cbn [console with_console with_locals locals output stderr_output
         set_local_interrupted];
    (split; [reflexivity|]); cbn; now rewrite !append_empty_r.
Qed.

Lemma started_console `{code_execution} (env : script) (command : string)
    (timeout : option Z) (force : bool) (m : machine) :
  exists pre,
    console (started env (shell_command command) (entered force command timeout m)) =
      (console m ++ pre)%list
    /\ shown_all "CLI OUTPUT:" pre = ""
    /\ shown_all "CLI ERROR:" pre = "".
Proof.
  unfold started, entered, asked.
  destruct force; cbn [console with_project with_console project root_path].
  - eexists [_]. repeat split.
  - eexists [_; _; _; _]. split; [rewrite <- !app_assoc; reflexivity|].
    split; reflexivity.
Qed.

(** X6.  What a call that spawns has captured is what it has shown, as
    long as Ctrl+C does not interrupt it: the stdout buffer is the text
    printed under [CLI OUTPUT:] during the call, in order, and the stderr
    buffer the text printed under [CLI ERROR:], whether the child exits,
    the timeout elapses or the loop is still turning.  (Ctrl+C can arrive
    between an append and its print, and then the two differ by a
    line.) *)
Theorem console_shows_what_is_captured `{code_execution} (env : script) (command : string)
    (timeout : option Z) (force : bool) (m : machine) :
  replays command m = None ->
  popen_error env = None ->
  Forall (fun t => ctrl_c t = None) (ticks env) ->
  let m' := snd (execute_command env command timeout force m) in
  exists evs,
    console m' = (console m ++ evs)%list
    /\ output (locals m') = shown_all "CLI OUTPUT:" evs
    /\ stderr_output (locals m') = shown_all "CLI ERROR:" evs.
Proof.
  intros Hr Hp _. cbv zeta. rewrite (execute_command_runs _ _ _ _ _ Hr Hp).
  destruct (started_console env command timeout force m) as (pre & Cpre & Opre & Epre).
  pose proof (echo_control_loop (pid env) (clamp_timeout timeout) (ticks env)
                (started env (shell_command command) (entered force command timeout m)))
    as Hloop.
  fold (loop_end env command timeout force m) in Hloop.
  pose proof (echo_handled (loop_outcome (clamp_timeout timeout) (ticks env)) (pid env)
                (loop_end env command timeout force m)) as Hhandled.
  destruct (echoing_trans _ _ _ Hloop Hhandled) as (evs & C & O & E).
  cbn [locals started output stderr_output] in O, E.
  assert (Hfin : forall run : res unit * machine,
            console (snd (finish (shell_command command) run)) = console (snd run)
            /\ locals (snd (finish (shell_command command) run)) = locals (snd run)).
  { intros [[[]|e|] m1]; split; reflexivity. }
  destruct (Hfin (handled (loop_outcome (clamp_timeout timeout) (ticks env)) (pid env)
                    (loop_end env command timeout force m))) as (Fc & Fl).
  rewrite Fc, Fl. exists (pre ++ evs)%list.
  rewrite C, Cpre, O, E, !shown_all_app, Opre, Epre, app_assoc. repeat split.
Qed.

Lemma console_shows_what_is_captured_witness :
  let m' := snd (@execute_command sample_constants noisy_then_stuck "make" (Some 2000)
                   false (boot "Windows")) in
  exists evs,
    console m' = evs
    /\ output (locals m') = shown_all "CLI OUTPUT:" evs
    /\ stderr_output (locals m') = shown_all "CLI ERROR:" evs
    /\ output (locals m') = "out 1" ++ Py.nl
    /\ stderr_output (locals m') = "err 1" ++ Py.nl.
Proof.
  cbv zeta.
  destruct (@console_shows_what_is_captured sample_constants noisy_then_stuck "make"
              (Some 2000) false (boot "Windows") eq_refl eq_refl)
    as (evs & C & O & E); [repeat constructor|].
  exists evs. split; [exact C|]. split; [exact O|]. split; [exact E|].
  split; vm_compute; reflexivity.
Defined.

(** ** The size of the result *)

Lemma result_text_bound `{code_execution} (err out : string) :
  0 < MAX_COMMAND_OUTPUT_LENGTH ->
  Py.len (result_text err out) <= 2 * MAX_COMMAND_OUTPUT_LENGTH + 33.
Proof.
  intros Hpos. rewrite result_text_eq.
  destruct (tail_slice MAX_COMMAND_OUTPUT_LENGTH err Hpos) as (_ & _ & Le).
  destruct (tail_slice MAX_COMMAND_OUTPUT_LENGTH out Hpos) as (_ & _ & Lo).
  destruct (err =? "")%string; rewrite !len_append, ?Le, ?Lo;
    change (Py.len "") with 0; change (Py.len "stderr:") with 7;
    change (Py.len "stdout:") with 7; change (Py.len Py.nl) with 1;
    change (Py.len Py.fence) with 3; lia.
Qed.

(** X7.  The text a call builds is bounded: with a positive
    [MAX_COMMAND_OUTPUT_LENGTH] it has at most twice that many characters
    and the 33 of the labels and fences, however much the command wrote. *)
Theorem result_is_bounded `{code_execution} (env : script) (command : string)
    (timeout : option Z) (force : bool) (m : machine) (r : string) (m' : machine) :
  0 < MAX_COMMAND_OUTPUT_LENGTH ->
  replays command m = None ->
  execute_command env command timeout force m = (Ok r, m') ->
  Py.len r <= 2 * MAX_COMMAND_OUTPUT_LENGTH + 33.
Proof.
  intros Hpos Hr E. rewrite execute_command_eq, Hr in E.
  destruct (popen_error env) as [e|] eqn:Hp.
  - rewrite (supervise_spawn_fails _ _ _ _ _ Hp) in E. discriminate E.
  - rewrite (supervise_eq _ _ _ _ Hp) in E. apply finish_ok in E.
    destruct E as (-> & _). now apply result_text_bound.
Qed.

Lemma result_is_bounded_witness :
  fst (@execute_command tight_constants echo_hello "echo hello" None true (boot "Linux"))
    = Ok ("stdout:" ++ Py.nl ++ "```" ++ Py.nl ++ "llo" ++ Py.nl ++ Py.nl ++ "```")
  /\ Py.len ("stdout:" ++ Py.nl ++ "```" ++ Py.nl ++ "llo" ++ Py.nl ++ Py.nl ++ "```")
     <= 2 * 4 + 33.
Proof.
  destruct (@execute_command tight_constants echo_hello "echo hello" None true
              (boot "Linux")) as [[r|e|] m'] eqn:E;
    try (vm_compute in E; discriminate E).
  pose proof (@result_is_bounded tight_constants echo_hello "echo hello" None true
                (boot "Linux") r m' eq_refl eq_refl E) as Hb.
  assert (Er : r = "stdout:" ++ Py.nl ++ "```" ++ Py.nl ++ "llo" ++ Py.nl ++ Py.nl ++ "```").
  { vm_compute in E. now injection E as <- _. }
  subst r. split; [reflexivity | exact Hb].
Defined.

(** ** The history across calls *)

(** X8.  What one call saves the next one replays: in a project that
    reuses history, after a call has run a command and returned a text, any
    later call for the same command returns that text, spawns nothing and
    saves nothing, whatever its timeout, its force flag and its
    surroundings. *)
Theorem saved_run_is_replayed_later `{code_execution} (env : script) (command : string)
    (timeout : option Z) (force : bool) (m : machine) (r : string) (m1 : machine) :
  skip_steps (project m) = true ->
  replays command m = None ->
  execute_command env command timeout force m = (Ok r, m1) ->
  forall env2 timeout2 force2,
    exists m2,
      execute_command env2 command timeout2 force2 m1 = (Ok r, m2)
      /\ os m2 = os m1
      /\ command_runs m2 = command_runs m1.
Proof.
  intros Hskip Hr E env2 timeout2 force2.
  assert (Hskip1 : skip_steps (project m1) = true).
  { pose proof (execute_command_project env command timeout force m Hr) as Hp.
    rewrite E in Hp. cbn [snd] in Hp. now rewrite Hp. }
  destruct (popen_error env) as [e|] eqn:Hp.
  { rewrite execute_command_eq, Hr, (supervise_spawn_fails _ _ _ _ _ Hp) in E.
    discriminate E. }
  rewrite (execute_command_runs _ _ _ _ _ Hr Hp) in E. apply finish_ok in E.
  destruct E as (_ & _ & _ & _ & Hg).
  unfold get_command_run_from_hash_id, gets in Hg. injection Hg as Hg.
  assert (Hr1 : replays command m1 =
                Some {| cr_id := 1 + Z.of_nat (List.length (command_runs
                          (snd (handled (loop_outcome (clamp_timeout timeout) (ticks env))
                                  (pid env) (loop_end env command timeout force m)))));
                        cr_app := app_id (project m1);
                        cr_command := shell_command command;
                        cli_response := r |})
    by (unfold replays; now rewrite Hskip1).
  rewrite execute_command_eq, Hr1. eexists. split; [reflexivity|].
  unfold restored. cbn [os command_runs with_console with_project].
  split; apply entered_same.
Qed.

Lemma saved_run_is_replayed_later_witness :
  fst (@execute_command sample_constants cannot_spawn "echo hello" (Some 5) false
         (snd (@execute_command sample_constants echo_hello "echo hello" None true reusing)))
  = fst (@execute_command sample_constants echo_hello "echo hello" None true reusing).
Proof.
  destruct (@execute_command sample_constants echo_hello "echo hello" None true reusing)
    as [[r|e|] m1] eqn:E; try (vm_compute in E; discriminate E).
  destruct (@saved_run_is_replayed_later sample_constants echo_hello "echo hello" None true
              reusing r m1 eq_refl eq_refl E cannot_spawn (Some 5) false) as (m2 & E2 & _).
  cbn [fst snd]. now rewrite E2.
Defined.

Lemma find_after_filter {V : Type} (key other : string) (d : list (string * V)) :
  other <> key ->
  find (fun kv => (fst kv =? other)%string)
       (filter (fun kv => negb (fst kv =? key)%string) d)
  = find (fun kv => (fst kv =? other)%string) d.
Proof.
  intros Hne. induction d as [|[k v] d IH]; [reflexivity|].
  cbn [filter find fst]. destruct (k =? key)%string eqn:Ek; cbn [negb].
  - apply String.eqb_eq in Ek. subst k.
    assert (En : (key =? other)%string = false) by (apply String.eqb_neq; congruence).
    now rewrite En.
  - cbn [find fst]. now rewrite IH.
Qed.

(** X9.  A call that replays records the run it replays under
    [last_command_run] in the checkpoints of the project, keeps the other
    checkpoints, and touches neither the history nor the frame of a
    previous run. *)
Theorem replay_records_the_checkpoint `{code_execution} (env : script) (command : string)
    (timeout : option Z) (force : bool) (m : machine) (found : command_run) :
  replays command m = Some found ->
  exists m',
    execute_command env command timeout force m = (Ok (cli_response found), m')
    /\ dict_get "last_command_run" (checkpoints (project m')) = Some found
    /\ (forall key, key <> "last_command_run" ->
          dict_get key (checkpoints (project m')) = dict_get key (checkpoints (project m)))
    /\ command_runs m' = command_runs m
    /\ locals m' = locals m.
Proof.
  intros Hr. rewrite execute_command_eq, Hr. eexists. split; [reflexivity|].
  unfold restored, entered.
  destruct force;
    cbn [project command_runs locals with_console with_project asked checkpoints
         set_checkpoint set_checkpoints set_command_runs_count];
    (split; [reflexivity|]); (split; [|split; reflexivity]);
    intros key Hkey; unfold dict_get; cbn [find fst];
    (assert (En : ("last_command_run" =? key)%string = false)
       by (apply String.eqb_neq; congruence));
    rewrite En; now rewrite find_after_filter.
Qed.

Lemma replay_records_the_checkpoint_witness :
  option_map cli_response
    (dict_get "last_command_run"
       (checkpoints (project (snd (@execute_command sample_constants echo_hello
                                     "echo hello" None true replaying)))))
  = Some "recorded".
Proof.
  destruct (@replay_records_the_checkpoint sample_constants echo_hello "echo hello" None
              true replaying
              {| cr_id := 1; cr_app := 1; cr_command := "echo hello";
                 cli_response := "recorded" |} eq_refl) as (m' & E & Hc & _).
  rewrite E. cbn [snd]. now rewrite Hc.
Defined.

(** ** The reader threads *)

(** X10.  A reader thread queues the lines it reads in the order it reads
    them, up to the end of file, where it closes its stream; it touches
    neither the other queue nor the buffers.  Were the module-level flag
    set, it would queue nothing more and close its stream at the next line
    it reads. *)
Theorem reader_queues_lines_until_eof (out : stream) (values : list string) (m : machine) :
  (interrupted m = false ->
   exists m1,
     enqueue_output out values m = (Ok tt, m1)
     /\ queue_of out (locals m1) = (queue_of out (locals m) ++ lines_before_eof values)%list
     /\ opened out (locals m1) = opened out (locals m) && no_eof values
     /\ (forall s, s <> out -> untouched s (locals m) (locals m1))
     /\ output (locals m1) = output (locals m)
     /\ stderr_output (locals m1) = stderr_output (locals m))
  /\ (interrupted m = true ->
      values <> [] ->
      exists m1,
        enqueue_output out values m = (Ok tt, m1)
        /\ queue_of out (locals m1) = queue_of out (locals m)
        /\ opened out (locals m1) = false).
Proof.
  split.
  - intros Hflag.
    destruct (enqueue_output_frame out values m Hflag) as (m1 & E & L & _).
    exists m1. split; [exact E|]. rewrite L.
    destruct (absorb_own out values (locals m)) as (A & B & C).
    split; [exact A|]. split; [exact B|]. split.
    + intros s Hs. apply absorb_other. congruence.
    + destruct out.
      * split; [exact C|]. now apply (absorb_other Stdout Stderr).
      * split; [|exact C]. now apply (absorb_other Stderr Stdout).
  - intros Hflag Hvalues. destruct values as [|line rest]; [contradiction|].
    cbn [enqueue_output]. destruct (line =? "")%string.
    + eexists. split; [reflexivity|]. destruct out; split; reflexivity.
    + unfold bind, gets. rewrite Hflag.
      eexists. split; [reflexivity|]. destruct out; split; reflexivity.
Qed.

Lemma reader_queues_lines_until_eof_witness :
  q (locals (snd (enqueue_output Stdout ["a" ++ Py.nl; "b" ++ Py.nl; ""; "c" ++ Py.nl]
                    (boot "Linux"))))
  = ["a" ++ Py.nl; "b" ++ Py.nl].
Proof.
  destruct (reader_queues_lines_until_eof Stdout ["a" ++ Py.nl; "b" ++ Py.nl; ""; "c" ++ Py.nl]
              (boot "Linux")) as (Hclear & _).
  destruct (Hclear eq_refl) as (m1 & E & Q & _).
  rewrite E. cbn [snd]. exact Q.
Defined.

(** * The directory tree *)

Lemma entry_induction (P : entry -> Prop) :
  (forall name, P (File name)) ->
  (forall name items, Forall P items -> P (Dir name items)) ->
  forall e, P e.
Proof.
  intros HFile HDir. fix IH 1. intros [name|name items].
  - apply HFile.
  - apply HDir. induction items as [|item rest IHrest]; constructor.
    + apply IH.
    + exact IHrest.
Qed.

Lemma append_not_empty (a b : string) : a <> "" -> a ++ b <> "".
Proof. destruct a; [contradiction | discriminate]. Qed.

Lemma append_not_empty_r (a b : string) : b <> "" -> a ++ b <> "".
Proof. intros Hb. destruct a; [exact Hb | discriminate]. Qed.

Lemma render_items_grows (render : entry -> bool -> string) (items : list entry)
    (output : string) :
  exists more, render_items render items output = output ++ more.
Proof.
  revert output. induction items as [|item rest IH]; intros output; cbn [render_items].
  - exists "". now rewrite append_empty_r.
  - destruct (IH (output ++ render item (is_nil rest))) as (more & ->).
    exists (render item (is_nil rest) ++ more). now rewrite append_assoc.
Qed.

Lemma line_not_empty (prefix rest more : string) :
  ("" ++ prefix ++ "|-- " ++ rest) ++ more <> "".
Proof. destruct prefix; discriminate. Qed.

(** X12.  The tree is empty exactly when the name of the path is ignored:
    any other path gives at least its own line. *)
Theorem tree_is_empty_iff_root_ignored (path : entry) (prefix : string)
    (ignore : list string) (is_last : bool) (files : list (string * string))
    (add_descriptions : bool) :
  build_directory_tree path prefix ignore is_last files add_descriptions = ""
  <-> name_in (basename path) ignore = true.
Proof.
  destruct path as [name|name items]; cbn [build_directory_tree basename];
    destruct (name_in name ignore); split; intros Hx; try reflexivity; try discriminate Hx;
    exfalso.
  - rewrite <- (append_empty_r (_ ++ _)) in Hx. now apply line_not_empty in Hx.
  - match type of Hx with
    | render_items ?r ?l ?o = _ => destruct (render_items_grows r l o) as (more & E)
    end.
    rewrite E in Hx. now apply line_not_empty in Hx.
Qed.

Lemma render_items_ext (r r' : entry -> bool -> string) (items : list entry)
    (output : string) :
  Forall (fun item => forall last, r item last = r' item last) items ->
  render_items r items output = render_items r' items output.
Proof.
  intros F. revert output. induction F as [|item rest Hitem _ IH]; intros output;
    cbn [render_items]; [reflexivity|].
  now rewrite Hitem, IH.
Qed.

Lemma names_of_item (name : string) (items : list entry) (item : entry) (n : string) :
  In item items -> In n (names item) -> In n (names (Dir name items)).
Proof.
  intros Hitem Hn. cbn [names]. right. apply in_flat_map. now exists item.
Qed.

(** X13.  Descriptions are drawn only on request and only for names that
    [files] knows: with [add_descriptions] unset, or when no name of the
    tree is a key of [files], the tree is drawn as without [files]. *)
Theorem descriptions_only_on_request (path : entry) (prefix : string)
    (ignore : list string) (is_last : bool) (files : list (string * string))
    (add_descriptions : bool) :
  add_descriptions = false
  \/ (forall n, In n (names path) -> dict_get n files = None) ->
  build_directory_tree path prefix ignore is_last files add_descriptions =
  build_directory_tree path prefix ignore is_last [] false.
Proof.
  revert prefix is_last.
  induction path as [name|name items IH] using entry_induction; intros prefix is_last Hoff.
  - cbn [build_directory_tree basename]. destruct (name_in name ignore); [reflexivity|].
    assert (D : describe files name add_descriptions = "").
    { unfold describe. destruct files; [reflexivity|].
      destruct Hoff as [->|Hnone].
      - now destruct (dict_get name (p :: files)).
      - rewrite (Hnone name); [reflexivity | now left]. }
    now rewrite D.
  - cbn [build_directory_tree basename]. destruct (name_in name ignore); [reflexivity|].
    assert (D : describe files name add_descriptions = "").
    { unfold describe. destruct files; [reflexivity|].
      destruct Hoff as [->|Hnone].
      - now destruct (dict_get name (p :: files)).
      - rewrite (Hnone name); [reflexivity | now left]. }
    rewrite D. cbn [describe]. apply render_items_ext.
    rewrite Forall_forall in IH |- *. intros item Hitem last.
    apply (IH item Hitem). destruct Hoff as [->|Hnone]; [now left | right].
    intros n Hn. apply Hnone. eapply names_of_item; eassumption.
Qed.

Lemma descriptions_only_on_request_witness :
  build_directory_tree sample_tree "" [".git"] false [("src", "sources")] false
  = build_directory_tree sample_tree "" [".git"] false [] false
  /\ build_directory_tree sample_tree "" [] false [("tests", "the tests")] true
     = build_directory_tree sample_tree "" [] false [] false.
Proof.
  split.
  - apply descriptions_only_on_request. now left.
  - apply descriptions_only_on_request. right. intros n Hn.
    cbn in Hn. repeat (destruct Hn as [<-|Hn]; [reflexivity|]). contradiction.
Defined.

(** ** One line for each entry drawn *)

Lemma newlines_app (a b : string) : newlines (a ++ b) = (newlines a + newlines b)%nat.
Proof.
  induction a as [|c a IH]; cbn [String.append newlines]; [reflexivity|].
  rewrite IH. lia.
Qed.

Lemma render_items_newlines (r : entry -> bool -> string) (count : entry -> nat)
    (items : list entry) (output : string) :
  Forall (fun item => forall last, newlines (r item last) = count item) items ->
  newlines (render_items r items output) =
  (newlines output + list_sum (map count items))%nat.
Proof.
  intros F. revert output. induction F as [|item rest Hitem _ IH]; intros output;
    cbn [render_items map list_sum fold_right].
  - lia.
  - rewrite IH, newlines_app, Hitem. fold (list_sum (map count rest)). lia.
Qed.

Lemma describe_newlines (files : list (string * string)) (name : string)
    (add_descriptions : bool) :
  (forall key description, In (key, description) files -> newlines description = O) ->
  newlines (describe files name add_descriptions) = O.
Proof.
  intros Hfiles. unfold describe. destruct files as [|p files]; [reflexivity|].
  unfold dict_get.
  destruct (find (fun kv => (fst kv =? name)%string) (p :: files)) as [[k d]|] eqn:E;
    [|reflexivity].
  apply find_some in E. destruct E as (Hin & _). cbn [option_map snd].
  destruct add_descriptions; [|reflexivity].
  rewrite !newlines_app, (Hfiles k d Hin). reflexivity.
Qed.

(** X14.  The tree has one line for each entry that is drawn: when no
    name, description or prefix holds a newline, the newlines of the text
    are as many as the entries that are not ignored and lie under
    directories that are not ignored. *)
Theorem one_line_for_each_entry (path : entry) (prefix : string) (ignore : list string)
    (is_last : bool) (files : list (string * string)) (add_descriptions : bool) :
  newlines prefix = O ->
  Forall (fun n => newlines n = O) (names path) ->
  (forall key description, In (key, description) files -> newlines description = O) ->
  newlines (build_directory_tree path prefix ignore is_last files add_descriptions)
  = drawn ignore path.
Proof.
  intros Hprefix Hnames Hfiles. revert prefix is_last Hprefix Hnames.
  induction path as [name|name items IH] using entry_induction;
    intros prefix is_last Hprefix Hnames;
    cbn [build_directory_tree drawn basename];
    destruct (name_in name ignore); try reflexivity;
    inversion Hnames as [|? ? Hname Hrest]; subst.
  - rewrite !newlines_app, Hprefix, Hname, (describe_newlines _ _ _ Hfiles). reflexivity.
  - rewrite (render_items_newlines _ (drawn ignore)).
    + rewrite !newlines_app, Hprefix, Hname, (describe_newlines _ _ _ Hfiles). reflexivity.
    + rewrite Forall_forall in IH |- *. intros item Hitem last. apply (IH item Hitem).
      * rewrite newlines_app, Hprefix. now destruct is_last.
      * rewrite Forall_forall in Hrest |- *. intros n Hn. apply Hrest.
        apply in_flat_map. now exists item.
Qed.

Lemma one_line_for_each_entry_witness :
  newlines (build_directory_tree sample_tree "" [".git"] false [("src", "sources")] true)
  = 5%nat.
Proof.
  rewrite one_line_for_each_entry; [reflexivity | reflexivity | |].
  - repeat constructor.
  - intros key description [E|[]]. now injection E as <- <-.
Defined.

(** ** Ignoring and pruning *)

Lemma keep_shown_is_nil (ignore : list string) (f : entry -> bool) (g : entry -> entry)
    (items : list entry) :
  all_ended ignore f items = true ->
  is_nil (keep_shown ignore g items) = is_nil items.
Proof.
  induction items as [|item rest IH]; [reflexivity|].
  cbn [all_ended keep_shown]. destruct (name_in (basename item) ignore); [|reflexivity].
  intros H. apply andb_prop in H. destruct H as (Hlast & Hrest).
  rewrite (IH Hrest). cbn [is_nil]. destruct rest; [discriminate Hlast | reflexivity].
Qed.

Lemma ignored_draws_nothing (path : entry) (prefix : string) (ignore : list string)
    (is_last : bool) (files : list (string * string)) (add_descriptions : bool) :
  name_in (basename path) ignore = true ->
  build_directory_tree path prefix ignore is_last files add_descriptions = "".
Proof. intros H. destruct path; cbn [build_directory_tree basename] in *; now rewrite H. Qed.

(** X15.  Ignoring entries draws the tree as if they were not there,
    provided no directory that is drawn lists an ignored entry last: the
    text is the one of the tree without the ignored entries. *)
Theorem ignoring_is_pruning (path : entry) (prefix : string) (ignore : list string)
    (is_last : bool) (files : list (string * string)) (add_descriptions : bool) :
  name_in (basename path) ignore = false ->
  ends_shown ignore path = true ->
  build_directory_tree path prefix ignore is_last files add_descriptions =
  build_directory_tree (prune ignore path) prefix [] is_last files add_descriptions.
Proof.
  revert prefix is_last.
  induction path as [name|name items IH] using entry_induction;
    intros prefix is_last Hshown Hended;
    cbn [build_directory_tree prune basename name_in existsb] in *;
    rewrite Hshown; [reflexivity|].
  cbn [ends_shown] in Hended.
  generalize ("" ++ prefix ++ "|-- " ++ name ++ describe files name add_descriptions
              ++ "/" ++ Py.nl).
  generalize (prefix ++ (if negb is_last then "|   " else "    ")).
  clear prefix is_last Hshown. intros inner.
  induction items as [|item rest IHrest]; intros output; [reflexivity|].
  cbn [all_ended keep_shown render_items] in *.
  apply andb_prop in Hended. destruct Hended as (Hitem & Hrest).
  inversion IH as [|? ? IHitem IHitems]; subst.
  destruct (name_in (basename item) ignore) eqn:Hig.
  - rewrite (ignored_draws_nothing _ _ _ _ _ _ Hig), append_empty_r.
    now apply IHrest.
  - cbn [render_items].
    rewrite (keep_shown_is_nil _ _ _ _ Hrest), <- (IHitem _ _ eq_refl Hitem).
    now apply IHrest.
Qed.

Lemma ignoring_is_pruning_witness :
  build_directory_tree
    (Dir "app" [ File ".env"; Dir "src" [ File "main.py"; File "notes.tmp" ; File "util.py" ] ])
    "" [".env"; "notes.tmp"] false [] false
  = build_directory_tree
      (Dir "app" [ Dir "src" [ File "main.py"; File "util.py" ] ]) "" [] false [] false.
Proof.
  now rewrite ignoring_is_pruning.
Defined.

(** An ignored entry that is listed last still counts as the last one:
    the directory before it is drawn as if more were to come. *)
Example ignored_last_entry_keeps_the_branch :
  build_directory_tree ignored_last "" [".DS_Store"] true [] false
  = "|-- app/" ++ Py.nl ++ "    |-- src/" ++ Py.nl ++ "    |   |-- main.py" ++ Py.nl
  /\ build_directory_tree (prune [".DS_Store"] ignored_last) "" [] true [] false
     = "|-- app/" ++ Py.nl ++ "    |-- src/" ++ Py.nl ++ "        |-- main.py" ++ Py.nl.
Proof. split; reflexivity. Qed.


(** * The callers of the executor *)

Lemma count_said_app (p : said -> bool) (a b : list said) :
  count_said p (a ++ b) = (count_said p a + count_said p b)%nat.
Proof. unfold count_said. now rewrite filter_app, length_app. Qed.

Lemma debug_tries_done {C : Type} (tries : nat) (c : crew C) (id : string)
    (command : option command_dict) (ui issue : option string) (s : session C) :
  debug_tries tries c id command ui issue true s = (Ok true, s).
Proof. destruct tries; reflexivity. Qed.

(** The transcript of the loop of [debug], however it ends. *)
Lemma debug_tries_trace {C : Type} (tries : nat) (c : crew C) (id : string)
    (command : option command_dict) (ui issue : option string) (s s' : session C)
    (r : res bool) :
  debug_tries tries c id command ui issue false s = (r, s') ->
  exists lost won rest,
    transcript s' = (transcript s ++ rounds id command ui issue lost won ++ rest)%list
    /\ (tried lost won <= tries)%nat
    /\ match r with
       | Ok b =>
           rest = [] /\ b = succeeded won /\ (won = None -> List.length lost = tries)
       | _ =>
           won = None /\ (List.length lost < tries)%nat
           /\ cut_short id command ui issue rest
       end.
Proof.
  revert s. induction tries as [|tries IH]; intros s E.
  - injection E as <- <-. exists [], None, []. cbn. rewrite app_nil_r.
    repeat split; lia.
  - cbn [debug_tries] in E. unfold tbind at 1, call at 1 in E.
    destruct (load_branch c id (backstage s) (world s)) as [[[]|e|] [k1 m1]];
      try (injection E as <- <-; exists [], None, []; cbn; rewrite app_nil_r;
           repeat split; try lia; now left).
    unfold tbind at 1, call at 1 in E. cbn [backstage world transcript] in E.
    destruct (send_message c "dev_ops/debug.prompt" (debug_data command ui issue)
                (Some DEBUG_STEPS_BREAKDOWN) k1 m1) as [[plan|e|] [k2 m2]];
      try (injection E as <- <-; exists [], None, [BranchLoaded id]; cbn;
           repeat split; try lia; right; now left).
    unfold tbind at 1, call at 1 in E. cbn [backstage world transcript] in E.
    destruct (execute_task c plan command k2 m2) as [[[|]|e|] [k3 m3]];
      try (injection E as <- <-; eexists [], None, [_; _]; cbn; rewrite <- !app_assoc;
           repeat split; try lia; right; right; eexists; reflexivity).
    + rewrite debug_tries_done in E. injection E as <- <-.
      exists [], (Some plan), []. cbn. rewrite <- !app_assoc.
      repeat split; try lia. discriminate.
    + destruct (IH _ E) as (lost & won & rest & Ht & Hn & Hr).
      cbn [transcript] in Ht.
      exists (plan :: lost), won, rest. split; [|split].
      * rewrite Ht. unfold rounds. cbn [flat_map round]. rewrite <- !app_assoc.
        reflexivity.
      * unfold tried in *. cbn [List.length]. lia.
      * destruct r as [b|e|]; cbn [List.length]; intuition lia.
Qed.

(** What [debug] adds to the transcript, however it ends. *)
Lemma debug_trace `{code_execution} {C : Type} (c : crew C)
    (command : option command_dict) (ui issue : option string) (s s' : session C)
    (r : res bool) :
  debug c command ui issue s = (r, s') ->
  (transcript s' = transcript s /\ forall b, r <> Ok b)
  \/ exists id lost won rest ending,
       transcript s'
       = (transcript s
          ++ BranchSaved id :: rounds id command ui issue lost won ++ rest ++ ending)%list
       /\ (tried lost won <= Z.to_nat MAX_COMMAND_DEBUG_TRIES)%nat
       /\ match r with
          | Ok b =>
              rest = []
              /\ match won with
                 | Some _ => b = true /\ ending = []
                 | None =>
                     List.length lost = Z.to_nat MAX_COMMAND_DEBUG_TRIES
                     /\ exists reply,
                          b = is_str reply "continue"
                          /\ ending = [HumanAsked (plea ui issue) command reply]
                 end
          | _ =>
              won = None /\ ending = [] /\ cut_short id command ui issue rest
              /\ (rest = [] \/ (List.length lost < Z.to_nat MAX_COMMAND_DEBUG_TRIES)%nat)
          end.
Proof.
  unfold debug. intros E. unfold tbind at 1, call at 1 in E.
  destruct (uuid4 c (backstage s) (world s)) as [[id|e|] [k0 m0]];
    try (injection E as <- <-; left; split; [reflexivity | discriminate]).
  unfold tbind at 1, call at 1 in E. cbn [backstage world transcript] in E.
  destruct (save_branch c id k0 m0) as [[[]|e|] [k1 m1]];
    try (injection E as <- <-; left; split; [now rewrite app_nil_r | discriminate]).
  right. unfold tbind at 1 in E.
  match type of E with context [debug_tries ?n c id command ui issue false ?s1] =>
    destruct (debug_tries n c id command ui issue false s1) as [r3 s3] eqn:E3 end.
  apply debug_tries_trace in E3. destruct E3 as (lost & won & rest & Ht & Hn & Hr).
  cbn [transcript] in Ht. rewrite app_nil_r in Ht.
  destruct r3 as [b3|e|].
  - destruct Hr as (-> & -> & Hall). destruct won as [plan|]; cbn [succeeded negb] in E.
    + injection E as <- <-. exists id, lost, (Some plan), [], [].
      split; [|split; [exact Hn | repeat split]].
      rewrite Ht, <- !app_assoc. reflexivity.
    + unfold tbind at 1, call at 1 in E.
      destruct (ask_for_human_intervention c (plea ui issue) command (backstage s3)
                  (world s3)) as [[reply|e|] [k4 m4]].
      * assert (E' : r = Ok (is_str reply "continue")
                     /\ transcript s'
                        = (transcript s3 ++ [HumanAsked (plea ui issue) command reply])%list)
          by (destruct (is_str reply "continue"); injection E as <- <-;
              split; reflexivity).
        destruct E' as (-> & Ht').
        exists id, lost, None, [], [HumanAsked (plea ui issue) command reply].
        split; [now rewrite Ht', Ht, <- !app_assoc|].
        split; [exact Hn|]. split; [reflexivity|]. split; [now apply Hall|].
        exists reply. split; reflexivity.
      * injection E as <- <-. exists id, lost, None, [], []. cbn [transcript].
        split; [now rewrite Ht, <- !app_assoc|].
        split; [exact Hn|]. repeat split; try (now left).
      * injection E as <- <-. exists id, lost, None, [], []. cbn [transcript].
        split; [now rewrite Ht, <- !app_assoc|].
        split; [exact Hn|]. repeat split; try (now left).
  - injection E as <- <-. destruct Hr as (-> & Hl & Hc).
    exists id, lost, None, rest, []. rewrite Ht, <- !app_assoc, app_nil_r.
    repeat split; try assumption. now right.
  - injection E as <- <-. destruct Hr as (-> & Hl & Hc).
    exists id, lost, None, rest, []. rewrite Ht, <- !app_assoc, app_nil_r.
    repeat split; try assumption. now right.
Qed.

(** X16.  [debug] stops at the first task that succeeds and gives up
    after [MAX_COMMAND_DEBUG_TRIES] rounds.  When it returns, it has saved
    one branch and then run rounds of loading that branch, asking for a
    plan and executing it with the command it was given: either all but
    the last failed, the last succeeded, the human was not asked and the
    result is [True]; or exactly [MAX_COMMAND_DEBUG_TRIES] rounds failed,
    the human was asked once, and the result is whether the human typed
    [continue]. *)
Theorem debug_stops_at_first_success `{code_execution} {C : Type} (c : crew C)
    (command : option command_dict) (ui issue : option string) (s s' : session C)
    (b : bool) :
  debug c command ui issue s = (Ok b, s') ->
  exists id lost won,
    (tried lost won <= Z.to_nat MAX_COMMAND_DEBUG_TRIES)%nat
    /\ match won with
       | Some _ =>
           b = true
           /\ transcript s'
              = (transcript s
                 ++ BranchSaved id :: rounds id command ui issue lost won)%list
       | None =>
           List.length lost = Z.to_nat MAX_COMMAND_DEBUG_TRIES
           /\ exists reply,
                b = is_str reply "continue"
                /\ transcript s'
                   = (transcript s
                      ++ BranchSaved id :: rounds id command ui issue lost None
                      ++ [HumanAsked (plea ui issue) command reply])%list
       end.
Proof.
  intros E. apply debug_trace in E. destruct E as [(_ & F)|E]; [now destruct (F b)|].
  destruct E as (id & lost & won & rest & ending & Ht & Hn & -> & Hw).
  exists id, lost, won. split; [exact Hn|].
  destruct won as [plan|].
  - destruct Hw as (-> & ->). split; [reflexivity|]. now rewrite Ht, !app_nil_r.
  - destruct Hw as (Hl & reply & -> & ->). split; [exact Hl|].
    exists reply. split; [reflexivity | exact Ht].
Qed.

Lemma debug_stops_at_first_success_witness :
  let s := opening 0%nat (boot "Linux") in
  let s' := snd (@debug sample_constants _ (patient 2 "NO" "no") None None None s) in
  exists id lost won,
    (tried lost won <= 3)%nat
    /\ match won with
       | Some _ =>
           true = true
           /\ transcript s' = (transcript s ++ BranchSaved id :: rounds id None None None lost won)%list
       | None =>
           List.length lost = 3%nat
           /\ exists reply,
                true = is_str reply "continue"
                /\ transcript s'
                   = (transcript s
                      ++ BranchSaved id :: rounds id None None None lost None
                      ++ [HumanAsked (plea None None) None reply])%list
       end.
Proof.
  intros s s'.
  assert (E : @debug sample_constants _ (patient 2 "NO" "no") None None None s
              = (Ok true, s')) by (vm_compute; reflexivity).
  exact (@debug_stops_at_first_success sample_constants _ (patient 2 "NO" "no")
           None None None s s' true E).
Defined.

Lemma rounds_counts (id : string) (command : option command_dict)
    (ui issue : option string) (lost : list pyval) (won : option pyval) :
  count_said is_task (rounds id command ui issue lost won) = tried lost won
  /\ count_said is_message (rounds id command ui issue lost won) = tried lost won
  /\ count_said is_ask (rounds id command ui issue lost won) = 0%nat.
Proof.
  unfold rounds, tried. rewrite !count_said_app.
  assert (L : count_said is_task
                (flat_map (fun plan => round id command ui issue plan false) lost)
              = List.length lost
              /\ count_said is_message
                   (flat_map (fun plan => round id command ui issue plan false) lost)
                 = List.length lost
              /\ count_said is_ask
                   (flat_map (fun plan => round id command ui issue plan false) lost)
                 = 0%nat).
  { induction lost as [|plan lost IH]; [repeat split|].
    cbn [flat_map List.length]. rewrite !count_said_app.
    destruct IH as (-> & -> & ->). repeat split. }
  destruct L as (-> & -> & ->). destruct won; repeat split.
Qed.

Lemma cut_short_counts (id : string) (command : option command_dict)
    (ui issue : option string) (rest : list said) :
  cut_short id command ui issue rest ->
  count_said is_task rest = 0%nat
  /\ (count_said is_message rest <= 1)%nat
  /\ count_said is_ask rest = 0%nat
  /\ forall plan cmd ok, ~ In (TaskExecuted plan cmd ok) rest.
Proof.
  intros [->|[->|(plan & ->)]]; cbn; repeat apply conj; try lia;
    intros p cmd ok Hin; cbn in Hin; intuition discriminate.
Qed.

Lemma in_rounds (id : string) (command : option command_dict) (ui issue : option string)
    (lost : list pyval) (won : option pyval) (plan : pyval) (cmd : option command_dict)
    (ok : bool) :
  In (TaskExecuted plan cmd ok) (rounds id command ui issue lost won) ->
  cmd = command /\ (ok = true -> won <> None).
Proof.
  unfold rounds. intros Hin. apply in_app_or in Hin. destruct Hin as [Hin|Hin].
  - apply in_flat_map in Hin. destruct Hin as (p & _ & Hin). cbn in Hin.
    destruct Hin as [Hin|[Hin|[Hin|[]]]]; try discriminate Hin.
    injection Hin as <- <- <-. split; [reflexivity | discriminate].
  - destruct won as [p|]; [|contradiction]. cbn in Hin.
    destruct Hin as [Hin|[Hin|[Hin|[]]]]; try discriminate Hin.
    injection Hin as <- <- <-. split; [reflexivity | discriminate].
Qed.

(** What one call of [debug] has added to the transcript, counted. *)
Lemma debug_counts `{code_execution} {C : Type} (c : crew C)
    (command : option command_dict) (ui issue : option string) (s s' : session C)
    (r : res bool) :
  debug c command ui issue s = (r, s') ->
  exists added (won : option pyval),
    transcript s' = (transcript s ++ added)%list
    /\ (count_said is_task added <= Z.to_nat MAX_COMMAND_DEBUG_TRIES)%nat
    /\ (count_said is_message added <= Z.to_nat MAX_COMMAND_DEBUG_TRIES)%nat
    /\ count_said is_ask added
       = match r, won with Ok _, None => 1%nat | _, _ => 0%nat end
    /\ (forall plan cmd ok,
          In (TaskExecuted plan cmd ok) added ->
          cmd = command /\ (ok = true -> won <> None))
    /\ (won <> None -> r = Ok true).
Proof.
  intros E. apply debug_trace in E. destruct E as [(Ht & Hr)|E].
  - exists [], None. rewrite app_nil_r.
    split; [exact Ht|]. split; [cbn; lia|]. split; [cbn; lia|].
    split; [destruct r as [b|e|]; [now destruct (Hr b) | reflexivity | reflexivity]|].
    split; [intros; contradiction|]. intros F. now destruct F.
  - destruct E as (id & lost & won & rest & ending & Ht & Hn & Hr).
    exists (BranchSaved id :: rounds id command ui issue lost won ++ rest ++ ending)%list,
      won.
    split; [exact Ht|].
    destruct (rounds_counts id command ui issue lost won) as (Rt & Rm & Ra).
    assert (Hcount : forall p, p (BranchSaved id) = false ->
              count_said p
                (BranchSaved id :: rounds id command ui issue lost won ++ rest ++ ending)
              = (count_said p (rounds id command ui issue lost won)
                 + count_said p rest + count_said p ending)%nat).
    { intros p Hp. unfold count_said at 1. cbn [filter]. rewrite Hp.
      fold (count_said p (rounds id command ui issue lost won ++ rest ++ ending)).
      rewrite !count_said_app. lia. }
    rewrite !Hcount, Rt, Rm, Ra by reflexivity.
    assert (Hin : forall plan cmd ok,
              In (TaskExecuted plan cmd ok)
                 (BranchSaved id :: rounds id command ui issue lost won ++ rest ++ ending) ->
              In (TaskExecuted plan cmd ok) (rounds id command ui issue lost won)
              \/ In (TaskExecuted plan cmd ok) rest
              \/ In (TaskExecuted plan cmd ok) ending).
    { intros plan cmd ok [Hd|Hi]; [discriminate Hd|].
      apply in_app_or in Hi. destruct Hi as [Hi|Hi]; [now left|].
      apply in_app_or in Hi. tauto. }
    assert (Hfacts :
      count_said is_task rest = 0%nat /\ count_said is_task ending = 0%nat
      /\ (tried lost won + count_said is_message rest
          <= Z.to_nat MAX_COMMAND_DEBUG_TRIES)%nat
      /\ count_said is_message ending = 0%nat
      /\ count_said is_ask rest = 0%nat
      /\ count_said is_ask ending
         = match r, won with Ok _, None => 1%nat | _, _ => 0%nat end
      /\ (forall plan cmd ok, ~ In (TaskExecuted plan cmd ok) rest)
      /\ (forall plan cmd ok, ~ In (TaskExecuted plan cmd ok) ending)
      /\ (won <> None -> r = Ok true)).
    { destruct r as [b|e|].
      - destruct Hr as (-> & Hw). destruct won as [plan|].
        + destruct Hw as (-> & ->). cbn. repeat apply conj; try lia; try tauto.
        + destruct Hw as (_ & reply & _ & ->). cbn.
          repeat apply conj; try lia; try tauto.
          intros plan cmd ok [F|[]]. discriminate F.
      - destruct Hr as (-> & -> & Hc & Hl).
        destruct (cut_short_counts _ _ _ _ _ Hc) as (Ct & Cm & Ca & Cn).
        unfold tried in *. cbn.
        repeat apply conj; try lia; try tauto; try exact Cn.
        destruct Hl as [->|Hl]; [cbn; lia | lia].
      - destruct Hr as (-> & -> & Hc & Hl).
        destruct (cut_short_counts _ _ _ _ _ Hc) as (Ct & Cm & Ca & Cn).
        unfold tried in *. cbn.
        repeat apply conj; try lia; try tauto; try exact Cn.
        destruct Hl as [->|Hl]; [cbn; lia | lia]. }
    destruct Hfacts as (F1 & F2 & F3 & F4 & F5 & F6 & F7 & F8 & F9).
    repeat apply conj; try lia; try exact F9.
    intros plan cmd ok Hi. apply Hin in Hi.
    destruct Hi as [Hi|[Hi|Hi]];
      [now apply in_rounds in Hi | now apply F7 in Hi | now apply F8 in Hi].
Qed.

(** X17.  Whatever the collaborators do, return, raise or never answer,
    one call of [debug] executes at most [MAX_COMMAND_DEBUG_TRIES] tasks,
    asks for at most as many plans and asks the human at most once; every
    task is executed with the command [debug] was given; and once a task
    has succeeded [debug] returns [True] without asking the human. *)
Theorem retries_are_bounded `{code_execution} {C : Type} (c : crew C)
    (command : option command_dict) (ui issue : option string) (s : session C) :
  exists added,
    transcript (snd (debug c command ui issue s)) = (transcript s ++ added)%list
    /\ (count_said is_task added <= Z.to_nat MAX_COMMAND_DEBUG_TRIES)%nat
    /\ (count_said is_message added <= Z.to_nat MAX_COMMAND_DEBUG_TRIES)%nat
    /\ (count_said is_ask added <= 1)%nat
    /\ (forall plan cmd ok, In (TaskExecuted plan cmd ok) added -> cmd = command)
    /\ (forall plan cmd,
          In (TaskExecuted plan cmd true) added ->
          fst (debug c command ui issue s) = Ok true
          /\ count_said is_ask added = 0%nat).
Proof.
  destruct (debug c command ui issue s) as [r s'] eqn:E. cbn [fst snd].
  apply debug_counts in E.
  destruct E as (added & won & Ht & Ct & Cm & Ca & Hin & Hw).
  exists added. repeat apply conj; try assumption.
  - rewrite Ca. destruct r, won; lia.
  - intros plan cmd ok Hi. now apply Hin in Hi.
  - intros plan cmd Hi. apply Hin in Hi. destruct Hi as (_ & Hi).
    specialize (Hi eq_refl). split; [now apply Hw|].
    rewrite Ca. destruct won; [|contradiction]. now destruct r.
Qed.

(** A developer that raises on the second task ends [debug] there: the
    exception leaves [debug], the third round is not run and the human is
    not asked. *)
Example raising_developer_ends_debug :
  let run := @debug sample_constants _ brittle None None None
               (opening 0%nat (boot "Linux")) in
  fst run = Raise KeyboardInterrupt
  /\ transcript (snd run)
     = (BranchSaved "7c9e6679"
        :: round "7c9e6679" None None None (VObj 0) false
        ++ [ BranchLoaded "7c9e6679";
             MessageSent "dev_ops/debug.prompt" (debug_data None None None)
               (Some DEBUG_STEPS_BREAKDOWN) (VObj 1) ])%list.
Proof. split; vm_compute; reflexivity. Qed.

(** ** [run_command_until_success] and
       [execute_command_and_check_cli_response] *)

Lemma lift_run {C A : Type} (c : Exec A) (s : session C) :
  lift c s = (fst (c (world s)),
              {| world := snd (c (world s)); backstage := backstage s;
                 transcript := transcript s |}).
Proof. unfold lift. now destruct (c (world s)). Qed.

Lemma prompt_is_shown `{code_execution} (env : script) (command : string)
    (timeout : option Z) (m : machine) :
  In (Prompted "If yes, just press ENTER")
     (console (snd (execute_command env command timeout false m))).
Proof.
  replace (execute_command env command timeout false m)
    with (execute_command env command timeout true
            (asked command (clamp_timeout timeout) m))
    by (rewrite !execute_command_eq; reflexivity).
  destruct (execute_command_effects env command timeout true
              (asked command (clamp_timeout timeout) m)) as (_ & evs & Hc & _).
  rewrite Hc. apply in_or_app. left.
  unfold asked. cbn [console with_console]. apply in_or_app. right. now left.
Qed.

(** X19.  [run_command_until_success] runs the command once and sends
    its output to the agent once.  When the reply is [DONE] that is all
    it does: nothing is printed, no branch is saved, nobody else is
    called.  On any other reply one [debug] follows, with the command and
    the timeout as the caller gave them, of at most
    [MAX_COMMAND_DEBUG_TRIES] rounds; whether it succeeded is not
    reported. *)
Theorem only_a_rejected_run_is_debugged `{code_execution} {C : Type} (c : crew C)
    (env : script) (command : string) (timeout : option Z) (additional : option string)
    (force : bool) (s s' : session C) :
  run_command_until_success c env command timeout additional force s = (Ok tt, s') ->
  exists cli reply,
    let ran := execute_command env command timeout force (world s) in
    let data := ran_command_data cli command (Some additional) in
    let sent := MessageSent "dev_ops/ran_command.prompt" data None reply in
    let about := Some {| dict_command := command; dict_timeout := timeout |} in
    fst ran = Ok cli
    /\ fst (send_message c "dev_ops/ran_command.prompt" data None (backstage s) (snd ran))
       = Ok reply
    /\ if is_str reply "DONE"
       then
         transcript s' = (transcript s ++ [sent])%list
         /\ (backstage s', world s')
            = snd (send_message c "dev_ops/ran_command.prompt" data None (backstage s)
                     (snd ran))
       else
         exists id lost won ending,
           (tried lost won <= Z.to_nat MAX_COMMAND_DEBUG_TRIES)%nat
           /\ transcript s'
              = (transcript s
                 ++ sent :: BranchSaved id :: rounds id about None None lost won
                 ++ ending)%list
           /\ match won with
              | Some _ => ending = []
              | None =>
                  List.length lost = Z.to_nat MAX_COMMAND_DEBUG_TRIES
                  /\ exists typed, ending = [HumanAsked (plea None None) about typed]
              end.
Proof.
  unfold run_command_until_success. intros E.
  unfold tbind at 1 in E. rewrite lift_run in E.
  destruct (execute_command env command timeout force (world s)) as [[cli|e|] m1];
    cbn [fst snd] in *; try discriminate E.
  unfold tbind at 1, call at 1 in E. cbv zeta in E.
  cbn [backstage world transcript] in E.
  exists cli.
  destruct (send_message c "dev_ops/ran_command.prompt"
              (ran_command_data cli command (Some additional)) None (backstage s) m1)
    as [[reply|e|] [k2 m2]]; try discriminate E.
  exists reply. cbv zeta. cbn [fst snd]. split; [reflexivity|]. split; [reflexivity|].
  destruct (is_str reply "DONE"); cbn [negb] in E.
  - injection E as <-. split; reflexivity.
  - cbv [tbind lift print print_end log modify world backstage transcript] in E.
    match type of E with context [debug c ?cmd None None ?s2] =>
      destruct (debug c cmd None None s2) as [[b|e|] sd] eqn:Ed end;
      try discriminate E.
    injection E as <-. apply debug_trace in Ed. cbn [transcript] in Ed.
    destruct Ed as [(_ & F)|Ed]; [now destruct (F b)|].
    destruct Ed as (id & lost & won & rest & ending & Ht & Hn & -> & Hw).
    exists id, lost, won, ending. split; [exact Hn|]. split.
    + rewrite Ht, <- !app_assoc. reflexivity.
    + destruct won as [plan|]; [apply Hw|].
      destruct Hw as (Hl & typed & _ & ->). split; [exact Hl | now exists typed].
Qed.

Lemma only_a_rejected_run_is_debugged_witness :
  let s := opening 0%nat (boot "Linux") in
  let s' := snd (@run_command_until_success sample_constants _ (patient 2 "NO" "no")
                   echo_hello "echo hello" (Some 5) None true s) in
  exists cli reply,
    let ran := @execute_command sample_constants echo_hello "echo hello" (Some 5) true
                 (world s) in
    let data := ran_command_data cli "echo hello" (Some None) in
    let sent := MessageSent "dev_ops/ran_command.prompt" data None reply in
    let about := Some {| dict_command := "echo hello"; dict_timeout := Some 5 |} in
    fst ran = Ok cli
    /\ fst (send_message (patient 2 "NO" "no") "dev_ops/ran_command.prompt" data None
              (backstage s) (snd ran))
       = Ok reply
    /\ if is_str reply "DONE"
       then
         transcript s' = (transcript s ++ [sent])%list
         /\ (backstage s', world s')
            = snd (send_message (patient 2 "NO" "no") "dev_ops/ran_command.prompt" data
                     None (backstage s) (snd ran))
       else
         exists id lost won ending,
           (tried lost won <= 3)%nat
           /\ transcript s'
              = (transcript s
                 ++ sent :: BranchSaved id :: rounds id about None None lost won
                 ++ ending)%list
           /\ match won with
              | Some _ => ending = []
              | None =>
                  List.length lost = 3%nat
                  /\ exists typed, ending = [HumanAsked (plea None None) about typed]
              end.
Proof.
  intros s s'.
  assert (E : @run_command_until_success sample_constants _ (patient 2 "NO" "no")
                echo_hello "echo hello" (Some 5) None true s
              = (Ok tt, s')) by (vm_compute; reflexivity).
  exact (@only_a_rejected_run_is_debugged sample_constants _ (patient 2 "NO" "no")
           echo_hello "echo hello" (Some 5) None true s s' E).
Defined.

(** X20.  Neither caller catches what the executor raises: when [Popen]
    fails, [run_command_until_success] and
    [execute_command_and_check_cli_response] raise the same exception,
    the agent is sent nothing, nothing is debugged, and the collaborators
    are not called at all. *)
Theorem spawn_failure_reaches_the_caller `{code_execution} {C : Type} (c : crew C)
    (env : script) (command : string) (timeout : option Z) (additional : option string)
    (force : bool) (s : session C) (e : exn) :
  replays command (world s) = None ->
  popen_error env = Some e ->
  (exists s',
      run_command_until_success c env command timeout additional force s = (Raise e, s')
      /\ transcript s' = transcript s /\ backstage s' = backstage s)
  /\ (exists s',
        execute_command_and_check_cli_response c env command timeout s = (Raise e, s')
        /\ transcript s' = transcript s /\ backstage s' = backstage s).
Proof.
  intros Hr Hp.
  assert (E : forall force, fst (execute_command env command timeout force (world s))
                            = Raise e).
  { intros f. now rewrite execute_command_eq, Hr, (supervise_spawn_fails _ _ _ _ _ Hp). }
  split.
  - unfold run_command_until_success, tbind at 1. rewrite lift_run, E.
    eexists. split; [reflexivity|]. split; reflexivity.
  - unfold execute_command_and_check_cli_response, tbind at 1. rewrite lift_run, E.
    eexists. split; [reflexivity|]. split; reflexivity.
Qed.

Lemma spawn_failure_reaches_the_caller_witness :
  (exists s',
      @run_command_until_success sample_constants _ (patient 1 "DONE" "no") cannot_spawn
        "ls" (Some 5000) None false (opening 0%nat (boot "Linux"))
      = (Raise FileNotFoundError, s')
      /\ transcript s' = [] /\ backstage s' = 0%nat)
  /\ (exists s',
        @execute_command_and_check_cli_response sample_constants _ (patient 1 "DONE" "no")
          cannot_spawn "ls" (Some 5000) (opening 0%nat (boot "Linux"))
        = (Raise FileNotFoundError, s')
        /\ transcript s' = [] /\ backstage s' = 0%nat).
Proof.
  exact (@spawn_failure_reaches_the_caller sample_constants _ (patient 1 "DONE" "no")
           cannot_spawn "ls" (Some 5000) None false (opening 0%nat (boot "Linux"))
           FileNotFoundError eq_refl eq_refl).
Defined.

(** X21.  [execute_command_and_check_cli_response] never forces and never
    debugs: the confirmation is always shown, the text it returns is the
    one the executor returned, that text is what the agent is sent, once,
    and the reply is handed back whatever it is. *)
Theorem check_always_asks_and_never_debugs `{code_execution} {C : Type} (c : crew C)
    (env : script) (command : string) (timeout : option Z) (s s' : session C)
    (cli : string) (reply : pyval) :
  execute_command_and_check_cli_response c env command timeout s = (Ok (cli, reply), s') ->
  let ran := execute_command env command timeout false (world s) in
  let data := ran_command_data cli command None in
  fst ran = Ok cli
  /\ In (Prompted "If yes, just press ENTER") (console (snd ran))
  /\ send_message c "dev_ops/ran_command.prompt" data None (backstage s) (snd ran)
     = (Ok reply, (backstage s', world s'))
  /\ transcript s'
     = (transcript s ++ [MessageSent "dev_ops/ran_command.prompt" data None reply])%list.
Proof.
  unfold execute_command_and_check_cli_response. intros E. cbv zeta.
  pose proof (prompt_is_shown env command timeout (world s)) as Hp.
  unfold tbind at 1 in E. rewrite lift_run in E.
  destruct (execute_command env command timeout false (world s)) as [[cli'|e|] m1];
    cbn [fst snd] in *; try discriminate E.
  unfold tbind at 1, call at 1 in E. cbv zeta in E.
  cbn [backstage world transcript] in E.
  destruct (send_message c "dev_ops/ran_command.prompt"
              (ran_command_data cli' command None) None (backstage s) m1)
    as [[reply'|e|] [k2 m2]] eqn:Es; try discriminate E.
  unfold tret in E. injection E as <- <- <-. cbn [backstage world transcript].
  repeat apply conj; try reflexivity; assumption.
Qed.

Lemma check_always_asks_and_never_debugs_witness :
  let s := opening 0%nat (boot "Linux") in
  let run := @execute_command_and_check_cli_response sample_constants _
               (patient 1 "DONE" "no") echo_hello "echo hello" None s in
  let ran := @execute_command sample_constants echo_hello "echo hello" None false
               (world s) in
  In (Prompted "If yes, just press ENTER") (console (snd ran))
  /\ transcript (snd run)
     = [MessageSent "dev_ops/ran_command.prompt"
          [("cli_response", VStr ("stdout:" ++ Py.nl ++ Py.fence ++ Py.nl ++ "hello"
                                  ++ Py.nl ++ Py.nl ++ Py.fence));
           ("command", VStr "echo hello")]
          None (VStr "DONE")].
Proof.
  intros s run ran.
  assert (E : run = (Ok ("stdout:" ++ Py.nl ++ Py.fence ++ Py.nl ++ "hello"
                         ++ Py.nl ++ Py.nl ++ Py.fence, VStr "DONE"), snd run))
    by (vm_compute; reflexivity).
  destruct (@check_always_asks_and_never_debugs sample_constants _ (patient 1 "DONE" "no")
              echo_hello "echo hello" None s (snd run) _ _ E)
    as (_ & Hp & _ & Ht).
  split; [exact Hp | exact Ht].
Defined.
